(** * Competitive-intelligence analyzer: a shallow embedding and its properties

    The development follows the guarded variant of the analyzer
    (validateCreatorForAnalysis, analyzeCompetitiveLandscape,
    benchmarkCreator, analyzeContentStrategy, getTier, getPercentileLabel,
    generateInsights, generateBenchmarkRecommendations), the earlier variant
    of the recommendations, and the two branches of the entry script.

    Modelling conventions.
    - A JavaScript number is modelled by its value: counts as [Z],
      fractional quantities as [Q].  The percentiles and the gap percentage
      of benchmarkCreator are computed as the source computes them, every
      operation rounded to binary64 ([Binary64.fl]).  The other figures
      (sums, shares, growth figures, means) are computed exactly.  For
      whole-number counts whose absolute values add up to less than 2^52
      the sums, the rounded mean and the rounded daily growth of the source
      are the exact ones ([running_sum_exact], [Math_round_fl_quotient],
      [followersPerDay_binary64]), and the statements that relate the
      totals to the input carry this range as a hypothesis; a share of the
      source is a nearest hundredth of the exact percentage, like the exact
      share ([share_binary64_nearest]).  Where the source divides by a
      quantity that can be zero without a guard, the quotient is a
      [JS.number], which adds Infinity, -Infinity and NaN.
    - An optional property of an input object is an [option]; [None] is
      [undefined].
    - A thrown exception is the left injection of [result].
    - A template literal is a constructor that carries the interpolated
      values; the formatting of numbers into text is not modelled. *)

From Stdlib Require Import ZArith QArith Qround Qabs Qpower List String Ascii.
From Stdlib Require Import Bool Lia Lqa Permutation Sorted.
From Stdlib Require Floats Uint63.
Import ListNotations.

Local Open Scope string_scope.
Local Open Scope list_scope.
Local Open Scope Z_scope.

(** ** JavaScript values *)

Module JS.

(** The result of an unguarded division. *)
Inductive number :=
| Fin (q : Q)
| PosInf
| NegInf
| NaN.

(** [a / b] on finite operands, the quotient taken exactly. *)
Definition div (a b : Q) : number :=
  if Qeq_bool b 0 then
    match (a ?= 0)%Q with
    | Gt => PosInf
    | Lt => NegInf
    | Eq => NaN
    end
  else Fin (a / b).

(** [x * k] for a finite [k], the product taken exactly. *)
Definition mul (x : number) (k : Q) : number :=
  match x with
  | Fin q => Fin (q * k)
  | PosInf =>
      match (k ?= 0)%Q with Gt => PosInf | Lt => NegInf | Eq => NaN end
  | NegInf =>
      match (k ?= 0)%Q with Gt => NegInf | Lt => PosInf | Eq => NaN end
  | NaN => NaN
  end.

(** [Math.round] on a finite number: nearest integer, ties upwards. *)
Definition Math_round (x : Q) : Z := Qfloor (x + (1 # 2)).

(** [Math.round] on a quotient: the special values are fixed points. *)
Definition round (x : number) : number :=
  match x with
  | Fin q => Fin (inject_Z (Math_round q))
  | other => other
  end.

Definition Qltb (a b : Q) : bool := negb (Qle_bool b a).

(** [a < x] and [a > x] for a finite [a]; every comparison with NaN is
    false. *)
Definition lt (a : Q) (x : number) : bool :=
  match x with
  | Fin q => Qltb a q
  | PosInf => true
  | NegInf => false
  | NaN => false
  end.

Definition gt (a : Q) (x : number) : bool :=
  match x with
  | Fin q => Qltb q a
  | PosInf => false
  | NegInf => true
  | NaN => false
  end.

(** [x || d] on an optional count: [undefined] and [0] are falsy. *)
Definition or_default (x : option Z) (d : Z) : Z :=
  match x with
  | Some v => if v =? 0 then d else v
  | None => d
  end.

Definition or_defaultQ (x : option Q) (d : Q) : Q :=
  match x with
  | Some v => if Qeq_bool v 0 then d else v
  | None => d
  end.

(** Truthiness of an optional boolean and of an optional string. *)
Definition truthy (x : option bool) : bool :=
  match x with Some b => b | None => false end.

Definition truthy_string (x : option string) : bool :=
  match x with
  | Some s => negb (String.eqb s EmptyString)
  | None => false
  end.

(** Exceptions: [TypeError] is raised by the runtime when a property of
    [undefined] or [null] is read; [Error] is what [throw new Error(..)]
    raises. *)
Inductive exn :=
| TypeError (what : string)
| Error (message : string).

Definition result (A : Type) : Type := (exn + A)%type.

Definition ret {A} (a : A) : result A := inr a.
Definition throw {A} (e : exn) : result A := inl e.
Definition bind {A B} (m : result A) (k : A -> result B) : result B :=
  match m with
  | inl e => inl e
  | inr a => k a
  end.

(** [Array.prototype.sort] with a comparator.  The sort is stable; an
    element [x] moves behind [y] only when [cmp x y] is positive. *)
Section Sort.
Context {A : Type} (cmp : A -> A -> Q).

Fixpoint insert (x : A) (l : list A) : list A :=
  match l with
  | [] => [x]
  | y :: l' =>
      if Qltb 0 (cmp x y) then y :: insert x l' else x :: l
  end.

Definition sort (l : list A) : list A := fold_right insert [] l.
End Sort.

(** [Array.prototype.findIndex]: -1 when no element satisfies [p]. *)
Fixpoint findIndex_from {A} (p : A -> bool) (i : Z) (l : list A) : Z :=
  match l with
  | [] => -1
  | x :: l' => if p x then i else findIndex_from p (i + 1) l'
  end.

Definition findIndex {A} (p : A -> bool) (l : list A) : Z :=
  findIndex_from p 0 l.

(** [[...new Set(l)]]: the distinct elements in order of first
    occurrence. *)
Section SetOf.
Context {A : Type} (eqb : A -> A -> bool).

Fixpoint set_add (seen : list A) (x : A) : list A :=
  match seen with
  | [] => [x]
  | y :: seen' => if eqb y x then seen else y :: set_add seen' x
  end.

Definition Set_of (l : list A) : list A := fold_left set_add l [].
End SetOf.

(** [String.prototype.toLowerCase] on ASCII text: the letters A-Z are
    lowered and every other byte is kept.  It serves the sample runs, whose
    usernames are ASCII; the entry script is modelled over an arbitrary
    lowering function. *)
Definition lower_ascii (c : ascii) : ascii :=
  let n := nat_of_ascii c in
  if andb (Nat.leb 65 n) (Nat.leb n 90) then ascii_of_nat (n + 32) else c.

Fixpoint toLowerCase (s : string) : string :=
  match s with
  | EmptyString => EmptyString
  | String c s' => String (lower_ascii c) (toLowerCase s')
  end.

End JS.

Notation "x <- m ;; k" := (JS.bind m (fun x => k))
  (at level 61, m at next level, right associativity).

(** ** Binary64 arithmetic

    An arithmetic operation on two JavaScript numbers yields the exact
    result rounded to the nearest binary64 number, a tie going to the even
    significand.  [fl] is this rounding on the rationals: a positive [x]
    with 2^k <= x < 2^(k+1) is rounded to a multiple of 2^(k-52).  The
    exponent range is not bounded; the quantities rounded below stay far
    from overflow and underflow. *)

Module Binary64.

Definition pow2 (k : Z) : Q := (2 ^ k)%Q.

(** The exponent [k] with 2^k <= x < 2^(k+1), for a positive [x]. *)
Definition ilog2 (x : Q) : Z :=
  let k := Z.log2 (Qnum x) - Z.log2 (Zpos (Qden x)) in
  if Qle_bool (pow2 k) x then k else k - 1.

(** The nearest integer, ties to even. *)
Definition rne (x : Q) : Z :=
  let f := Qfloor x in
  match (x - inject_Z f ?= 1 # 2)%Q with
  | Lt => f
  | Gt => f + 1
  | Eq => if Z.even f then f else f + 1
  end.

Definition round_positive (x : Q) : Q :=
  let e := ilog2 x - 52 in
  (inject_Z (rne (x / pow2 e)) * pow2 e)%Q.

Definition fl (x : Q) : Q :=
  match (x ?= 0)%Q with
  | Eq => 0%Q
  | Gt => round_positive x
  | Lt => (- round_positive (- x))%Q
  end.

(** [a / b] and [x * k] on binary64 operands. *)
Definition div (a b : Q) : JS.number :=
  if Qeq_bool b 0 then
    match (a ?= 0)%Q with
    | Gt => JS.PosInf
    | Lt => JS.NegInf
    | Eq => JS.NaN
    end
  else JS.Fin (fl (a / b)).

Definition mul (x : JS.number) (k : Q) : JS.number :=
  match x with
  | JS.Fin q => JS.Fin (fl (q * k))
  | JS.PosInf =>
      match (k ?= 0)%Q with
      | Gt => JS.PosInf | Lt => JS.NegInf | Eq => JS.NaN
      end
  | JS.NegInf =>
      match (k ?= 0)%Q with
      | Gt => JS.NegInf | Lt => JS.PosInf | Eq => JS.NaN
      end
  | JS.NaN => JS.NaN
  end.

End Binary64.


(** ** Data model *)

(** A creator profile as supplied by the caller.  Every property but the
    username may be missing. *)
Module Creator.
Record t := mk {
  username : string;
  nickname : option string;
  verified : option bool;
  followers : option Z;
  likes : option Z;
  videos : option Z;
  engagementRate : option Q;
  accountAgeDays : option Z;
  bioLink : option string;
  commerceUser : option bool;
  ttSeller : option bool
}.
End Creator.

Module Validation.
Record t := mk { isValid : bool; errors : list string }.
End Validation.

Module Metrics.
Record t := mk {
  followers : Z;
  likes : Z;
  videos : Z;
  engagementRate : Q;
  accountAgeDays : Z
}.
End Metrics.

Module MarketShare.
Record t := mk { followers : Q; likes : Q }.
End MarketShare.

Module Growth.
Record t := mk {
  followersPerDay : Z;
  followersPerMonth : Z;
  videosPerMonth : Q
}.
End Growth.

(** The posting strategies 'high-volume', 'consistent', 'moderate' and
    'quality-focused'. *)
Inductive PostingStrategy :=
| high_volume
| consistent
| moderate
| quality_focused.

Definition PostingStrategy_eqb (a b : PostingStrategy) : bool :=
  match a, b with
  | high_volume, high_volume => true
  | consistent, consistent => true
  | moderate, moderate => true
  | quality_focused, quality_focused => true
  | _, _ => false
  end.

Module ContentStrategy.
Record t := mk {
  postingStrategy : PostingStrategy;
  videosPerMonth : Q;
  avgLikesPerVideo : Z;
  hasExternalLinks : bool;
  isVerified : bool;
  isCommerce : bool
}.
End ContentStrategy.

(** The tiers 'mega', 'macro', 'mid-tier', 'micro' and 'nano'. *)
Inductive Tier := mega | macro | mid_tier | micro | nano.

(** One entry of [competitorAnalysis] as the map callback builds it. *)
Record CompetitorAnalysis := mkAnalysis {
  username : string;
  nickname : option string;
  verified : option bool;
  metrics : Metrics.t;
  marketShare : MarketShare.t;
  growth : Growth.t;
  contentStrategy : ContentStrategy.t;
  tier : Tier
}.

(** The same entry after [c.rank = i + 1] has been executed on it. *)
Record Ranked := mkRanked {
  entry :> CompetitorAnalysis;
  rank : Z
}.

(** ** Leaf functions *)

Definition validateCreatorForAnalysis (creator : option Creator.t)
  : Validation.t :=
  match creator with
  | None => Validation.mk false ["Creator is null/undefined"]
  | Some creator =>
      let negative (x : option Z) :=
        match x with Some v => v <? 0 | None => false end in
      let errors :=
        (if negative (Creator.followers creator)
         then ["Followers cannot be negative"] else [])
        ++ (if negative (Creator.likes creator)
            then ["Likes cannot be negative"] else [])
        ++ (if negative (Creator.videos creator)
            then ["Video count cannot be negative"] else [])
        ++ (if negative (Creator.accountAgeDays creator)
            then ["Account age cannot be negative"] else []) in
      Validation.mk (Nat.eqb (List.length errors) 0) errors
  end.

Definition analyzeContentStrategy (creator : Creator.t) : ContentStrategy.t :=
  let videos := JS.or_default (Creator.videos creator) 0 in
  let accountAgeDays := JS.or_default (Creator.accountAgeDays creator) 365 in
  let likes := JS.or_default (Creator.likes creator) 0 in
  let videosPerMonth := (inject_Z videos / inject_Z accountAgeDays * 30)%Q in
  let avgLikesPerVideo :=
    if 0 <? videos then (inject_Z likes / inject_Z videos)%Q else 0%Q in
  let postingStrategy :=
    if Qle_bool 60 videosPerMonth then high_volume
    else if Qle_bool 20 videosPerMonth then consistent
    else if Qle_bool 5 videosPerMonth then moderate
    else quality_focused in
  {| ContentStrategy.postingStrategy := postingStrategy;
     ContentStrategy.videosPerMonth :=
       (inject_Z (JS.Math_round (videosPerMonth * 10)) / 10)%Q;
     ContentStrategy.avgLikesPerVideo := JS.Math_round avgLikesPerVideo;
     ContentStrategy.hasExternalLinks :=
       JS.truthy_string (Creator.bioLink creator);
     ContentStrategy.isVerified := JS.truthy (Creator.verified creator);
     ContentStrategy.isCommerce :=
       JS.truthy (Creator.commerceUser creator)
       || JS.truthy (Creator.ttSeller creator) |}.

Definition getTier (followers : Z) : Tier :=
  if 1000000 <=? followers then mega
  else if 500000 <=? followers then macro
  else if 100000 <=? followers then mid_tier
  else if 10000 <=? followers then micro
  else nano.

Definition getPercentileLabel (percentile : Z) : string :=
  if 90 <=? percentile then "Top 10%"
  else if 75 <=? percentile then "Top 25%"
  else if 50 <=? percentile then "Above Average"
  else if 25 <=? percentile then "Below Average"
  else "Bottom 25%".

(** ** Insights *)

Inductive InsightType :=
| market_dominance
| challenger_rising
| engagement_opportunity
| growth_outlier
| strategy_uniformity.

Inductive Severity := info | warning | opportunity.

(** The message templates of [generateInsights] with their interpolated
    values. *)
Inductive InsightMessage :=
| Dominates (username : string) (share : Q)
| GrowingFasterThanLeader (username : string) (challenger leader : Z)
| HighestEngagementFewerFollowers (username : string) (rate : Q)
| GrowingTwiceAverage (username : string) (growthPerMonth : Z)
| SimilarPostingStrategy (strategy : option PostingStrategy).

Module Insight.
Record t := mk {
  type : InsightType;
  message : InsightMessage;
  severity : Severity;
  disclaimer : option string
}.
End Insight.

Definition sum_growth (competitors : list Ranked) : Z :=
  fold_left (fun sum (c : Ranked) => sum + Growth.followersPerMonth (growth c))
            competitors 0.

Definition generateInsights (competitors : list Ranked) (leader : Ranked)
  (challenger : option Ranked) (fastestGrowing highestEngagement : Ranked)
  : list Insight.t :=
  (* Leader dominance *)
  (if JS.Qltb 50 (MarketShare.followers (marketShare leader)) then
     [ Insight.mk market_dominance
         (Dominates (username leader)
                    (MarketShare.followers (marketShare leader)))
         info None ]
   else [])
  ++
  (* Challenger threat *)
  (match challenger with
   | Some challenger =>
       if Growth.followersPerMonth (growth leader)
          <? Growth.followersPerMonth (growth challenger)
       then
         [ Insight.mk challenger_rising
             (GrowingFasterThanLeader (username challenger)
                (Growth.followersPerMonth (growth challenger))
                (Growth.followersPerMonth (growth leader)))
             warning None ]
       else []
   | None => []
   end)
  ++
  (* Engagement leaders *)
  (if negb (String.eqb (username highestEngagement) (username leader)) then
     [ Insight.mk engagement_opportunity
         (HighestEngagementFewerFollowers (username highestEngagement)
            (Metrics.engagementRate (metrics highestEngagement)))
         opportunity None ]
   else [])
  ++
  (* Growth velocity differences *)
  (let avgGrowth :=
     JS.div (inject_Z (sum_growth competitors))
            (inject_Z (Z.of_nat (List.length competitors))) in
   if JS.gt (inject_Z (Growth.followersPerMonth (growth fastestGrowing)))
            (JS.mul avgGrowth 2)
   then
     [ Insight.mk growth_outlier
         (GrowingTwiceAverage (username fastestGrowing)
            (Growth.followersPerMonth (growth fastestGrowing)))
         info
         (Some "Growth extrapolation assumes linear trend - algorithm changes or viral moments can significantly alter this") ]
   else [])
  ++
  (* Strategy diversity *)
  (let strategies :=
     JS.Set_of PostingStrategy_eqb
       (map (fun c : Ranked =>
               ContentStrategy.postingStrategy (contentStrategy c))
            competitors) in
   if Nat.eqb (List.length strategies) 1 then
     [ Insight.mk strategy_uniformity
         (SimilarPostingStrategy (hd_error strategies))
         opportunity None ]
   else []).

(** ** Landscape analysis *)

Module Summary.
Record t := mk {
  totalCreators : Z;
  totalFollowers : Z;
  totalLikes : Z;
  avgFollowers : Z;
  avgEngagement : Q
}.
End Summary.

Module ByFollowers.
Record t := mk { username : string; followers : Z; rank : Z }.
End ByFollowers.

Module ByEngagement.
Record t := mk { username : string; engagementRate : Q; rank : Z }.
End ByEngagement.

Module ByGrowth.
Record t := mk { username : string; growthPerMonth : Z; rank : Z }.
End ByGrowth.

Module Rankings.
Record t := mk {
  byFollowers : list ByFollowers.t;
  byEngagement : list ByEngagement.t;
  byGrowth : list ByGrowth.t
}.
End Rankings.

Module MarketLeader.
Record t := mk { username : string; followers : Z; marketShare : Q }.
End MarketLeader.

Module Challenger.
Record t := mk { username : string; followers : Z; gap : Z }.
End Challenger.

Module FastestGrowing.
Record t := mk { username : string; growthPerMonth : Z }.
End FastestGrowing.

Module HighestEngagement.
Record t := mk { username : string; engagementRate : Q }.
End HighestEngagement.

Module Highlights.
Record t := mk {
  marketLeader : MarketLeader.t;
  challenger : Challenger.t;
  fastestGrowing : FastestGrowing.t;
  highestEngagement : HighestEngagement.t
}.
End Highlights.

Module Landscape.
Record t := mk {
  summary : Summary.t;
  rankings : Rankings.t;
  highlights : Highlights.t;
  competitors : list Ranked;
  insights : list Insight.t
}.
End Landscape.

(** What [analyzeCompetitiveLandscape] returns: the object with the sole
    property [error], or the full analysis. *)
Inductive LandscapeResult :=
| ErrorResult (error : string)
| LandscapeOk (landscape : Landscape.t).

(** Callbacks that receive the element and its index. *)
Fixpoint mapi_from {A B} (f : A -> Z -> B) (i : Z) (l : list A) : list B :=
  match l with
  | [] => []
  | x :: l' => f x i :: mapi_from f (i + 1) l'
  end.

Definition mapi {A B} (f : A -> Z -> B) (l : list A) : list B :=
  mapi_from f 0 l.

(** The elements of the input array as objects.  Reading a property of an
    element that is [undefined] raises a TypeError; the first such read is
    in the reduce that sums the followers. *)
Fixpoint objects (creators : list (option Creator.t))
  : JS.result (list Creator.t) :=
  match creators with
  | [] => JS.ret []
  | None :: _ =>
      JS.throw (JS.TypeError
        "Cannot read properties of undefined (reading 'followers')")
  | Some c :: rest => cs <- objects rest ;; JS.ret (c :: cs)
  end.

(** The two totals.  The sums are exact; the binary64 sums of the source
    are the same numbers as long as the absolute values of the counts add
    up to less than 2^53, and the statements that relate a total to the
    counts of the input are made for such counts. *)
Definition sum_followers (creators : list Creator.t) : Z :=
  fold_left (fun sum c => sum + JS.or_default (Creator.followers c) 0)
            creators 0.

Definition sum_likes (creators : list Creator.t) : Z :=
  fold_left (fun sum c => sum + JS.or_default (Creator.likes c) 0)
            creators 0.

(** The callback of [creators.map] in [analyzeCompetitiveLandscape].  The
    callback first runs [validateCreatorForAnalysis] and logs a warning when
    the profile is not valid; the log does not enter the result. *)
Definition competitorAnalysis_of (totalFollowers totalLikes : Z)
  (creator : Creator.t) : CompetitorAnalysis :=
  let followers := JS.or_default (Creator.followers creator) 0 in
  let likes := JS.or_default (Creator.likes creator) 0 in
  let engagementRate := JS.or_defaultQ (Creator.engagementRate creator) 0 in
  let videos := JS.or_default (Creator.videos creator) 0 in
  let accountAgeDays := JS.or_default (Creator.accountAgeDays creator) 365 in
  {| username := Creator.username creator;
     nickname := Creator.nickname creator;
     verified := Creator.verified creator;
     metrics :=
       {| Metrics.followers := followers;
          Metrics.likes := likes;
          Metrics.videos := videos;
          Metrics.engagementRate :=
            (inject_Z (JS.Math_round (engagementRate * 100)) / 100)%Q;
          Metrics.accountAgeDays := accountAgeDays |};
     marketShare :=
       {| MarketShare.followers :=
            if 0 <? totalFollowers then
              (inject_Z (JS.Math_round
                 (inject_Z followers / inject_Z totalFollowers * 10000))
               / 100)%Q
            else 0%Q;
          MarketShare.likes :=
            if 0 <? totalLikes then
              (inject_Z (JS.Math_round
                 (inject_Z likes / inject_Z totalLikes * 10000))
               / 100)%Q
            else 0%Q |};
     growth :=
       {| Growth.followersPerDay :=
            JS.Math_round (inject_Z followers / inject_Z accountAgeDays);
          Growth.followersPerMonth :=
            JS.Math_round
              (inject_Z followers / inject_Z accountAgeDays * 30);
          Growth.videosPerMonth :=
            (inject_Z (JS.Math_round
               (inject_Z videos / inject_Z accountAgeDays * 30 * 10))
             / 10)%Q |};
     contentStrategy := analyzeContentStrategy creator;
     tier := getTier followers |}.

(** The three comparators handed to [sort]. *)
Definition by_followers (a b : CompetitorAnalysis) : Q :=
  inject_Z (Metrics.followers (metrics b) - Metrics.followers (metrics a)).

Definition by_growth (a b : Ranked) : Q :=
  inject_Z (Growth.followersPerMonth (growth b)
            - Growth.followersPerMonth (growth a)).

Definition by_engagement (a b : Ranked) : Q :=
  (Metrics.engagementRate (metrics b)
   - Metrics.engagementRate (metrics a))%Q.

Definition sum_engagement (competitors : list Ranked) : Q :=
  fold_left (fun sum (c : Ranked) =>
               (sum + Metrics.engagementRate (metrics c))%Q)
            competitors 0%Q.

Definition analyzeCompetitiveLandscape (creators : list (option Creator.t))
  : JS.result LandscapeResult :=
  if Z.of_nat (List.length creators) <? 2 then
    JS.ret (ErrorResult "Need at least 2 creators for competitive analysis")
  else
    profiles <- objects creators ;;
    (* Calculate market metrics *)
    let totalFollowers := sum_followers profiles in
    let totalLikes := sum_likes profiles in
    (* Build individual analyses, sort by followers, add rankings *)
    let competitorAnalysis :=
      mapi (fun c i => mkRanked c (i + 1))
        (JS.sort by_followers
           (map (competitorAnalysis_of totalFollowers totalLikes)
                profiles)) in
    let count := Z.of_nat (List.length creators) in
    match competitorAnalysis,
          JS.sort by_growth competitorAnalysis,
          JS.sort by_engagement competitorAnalysis with
    | leader :: challenger :: _, fastestGrowing :: _, highestEngagement :: _ =>
        let insights :=
          generateInsights competitorAnalysis leader (Some challenger)
            fastestGrowing highestEngagement in
        JS.ret (LandscapeOk
          {| Landscape.summary :=
               {| Summary.totalCreators := count;
                  Summary.totalFollowers := totalFollowers;
                  Summary.totalLikes := totalLikes;
                  Summary.avgFollowers :=
                    JS.Math_round (inject_Z totalFollowers / inject_Z count);
                  Summary.avgEngagement :=
                    (inject_Z (JS.Math_round
                       (sum_engagement competitorAnalysis
                        / inject_Z count * 100)) / 100)%Q |};
             Landscape.rankings :=
               {| Rankings.byFollowers :=
                    map (fun c : Ranked =>
                           ByFollowers.mk (username c)
                             (Metrics.followers (metrics c)) (rank c))
                        competitorAnalysis;
                  Rankings.byEngagement :=
                    mapi (fun (c : Ranked) i =>
                            ByEngagement.mk (username c)
                              (Metrics.engagementRate (metrics c)) (i + 1))
                         (JS.sort by_engagement competitorAnalysis);
                  Rankings.byGrowth :=
                    mapi (fun (c : Ranked) i =>
                            ByGrowth.mk (username c)
                              (Growth.followersPerMonth (growth c)) (i + 1))
                         (JS.sort by_growth competitorAnalysis) |};
             Landscape.highlights :=
               {| Highlights.marketLeader :=
                    MarketLeader.mk (username leader)
                      (Metrics.followers (metrics leader))
                      (MarketShare.followers (marketShare leader));
                  Highlights.challenger :=
                    Challenger.mk (username challenger)
                      (Metrics.followers (metrics challenger))
                      (Metrics.followers (metrics leader)
                       - Metrics.followers (metrics challenger));
                  Highlights.fastestGrowing :=
                    FastestGrowing.mk (username fastestGrowing)
                      (Growth.followersPerMonth (growth fastestGrowing));
                  Highlights.highestEngagement :=
                    HighestEngagement.mk (username highestEngagement)
                      (Metrics.engagementRate (metrics highestEngagement))
               |};
             Landscape.competitors := competitorAnalysis;
             Landscape.insights := insights |})
    | _, _, _ =>
        JS.throw (JS.TypeError "Cannot read properties of undefined")
    end.

(** ** Benchmark *)

Inductive Category := Engagement | ContentVolume | GrowthRule | Credibility.

Inductive Priority := high | medium | low.

(** The action templates of [generateBenchmarkRecommendations]. *)
Inductive Action :=
| ImproveEngagement (rate : Q) (competitorAverage : JS.number)
| MaintainEngagement (rate : Q) (competitorAverage : JS.number)
| IncreasePostingFrequency (videosPerMonth : Q) (target : JS.number)
| MaintainGrowthVelocity (monthsToLeader : Z)
| IncreaseGrowthRate (gapInMillions : Q)
| PursueVerification.

Inductive Impact :=
| ImpactText (text : string)
| CurrentGrowth (target leader : Z).

Module Recommendation.
Record t := mk {
  category : Category;
  priority : Priority;
  action : Action;
  impact : Impact;
  disclaimer : option string
}.
End Recommendation.

Definition sum_videosPerMonth (competitors : list Ranked) : Q :=
  fold_left (fun sum (c : Ranked) =>
               (sum + Growth.videosPerMonth (growth c))%Q)
            competitors 0%Q.

(** [generateBenchmarkRecommendations].  The two competitor averages are
    computed exactly, where the source accumulates binary64 sums: for a rate
    within rounding distance of an average the source can choose the other
    Engagement recommendation, or differ in the presence of the Content
    Volume one.  No statement below depends on that choice for a finite
    average. *)
Definition generateBenchmarkRecommendations (target : Ranked)
  (competitors : list Ranked) (leader : Ranked) : list Recommendation.t :=
  let count := inject_Z (Z.of_nat (List.length competitors)) in
  (* Engagement recommendation *)
  (let avgCompetitorEngagement := JS.div (sum_engagement competitors) count in
   if JS.lt (Metrics.engagementRate (metrics target)) avgCompetitorEngagement
   then
     [ Recommendation.mk Engagement high
         (ImproveEngagement (Metrics.engagementRate (metrics target))
                            avgCompetitorEngagement)
         (ImpactText "Better algorithm visibility and sponsorship rates")
         None ]
   else
     [ Recommendation.mk Engagement low
         (MaintainEngagement (Metrics.engagementRate (metrics target))
                             avgCompetitorEngagement)
         (ImpactText "Key competitive advantage")
         None ])
  ++
  (* Posting frequency *)
  (let avgPostingFreq := JS.div (sum_videosPerMonth competitors) count in
   if JS.lt (Growth.videosPerMonth (growth target))
            (JS.mul avgPostingFreq (7 # 10))
   then
     [ Recommendation.mk ContentVolume medium
         (IncreasePostingFrequency (Growth.videosPerMonth (growth target))
                                   (JS.round avgPostingFreq))
         (ImpactText "Match competitor content output")
         None ]
   else [])
  ++
  (* Growth velocity and time to leader *)
  (if negb (String.eqb (username target) (username leader)) then
     let followerGap :=
       Metrics.followers (metrics leader)
       - Metrics.followers (metrics target) in
     let growthDifference :=
       Growth.followersPerMonth (growth target)
       - Growth.followersPerMonth (growth leader) in
     let '(monthsToLeader, canOvertake) :=
       if 100 <? growthDifference then
         (Some (Z.min (JS.Math_round
                         (inject_Z followerGap / inject_Z growthDifference))
                      24),
          true)
       else (None, false) in
     match canOvertake, monthsToLeader with
     | true, Some months =>
         [ Recommendation.mk GrowthRule low
             (MaintainGrowthVelocity months)
             (ImpactText
                "Market leadership potential (if growth trend continues)")
             (Some "Assumes linear growth - algorithm changes or viral moments can alter timeline") ]
     | _, _ =>
         [ Recommendation.mk GrowthRule high
             (IncreaseGrowthRate
                (inject_Z (JS.Math_round
                   (inject_Z followerGap / 1000000 * 10)) / 10)%Q)
             (CurrentGrowth (Growth.followersPerMonth (growth target))
                            (Growth.followersPerMonth (growth leader)))
             (Some "Growth projections assume linear extrapolation - platform dynamics may vary significantly") ]
     end
   else [])
  ++
  (* Verification *)
  (if negb (JS.truthy (verified target))
      && existsb (fun c : Ranked => JS.truthy (verified c)) competitors
   then
     [ Recommendation.mk Credibility medium PursueVerification
         (ImpactText "Match verified competitors for brand trust")
         None ]
   else []).

Module Benchmark.
Record t := mk {
  rank : Z;
  percentile : Z;
  total : Z;
  label : string
}.
End Benchmark.

Module Benchmarks.
Record t := mk {
  followers : Benchmark.t;
  engagement : Benchmark.t;
  growth : Benchmark.t
}.
End Benchmarks.

Module Gap.
Record t := mk {
  followers : Z;
  percentage : JS.number;
  disclaimer : string
}.
End Gap.

Module BenchmarkResult.
Record t := mk {
  target : Ranked;
  benchmarks : Benchmarks.t;
  gapToLeader : option Gap.t;
  isLeader : bool;
  competitorCount : Z;
  landscape : Summary.t;
  recommendations : list Recommendation.t
}.
End BenchmarkResult.

(** [Math.round((1 - (rank - 1) / allCreators.length) * 100)], the
    expression behind each of the three percentiles.  Where it is reached
    the length is at least 2 and the rank lies between 1 and the length;
    both are whole numbers below 2^32, so [rank - 1] is exact.  The
    quotient, the difference and the product are each rounded to binary64,
    and [Math.round] is exact on the product. *)
Definition percentile_of (rank total : Z) : Z :=
  JS.Math_round
    (Binary64.fl
       (Binary64.fl
          (1 - Binary64.fl (inject_Z (rank - 1) / inject_Z total)) * 100)).

(** The predicate [c => c.username === target.username]. *)
Definition same_username (target : Creator.t) (c : Ranked) : bool :=
  String.eqb (username c) (Creator.username target).

(** [benchmarkCreator].  The local [gapToLeader] of the source holds 0 when
    the leader carries the target's username and the gap object otherwise;
    the returned property repeats the same test and yields [null] in the
    first case, so the model builds the object only in the second. *)
Definition benchmarkCreator (target : option Creator.t)
  (competitors : list Creator.t) : JS.result BenchmarkResult.t :=
  let allCreators := target :: map Some competitors in
  landscape <- analyzeCompetitiveLandscape allCreators ;;
  match landscape with
  | ErrorResult _ =>
      JS.throw (JS.TypeError
        "Cannot read properties of undefined (reading 'find')")
  | LandscapeOk landscape =>
  match target with
  | None =>
      JS.throw (JS.TypeError
        "Cannot read properties of undefined (reading 'username')")
  | Some target =>
  (* Find target in analysis *)
  match find (same_username target) (Landscape.competitors landscape) with
  | None =>
      JS.throw (JS.TypeError
        "Cannot read properties of undefined (reading 'rank')")
  | Some targetAnalysis =>
  let competitorAnalyses :=
    filter (fun c => negb (same_username target c))
           (Landscape.competitors landscape) in
  let total := Z.of_nat (List.length allCreators) in
  (* Calculate percentiles *)
  let followerRank := rank targetAnalysis in
  let followerPercentile := percentile_of followerRank total in
  let engagementRanks :=
    JS.sort by_engagement (Landscape.competitors landscape) in
  let engagementRank :=
    JS.findIndex (same_username target) engagementRanks + 1 in
  let engagementPercentile := percentile_of engagementRank total in
  let growthRanks :=
    JS.sort by_growth (Landscape.competitors landscape) in
  let growthRank := JS.findIndex (same_username target) growthRanks + 1 in
  let growthPercentile := percentile_of growthRank total in
  (* Calculate gaps to leader *)
  match Landscape.competitors landscape with
  | [] =>
      JS.throw (JS.TypeError
        "Cannot read properties of undefined (reading 'username')")
  | leader :: _ =>
  let isLeader := String.eqb (username leader) (Creator.username target) in
  let gapToLeader :=
    if isLeader then None
    else
      let gap :=
        Metrics.followers (metrics leader)
        - Metrics.followers (metrics targetAnalysis) in
      Some {| Gap.followers := gap;
              Gap.percentage :=
                JS.round
                  (Binary64.mul
                     (Binary64.div (inject_Z gap)
                        (inject_Z (Metrics.followers (metrics leader))))
                     100);
              Gap.disclaimer :=
                "Gap based on current follower count - actual market reach differs based on engagement and algorithm" |} in
  (* Generate recommendations *)
  let recommendations :=
    generateBenchmarkRecommendations targetAnalysis competitorAnalyses
      leader in
  JS.ret
    {| BenchmarkResult.target := targetAnalysis;
       BenchmarkResult.benchmarks :=
         {| Benchmarks.followers :=
              Benchmark.mk followerRank followerPercentile total
                (getPercentileLabel followerPercentile);
            Benchmarks.engagement :=
              Benchmark.mk engagementRank engagementPercentile total
                (getPercentileLabel engagementPercentile);
            Benchmarks.growth :=
              Benchmark.mk growthRank growthPercentile total
                (getPercentileLabel growthPercentile) |};
       BenchmarkResult.gapToLeader := gapToLeader;
       BenchmarkResult.isLeader := isLeader;
       BenchmarkResult.competitorCount := Z.of_nat (List.length competitors);
       BenchmarkResult.landscape := Landscape.summary landscape;
       BenchmarkResult.recommendations := recommendations |}
  end end end end.

(** ** The benchmark branch of the entry script

    The branch up to its call [benchmarkCreator(targetProfile,
    competitorProfiles)]: [benchmarkMode] returns the two arguments of the
    call.  [allProfiles] is what the profile fetch returned, or the
    [profiles] input when fetching is disabled; the fetch itself is outside
    the model.  The username lists and the profile list are arrays, as the
    README shows them; the script checks neither what the profile array
    holds nor the kind of the target username, so both are modelled as
    values of any kind.  A profile object carries a string username, as in
    the analyzer; an element without one is kept apart ([NoUsername]). *)

(** The input property [targetUsername]. *)
Inductive TargetUsername :=
| NoTarget                       (* undefined, null, or a falsy value that is
                                    not a string *)
| TargetName (name : string)
| TargetOther (shown : string).  (* a truthy value that is not a string;
                                    [shown] is its text in a template *)

(** An element of [allProfiles], by what the callbacks of [find] and
    [filter] read of it. *)
Inductive RawProfile :=
| NotAnObject                    (* null or undefined *)
| NoUsername                     (* a value whose username is undefined or
                                    null *)
| BadUsername                    (* a username that is neither a string nor
                                    undefined or null *)
| Profile (c : Creator.t).

Section EntryScript.
Variable toLowerCase : string -> string.

(** [targetUsername.toLowerCase()]. *)
Definition lowered_target (targetUsername : TargetUsername)
  : JS.result string :=
  match targetUsername with
  | TargetName name => JS.ret (toLowerCase name)
  | _ => JS.throw (JS.TypeError "targetUsername.toLowerCase is not a function")
  end.

(** [p.username?.toLowerCase() === targetUsername.toLowerCase()], the left
    side first.  The result is the profile when the test holds. *)
Definition matches_target (targetUsername : TargetUsername) (p : RawProfile)
  : JS.result (option Creator.t) :=
  match p with
  | NotAnObject =>
      JS.throw (JS.TypeError
        "Cannot read properties of null (reading 'username')")
  | BadUsername =>
      JS.throw (JS.TypeError "p.username?.toLowerCase is not a function")
  | NoUsername => _ <- lowered_target targetUsername ;; JS.ret None
  | Profile c =>
      t <- lowered_target targetUsername ;;
      JS.ret (if String.eqb (toLowerCase (Creator.username c)) t
              then Some c else None)
  end.

(** [allProfiles.find(..)] stops at the first match; [allProfiles.filter(..)]
    calls its callback on every element. *)
Fixpoint find_target (targetUsername : TargetUsername)
  (l : list RawProfile) : JS.result (option Creator.t) :=
  match l with
  | [] => JS.ret None
  | p :: l' =>
      m <- matches_target targetUsername p ;;
      match m with
      | Some c => JS.ret (Some c)
      | None => find_target targetUsername l'
      end
  end.

Fixpoint filter_competitors (targetUsername : TargetUsername)
  (l : list RawProfile) : JS.result (list RawProfile) :=
  match l with
  | [] => JS.ret []
  | p :: l' =>
      m <- matches_target targetUsername p ;;
      rest <- filter_competitors targetUsername l' ;;
      JS.ret (match m with Some _ => rest | None => p :: rest end)
  end.

(** The text of the target username in a template literal. *)
Definition shown_target (targetUsername : TargetUsername) : string :=
  match targetUsername with
  | NoTarget => EmptyString
  | TargetName name => name
  | TargetOther shown => shown
  end.

(** Find target and competitors, and the two checks that follow. *)
Definition select_profiles (targetUsername : TargetUsername)
  (allProfiles : list RawProfile) : JS.result (Creator.t * list RawProfile) :=
  targetProfile <- find_target targetUsername allProfiles ;;
  competitorProfiles <- filter_competitors targetUsername allProfiles ;;
  match targetProfile with
  | None =>
      JS.throw (JS.Error
        (String.append "Could not find target profile: @"
                       (shown_target targetUsername)))
  | Some targetProfile =>
      if Nat.eqb (List.length competitorProfiles) 0 then
        JS.throw (JS.Error "No competitor profiles found")
      else JS.ret (targetProfile, competitorProfiles)
  end.

Definition benchmarkMode (targetUsername : TargetUsername)
  (competitorUsernames : list string) (allProfiles : list RawProfile)
  : JS.result (Creator.t * list RawProfile) :=
  let falsy :=
    match targetUsername with
    | NoTarget => true
    | TargetName name => String.eqb name EmptyString
    | TargetOther _ => false
    end in
  if falsy then
    JS.throw (JS.Error "Benchmark mode requires targetUsername")
  else if Nat.eqb (List.length competitorUsernames) 0 then
    JS.throw (JS.Error "Benchmark mode requires at least one competitor")
  else select_profiles targetUsername allProfiles.

End EntryScript.

(** ** Vocabulary of the statements *)

(** The analyses of a list of profiles before they are sorted, and the
    ranked list the landscape is built from. *)
Definition analyses (profiles : list Creator.t) : list CompetitorAnalysis :=
  map (competitorAnalysis_of (sum_followers profiles) (sum_likes profiles))
      profiles.

Definition ranked (profiles : list Creator.t) : list Ranked :=
  mapi (fun c i => mkRanked c (i + 1)) (JS.sort by_followers (analyses profiles)).

(** Descending order of the keys, the order a comparator [b.k - a.k]
    asks for. *)
Definition descending {A} (key : A -> Q) (a b : A) : Prop :=
  (key b <= key a)%Q.


Definition Zsum (l : list Z) : Z := fold_right Z.add 0 l.

(** A failure that the code raises on purpose, with [throw new Error]. *)
Definition explicit_failure {A} (r : JS.result A) : Prop :=
  exists message, r = JS.throw (JS.Error message).




(** Sample profiles used by the concrete runs. *)
Definition profile (name : string) (followers : Z) : Creator.t :=
  {| Creator.username := name;
     Creator.nickname := None;
     Creator.verified := None;
     Creator.followers := Some followers;
     Creator.likes := None;
     Creator.videos := None;
     Creator.engagementRate := None;
     Creator.accountAgeDays := None;
     Creator.bioLink := None;
     Creator.commerceUser := None;
     Creator.ttSeller := None |}.

Definition with_age (p : Creator.t) (age : option Z) : Creator.t :=
  {| Creator.username := Creator.username p;
     Creator.nickname := Creator.nickname p;
     Creator.verified := Creator.verified p;
     Creator.followers := Creator.followers p;
     Creator.likes := Creator.likes p;
     Creator.videos := Creator.videos p;
     Creator.engagementRate := Creator.engagementRate p;
     Creator.accountAgeDays := age;
     Creator.bioLink := Creator.bioLink p;
     Creator.commerceUser := Creator.commerceUser p;
     Creator.ttSeller := Creator.ttSeller p |}.

(** ** The landscape branch of the entry script

    [fetched] is what the profile fetch returned for [tiktokUsernames]; the
    fetch itself is outside the model.  The username list and the two
    profile lists are arrays.  The chosen list goes to the analyzer as it
    is, unchecked: an element is [None] when it is null or undefined, and a
    profile object otherwise.  After the analysis the script reads
    [landscape.summary.totalCreators], which raises a TypeError on the error
    object. *)
Definition landscapeMode (tiktokUsernames : list string)
  (profiles : list (option Creator.t)) (fetchProfiles : bool)
  (fetched : list (option Creator.t)) : JS.result Landscape.t :=
  let allUsernames := tiktokUsernames in
  if (Nat.ltb (List.length allUsernames) 2)
     && (Nat.ltb (List.length profiles) 2)
  then JS.throw (JS.Error "Landscape mode requires at least 2 creators")
  else
    let allProfiles :=
      if fetchProfiles && Nat.ltb 0 (List.length allUsernames)
      then fetched else profiles in
    if Nat.ltb (List.length allProfiles) 2 then
      JS.throw (JS.Error
        "Need at least 2 valid profiles for landscape analysis")
    else
      landscape <- analyzeCompetitiveLandscape allProfiles ;;
      match landscape with
      | ErrorResult _ =>
          JS.throw (JS.TypeError
            "Cannot read properties of undefined (reading 'totalCreators')")
      | LandscapeOk landscape => JS.ret landscape
      end.

(** ** The earlier variant of the recommendations

    The second copy of the analyzer differs in the Growth rule: it has no
    threshold on the growth difference, bounds the divisor from below by
    1000, does not cap the months, and attaches no disclaimer.  The function
    reads only the username, the verification flag, the metrics and the
    growth of its arguments. *)
Module Legacy.

Inductive Action :=
| ImproveEngagement (rate : Q) (competitorAverage : JS.number)
| MaintainEngagement (rate : Q) (competitorAverage : JS.number)
| IncreasePostingFrequency (videosPerMonth : Q) (target : JS.number)
| MaintainGrowthVelocity (monthsToLeader : Z)
| IncreaseGrowthRate
| PursueVerification.

Inductive Impact :=
| ImpactText (text : string)
| FollowersBehind (millions : Q).

Record Recommendation := mk {
  category : Category;
  priority : Priority;
  action : Action;
  impact : Impact
}.

Definition generateBenchmarkRecommendations (target : Ranked)
  (competitors : list Ranked) (leader : Ranked) : list Recommendation :=
  let count := inject_Z (Z.of_nat (List.length competitors)) in
  (* Engagement recommendation *)
  (let avgCompetitorEngagement := JS.div (sum_engagement competitors) count in
   if JS.lt (Metrics.engagementRate (metrics target)) avgCompetitorEngagement
   then
     [ mk Engagement high
         (ImproveEngagement (Metrics.engagementRate (metrics target))
                            avgCompetitorEngagement)
         (ImpactText "Better algorithm visibility and sponsorship rates") ]
   else
     [ mk Engagement low
         (MaintainEngagement (Metrics.engagementRate (metrics target))
                             avgCompetitorEngagement)
         (ImpactText "Key competitive advantage") ])
  ++
  (* Posting frequency *)
  (let avgPostingFreq := JS.div (sum_videosPerMonth competitors) count in
   if JS.lt (Growth.videosPerMonth (growth target))
            (JS.mul avgPostingFreq (7 # 10))
   then
     [ mk ContentVolume medium
         (IncreasePostingFrequency (Growth.videosPerMonth (growth target))
                                   (JS.round avgPostingFreq))
         (ImpactText "Match competitor content output") ]
   else [])
  ++
  (* Growth velocity *)
  (if negb (String.eqb (username target) (username leader)) then
     let monthsToLeader :=
       JS.Math_round
         (inject_Z (Metrics.followers (metrics leader)
                    - Metrics.followers (metrics target))
          / inject_Z (Z.max (Growth.followersPerMonth (growth target)
                             - Growth.followersPerMonth (growth leader))
                            1000)) in
     if Growth.followersPerMonth (growth leader)
        <? Growth.followersPerMonth (growth target)
     then
       [ mk GrowthRule low (MaintainGrowthVelocity monthsToLeader)
            (ImpactText "Market leadership potential") ]
     else
       [ mk GrowthRule high IncreaseGrowthRate
            (FollowersBehind
               (inject_Z (Metrics.followers (metrics leader)
                          - Metrics.followers (metrics target))
                / 1000000)%Q) ]
   else [])
  ++
  (* Verification *)
  (if negb (JS.truthy (verified target))
      && existsb (fun c : Ranked => JS.truthy (verified c)) competitors
   then
     [ mk Credibility medium PursueVerification
          (ImpactText "Match verified competitors for brand trust") ]
   else []).

End Legacy.

(** ** Further vocabulary *)

(** The tiers from the smallest to the largest audience. *)
Definition tier_level (t : Tier) : Z :=
  match t with
  | nano => 0
  | micro => 1
  | mid_tier => 2
  | macro => 3
  | mega => 4
  end.

(** Position of a recommendation in the order in which the rules are
    written. *)
Definition category_position (c : Category) : Z :=
  match c with
  | Engagement => 1
  | ContentVolume => 2
  | GrowthRule => 3
  | Credibility => 4
  end.

(** A profile with all its properties given. *)
Definition full_profile (name : string) (followers likes videos : Z)
  (engagementRate : Q) (age : Z) (isVerified : bool) : Creator.t :=
  {| Creator.username := name;
     Creator.nickname := None;
     Creator.verified := Some isVerified;
     Creator.followers := Some followers;
     Creator.likes := Some likes;
     Creator.videos := Some videos;
     Creator.engagementRate := Some engagementRate;
     Creator.accountAgeDays := Some age;
     Creator.bioLink := None;
     Creator.commerceUser := None;
     Creator.ttSeller := None |}.

(** The follower and like counts that the analyzer reads from a profile:
    [creator.followers || 0] and [creator.likes || 0]. *)
Definition followers_of (p : Creator.t) : Z :=
  JS.or_default (Creator.followers p) 0.

Definition likes_of (p : Creator.t) : Z :=
  JS.or_default (Creator.likes p) 0.

(** [counts.reduce((sum, x) => sum + x, 0)] as the source accumulates it,
    every addition rounded to binary64. *)
Definition sum_binary64 (counts : list Z) : Q :=
  fold_left (fun sum x => Binary64.fl (sum + inject_Z x)) counts 0%Q.

(** Counts whose absolute values add up to less than 2^52.  Every partial
    sum of such counts is a whole number that binary64 holds exactly, and
    so is every half-integer between them, which is what [Math.round] of
    their mean depends on. *)
Definition safe_counts (counts : list Z) : Prop :=
  Zsum (map Z.abs counts) < 2 ^ 52.

(** An element of [allProfiles] on which the callbacks of the benchmark
    branch read the username without a TypeError. *)
Definition readable (p : RawProfile) : bool :=
  match p with
  | NotAnObject | BadUsername => false
  | NoUsername | Profile _ => true
  end.

(** The element is a profile whose lowered username is the lowered
    [name]. *)
Definition carries (toLowerCase : string -> string) (name : string)
  (p : RawProfile) : bool :=
  match p with
  | Profile c =>
      String.eqb (toLowerCase (Creator.username c)) (toLowerCase name)
  | _ => false
  end.

(** The percentile as the design document words it, with exact
    arithmetic: round((1 - (rank - 1) / totalCount) * 100). *)
Definition percentile_exact (rank total : Z) : Z :=
  JS.Math_round ((1 - inject_Z (rank - 1) / inject_Z total) * 100).

(** [c] stands before [x] in a stable descending sort by [key] of a list
    whose elements are in increasing order of [pos]: its key is larger, or
    the keys are equal and it comes first in the list. *)
Definition placed_before {A} (key : A -> Q) (pos : A -> Z) (c x : A) : bool :=
  JS.Qltb (key x) (key c) || (Qeq_bool (key c) (key x) && (pos c <? pos x)).

(** The two keys of the fresh sorts of benchmarkCreator. *)
Definition engagement_key (c : Ranked) : Q :=
  Metrics.engagementRate (metrics c).

Definition growth_key (c : Ranked) : Q :=
  inject_Z (Growth.followersPerMonth (growth c)).

(** The value of a finite binary64 number, and the percentile expression
    evaluated with the primitive binary64 operations. *)
Definition SF2Q (x : SpecFloat.spec_float) : option Q :=
  match x with
  | SpecFloat.S754_zero _ => Some 0%Q
  | SpecFloat.S754_finite s m e =>
      Some ((if s then - inject_Z (Zpos m) else inject_Z (Zpos m))
            * Binary64.pow2 e)%Q
  | _ => None
  end.

Definition float_of_Z (z : Z) : PrimFloat.float :=
  PrimFloat.of_uint63 (Uint63.of_Z z).

Definition percentile_primitive (rank total : Z) : option Z :=
  option_map JS.Math_round
    (SF2Q (FloatOps.Prim2SF
       (PrimFloat.mul
          (PrimFloat.sub (float_of_Z 1)
             (PrimFloat.div (float_of_Z (rank - 1)) (float_of_Z total)))
          (float_of_Z 100)))).

(** A target with 23 followers among competitors with 1, ..., 22 and
    24, ..., 40 followers: rank 18 of 40. *)
Definition forty_competitors : list Creator.t :=
  map (fun k => profile "c" (Z.of_nat k)) (seq 1 22 ++ seq 24 17).

(** * Properties *)

(** ** Concrete runs *)

Example scenario_1_landscape :
  exists L,
    analyzeCompetitiveLandscape
      [ Some (Creator.mk "a" None None (Some 1000000) (Some 50000) (Some 100)
                (Some 5%Q) (Some 365) None None None);
        Some (Creator.mk "b" None None (Some 500000) (Some 40000) (Some 50)
                (Some 8%Q) (Some 365) None None None) ]
    = JS.ret (LandscapeOk L)
    /\ Summary.totalFollowers (Landscape.summary L) = 1500000
    /\ MarketLeader.username (Highlights.marketLeader (Landscape.highlights L))
       = "a"
    /\ HighestEngagement.username
         (Highlights.highestEngagement (Landscape.highlights L)) = "b".
Proof. eexists. split; [ vm_compute; reflexivity | repeat split ]. Qed.

Example scenario_2_single_profile :
  analyzeCompetitiveLandscape [ Some (profile "a" 10) ]
  = JS.ret (ErrorResult "Need at least 2 creators for competitive analysis").
Proof. reflexivity. Qed.

(** ** Rounding *)

Lemma Math_round_upper (x : Q) : (inject_Z (JS.Math_round x) <= x + (1 # 2))%Q.
Proof. unfold JS.Math_round. apply Qfloor_le. Qed.

Lemma Math_round_lower (x : Q) : (x - (1 # 2) < inject_Z (JS.Math_round x))%Q.
Proof.
  unfold JS.Math_round.
  pose proof (Qlt_floor (x + (1 # 2))) as H.
  rewrite inject_Z_plus in H.
  change (inject_Z 1) with 1%Q in H. lra.
Qed.

(** A value within half a unit of an integer rounds to it. *)
Lemma Math_round_unique (x : Q) (z : Z) :
  (inject_Z z - (1 # 2) <= x)%Q -> (x < inject_Z z + (1 # 2))%Q ->
  JS.Math_round x = z.
Proof.
  intros Hlo Hhi.
  pose proof (Math_round_upper x) as Hu.
  pose proof (Math_round_lower x) as Hl.
  assert (H1 : (inject_Z (JS.Math_round x) < inject_Z (z + 1))%Q).
  { rewrite inject_Z_plus. change (inject_Z 1) with 1%Q. lra. }
  assert (H2 : (inject_Z (z - 1) < inject_Z (JS.Math_round x))%Q).
  { unfold Z.sub. rewrite inject_Z_plus. change (inject_Z (- (1))) with (-1)%Q. lra. }
  rewrite <- Zlt_Qlt in H1, H2. lia.
Qed.

Lemma Math_round_inject (z : Z) : JS.Math_round (inject_Z z) = z.
Proof. apply Math_round_unique; lra. Qed.

Lemma Math_round_comp (x y : Q) :
  (x == y)%Q -> JS.Math_round x = JS.Math_round y.
Proof.
  intros E. unfold JS.Math_round. apply Qfloor_comp. now rewrite E.
Qed.

Lemma Math_round_monotone (x y : Q) :
  (x <= y)%Q -> JS.Math_round x <= JS.Math_round y.
Proof.
  intros H. unfold JS.Math_round. apply Qfloor_resp_le. lra.
Qed.

(** ** Binary64 rounding *)

Lemma pow2_pos (k : Z) : (0 < Binary64.pow2 k)%Q.
Proof. apply Qpower_0_lt. reflexivity. Qed.

Lemma pow2_add (a b : Z) :
  (Binary64.pow2 (a + b) == Binary64.pow2 a * Binary64.pow2 b)%Q.
Proof. apply Qpower_plus. discriminate. Qed.

Lemma pow2_le (a b : Z) :
  a <= b -> (Binary64.pow2 a <= Binary64.pow2 b)%Q.
Proof. intros H. apply Qpower_le_compat_l; [ exact H | discriminate ]. Qed.

Lemma pow2_lt_inv (a b : Z) :
  (Binary64.pow2 a < Binary64.pow2 b)%Q -> a < b.
Proof. intros H. apply (Qpower_lt_compat_l_inv 2); [ exact H | reflexivity ]. Qed.

Lemma pow2_of_Z (a : Z) : 0 <= a -> (inject_Z (2 ^ a) == Binary64.pow2 a)%Q.
Proof. intros H. unfold Binary64.pow2. now rewrite Zpower_Qpower. Qed.

Lemma quotient_lt (p q r s : Z) :
  0 < q -> 0 < s -> p * s < r * q ->
  (inject_Z p / inject_Z q < inject_Z r / inject_Z s)%Q.
Proof.
  intros Hq Hs H.
  destruct q as [ | q | q ]; try lia. destruct s as [ | s | s ]; try lia.
  rewrite <- !Qmake_Qdiv. unfold Qlt. cbn [Qnum Qden]. exact H.
Qed.

Lemma quotient_le (p q r s : Z) :
  0 < q -> 0 < s -> p * s <= r * q ->
  (inject_Z p / inject_Z q <= inject_Z r / inject_Z s)%Q.
Proof.
  intros Hq Hs H.
  destruct q as [ | q | q ]; try lia. destruct s as [ | s | s ]; try lia.
  rewrite <- !Qmake_Qdiv. unfold Qle. cbn [Qnum Qden]. exact H.
Qed.

(** A quotient of whole numbers lies between the powers of two that the
    bit lengths of its terms give. *)
Lemma ilog2_spec (x : Q) :
  (0 < x)%Q ->
  (Binary64.pow2 (Binary64.ilog2 x) <= x)%Q
  /\ (x < Binary64.pow2 (Binary64.ilog2 x + 1))%Q.
Proof.
  intros Hx. destruct x as [ n d ].
  assert (Hn : 0 < n).
  { unfold Qlt in Hx. simpl in Hx. lia. }
  unfold Binary64.ilog2. cbn [Qnum Qden].
  set (a := Z.log2 n). set (b := Z.log2 (Zpos d)).
  destruct (Z.log2_spec n Hn) as [ Ha1 Ha2 ]. fold a in Ha1, Ha2.
  destruct (Z.log2_spec (Zpos d) (Pos2Z.is_pos d)) as [ Hb1 Hb2 ].
  fold b in Hb1, Hb2.
  rewrite <- Z.add_1_r in Ha2, Hb2.
  assert (Ha0 : 0 <= a) by apply Z.log2_nonneg.
  assert (Hb0 : 0 <= b) by apply Z.log2_nonneg.
  assert (Hx' : (n # d == inject_Z n / inject_Z (Zpos d))%Q)
    by apply Qmake_Qdiv.
  assert (Hpow : forall i j, 0 <= i -> 0 <= j ->
            (Binary64.pow2 (i - j) == inject_Z (2 ^ i) / inject_Z (2 ^ j))%Q).
  { intros i j Hi Hj. unfold Binary64.pow2.
    rewrite Qpower_minus by discriminate.
    rewrite !Zpower_Qpower by assumption. reflexivity. }
  assert (P : forall j, 0 <= j -> 0 < 2 ^ j)
    by (intros j Hj; apply Z.pow_pos_nonneg; lia).
  pose proof (P a Ha0). pose proof (P b Hb0).
  pose proof (P (a + 1) ltac:(lia)). pose proof (P (b + 1) ltac:(lia)).
  destruct (Qle_bool (Binary64.pow2 (a - b)) (n # d)) eqn:E.
  - apply Qle_bool_iff in E. split; [ exact E | ].
    replace (a - b + 1) with (a + 1 - b) by lia.
    rewrite Hpow, Hx' by lia.
    apply quotient_lt; nia.
  - assert (E' : (n # d < Binary64.pow2 (a - b))%Q).
    { apply Qnot_le_lt. intros H'. apply Qle_bool_iff in H'. congruence. }
    replace (a - b - 1 + 1) with (a - b) by lia.
    split; [ | exact E' ].
    replace (a - b - 1) with (a - (b + 1)) by lia.
    rewrite Hpow, Hx' by lia.
    apply quotient_le; nia.
Qed.

Lemma ilog2_unique (x : Q) (k : Z) :
  (Binary64.pow2 k <= x)%Q -> (x < Binary64.pow2 (k + 1))%Q ->
  Binary64.ilog2 x = k.
Proof.
  intros H1 H2.
  assert (Hx : (0 < x)%Q)
    by (eapply Qlt_le_trans; [ apply (pow2_pos k) | exact H1 ]).
  destruct (ilog2_spec x Hx) as [ L1 L2 ].
  assert (A : Binary64.ilog2 x < k + 1).
  { apply pow2_lt_inv. eapply Qle_lt_trans; eassumption. }
  assert (B : k < Binary64.ilog2 x + 1).
  { apply pow2_lt_inv. eapply Qle_lt_trans; eassumption. }
  lia.
Qed.

Lemma ilog2_comp (x y : Q) :
  (x == y)%Q -> (0 < x)%Q -> Binary64.ilog2 x = Binary64.ilog2 y.
Proof.
  intros E Hx. symmetry. destruct (ilog2_spec x Hx) as [ L1 L2 ].
  apply ilog2_unique; rewrite <- E; assumption.
Qed.

Lemma ilog2_monotone (x y : Q) :
  (0 < x)%Q -> (x <= y)%Q -> Binary64.ilog2 x <= Binary64.ilog2 y.
Proof.
  intros Hx Hxy.
  assert (Hy : (0 < y)%Q) by (eapply Qlt_le_trans; eassumption).
  destruct (ilog2_spec x Hx) as [ L1 _ ].
  destruct (ilog2_spec y Hy) as [ _ M2 ].
  assert (A : Binary64.ilog2 x < Binary64.ilog2 y + 1).
  { apply pow2_lt_inv. eapply Qle_lt_trans; [ exact L1 | ].
    eapply Qle_lt_trans; eassumption. }
  lia.
Qed.

(** Rounding to the nearest whole number, ties to even. *)
Lemma rne_comp (x y : Q) : (x == y)%Q -> Binary64.rne x = Binary64.rne y.
Proof.
  intros E. unfold Binary64.rne.
  rewrite (Qfloor_comp _ _ E).
  assert (E' : (x - inject_Z (Qfloor y) == y - inject_Z (Qfloor y))%Q)
    by now rewrite E.
  now rewrite (Qcompare_comp _ _ E' (1 # 2) (1 # 2) (Qeq_refl _)).
Qed.

Lemma rne_inject (z : Z) : Binary64.rne (inject_Z z) = z.
Proof.
  unfold Binary64.rne. rewrite Qfloor_Z.
  assert (E : (inject_Z z - inject_Z z ?= 1 # 2)%Q = Lt).
  { rewrite <- Qlt_alt. unfold Qlt. simpl. lia. }
  now rewrite E.
Qed.

Lemma rne_range (x : Q) :
  Qfloor x <= Binary64.rne x <= Qfloor x + 1.
Proof.
  unfold Binary64.rne.
  destruct (x - inject_Z (Qfloor x) ?= 1 # 2)%Q;
    [ destruct (Z.even (Qfloor x)) | | ]; lia.
Qed.

Lemma rne_monotone (x y : Q) :
  (x <= y)%Q -> Binary64.rne x <= Binary64.rne y.
Proof.
  intros H.
  pose proof (Qfloor_resp_le _ _ H) as Hf.
  pose proof (rne_range x) as Rx. pose proof (rne_range y) as Ry.
  destruct (Z.eq_dec (Qfloor x) (Qfloor y)) as [ E | N ]; [ | lia ].
  unfold Binary64.rne. rewrite <- E.
  destruct (Qcompare_spec (x - inject_Z (Qfloor x)) (1 # 2)) as [ A | A | A ];
  destruct (Qcompare_spec (y - inject_Z (Qfloor x)) (1 # 2)) as [ B | B | B ];
    try destruct (Z.even (Qfloor x)); try lia; exfalso; lra.
Qed.

(** The scaled significand of a positive number lies in [2^52, 2^53). *)
Lemma significand_range (x : Q) :
  (0 < x)%Q ->
  (inject_Z (2 ^ 52) <= x / Binary64.pow2 (Binary64.ilog2 x - 52))%Q
  /\ (x / Binary64.pow2 (Binary64.ilog2 x - 52) <= inject_Z (2 ^ 53))%Q.
Proof.
  intros Hx. destruct (ilog2_spec x Hx) as [ L1 L2 ].
  set (k := Binary64.ilog2 x) in *.
  pose proof (pow2_pos (k - 52)) as He.
  assert (A : (inject_Z (2 ^ 52) == Binary64.pow2 52)%Q)
    by (apply pow2_of_Z; lia).
  assert (B : (inject_Z (2 ^ 53) == Binary64.pow2 53)%Q)
    by (apply pow2_of_Z; lia).
  rewrite A, B. split.
  - apply Qle_shift_div_l; [ exact He | ].
    pose proof (pow2_add 52 (k - 52)) as P.
    replace (52 + (k - 52)) with k in P by lia. now rewrite <- P.
  - apply Qle_shift_div_r; [ exact He | ].
    pose proof (pow2_add 53 (k - 52)) as P.
    replace (53 + (k - 52)) with (k + 1) in P by lia. rewrite <- P.
    now apply Qlt_le_weak.
Qed.

Lemma round_positive_bounds (x : Q) :
  (0 < x)%Q ->
  (Binary64.pow2 (Binary64.ilog2 x) <= Binary64.round_positive x)%Q
  /\ (Binary64.round_positive x <= Binary64.pow2 (Binary64.ilog2 x + 1))%Q.
Proof.
  intros Hx. destruct (significand_range x Hx) as [ S1 S2 ].
  unfold Binary64.round_positive. cbv zeta.
  set (k := Binary64.ilog2 x) in *.
  set (m := (x / Binary64.pow2 (k - 52))%Q) in *.
  pose proof (pow2_pos (k - 52)) as He.
  apply rne_monotone in S1, S2. rewrite rne_inject in S1, S2.
  split.
  - pose proof (pow2_add 52 (k - 52)) as P.
    replace (52 + (k - 52)) with k in P by lia. rewrite P.
    apply Qmult_le_compat_r; [ | now apply Qlt_le_weak ].
    assert (A : (inject_Z (2 ^ 52) == Binary64.pow2 52)%Q)
      by (apply pow2_of_Z; lia).
    rewrite <- A. rewrite <- Zle_Qle. exact S1.
  - pose proof (pow2_add 53 (k - 52)) as P.
    replace (53 + (k - 52)) with (k + 1) in P by lia. rewrite P.
    apply Qmult_le_compat_r; [ | now apply Qlt_le_weak ].
    assert (B : (inject_Z (2 ^ 53) == Binary64.pow2 53)%Q)
      by (apply pow2_of_Z; lia).
    rewrite <- B. rewrite <- Zle_Qle. exact S2.
Qed.

Lemma round_positive_pos (x : Q) :
  (0 < x)%Q -> (0 < Binary64.round_positive x)%Q.
Proof.
  intros Hx. destruct (round_positive_bounds x Hx) as [ B _ ].
  eapply Qlt_le_trans; [ apply pow2_pos | exact B ].
Qed.

Lemma round_positive_comp (x y : Q) :
  (x == y)%Q -> (0 < x)%Q ->
  (Binary64.round_positive x == Binary64.round_positive y)%Q.
Proof.
  intros E Hx. unfold Binary64.round_positive. cbv zeta.
  rewrite <- (ilog2_comp x y E Hx).
  assert (E' : (x / Binary64.pow2 (Binary64.ilog2 x - 52)
                == y / Binary64.pow2 (Binary64.ilog2 x - 52))%Q)
    by (apply Qmult_comp; [ exact E | reflexivity ]).
  now rewrite (rne_comp _ _ E').
Qed.

Lemma round_positive_monotone (x y : Q) :
  (0 < x)%Q -> (x <= y)%Q ->
  (Binary64.round_positive x <= Binary64.round_positive y)%Q.
Proof.
  intros Hx Hxy.
  assert (Hy : (0 < y)%Q) by (eapply Qlt_le_trans; eassumption).
  pose proof (ilog2_monotone x y Hx Hxy) as Hk.
  destruct (Z.eq_dec (Binary64.ilog2 x) (Binary64.ilog2 y)) as [ E | N ].
  - unfold Binary64.round_positive. cbv zeta. rewrite <- E.
    pose proof (pow2_pos (Binary64.ilog2 x - 52)) as He.
    apply Qmult_le_compat_r; [ | now apply Qlt_le_weak ].
    rewrite <- Zle_Qle. apply rne_monotone.
    apply Qmult_le_compat_r; [ exact Hxy | ].
    apply Qlt_le_weak, Qinv_lt_0_compat, He.
  - destruct (round_positive_bounds x Hx) as [ _ Bx ].
    destruct (round_positive_bounds y Hy) as [ By' _ ].
    eapply Qle_trans; [ exact Bx | ].
    eapply Qle_trans; [ | exact By' ].
    apply pow2_le. lia.
Qed.

(** [fl] respects equality of rationals, keeps the sign and the order. *)
Lemma fl_comp (x y : Q) : (x == y)%Q -> (Binary64.fl x == Binary64.fl y)%Q.
Proof.
  intros E. unfold Binary64.fl.
  rewrite <- (Qcompare_comp x y E 0 0 (Qeq_refl 0))%Q.
  destruct (Qcompare_spec x 0) as [ H | H | H ].
  - reflexivity.
  - apply Qopp_comp. apply round_positive_comp; [ now rewrite E | lra ].
  - now apply round_positive_comp.
Qed.

Lemma fl_zero : Binary64.fl 0 = 0%Q.
Proof. reflexivity. Qed.

Lemma fl_positive (x : Q) :
  (0 < x)%Q -> Binary64.fl x = Binary64.round_positive x.
Proof.
  intros H. unfold Binary64.fl.
  destruct (Qcompare_spec x 0) as [ E | E | E ]; try reflexivity; exfalso; lra.
Qed.

Lemma fl_negative (x : Q) :
  (x < 0)%Q -> Binary64.fl x = (- Binary64.round_positive (- x))%Q.
Proof.
  intros H. unfold Binary64.fl.
  destruct (Qcompare_spec x 0) as [ E | E | E ]; try reflexivity; exfalso; lra.
Qed.

Lemma fl_null (x : Q) : (x == 0)%Q -> Binary64.fl x = 0%Q.
Proof.
  intros H. unfold Binary64.fl.
  destruct (Qcompare_spec x 0) as [ E | E | E ]; try reflexivity; exfalso; lra.
Qed.

Lemma fl_monotone (x y : Q) :
  (x <= y)%Q -> (Binary64.fl x <= Binary64.fl y)%Q.
Proof.
  intros H.
  destruct (Qlt_le_dec 0 x) as [ Px | Nx ].
  - assert (Py : (0 < y)%Q) by lra.
    rewrite (fl_positive x Px), (fl_positive y Py).
    now apply round_positive_monotone.
  - destruct (Qlt_le_dec x 0) as [ Sx | Zx ].
    + rewrite (fl_negative x Sx).
      pose proof (round_positive_pos (- x) ltac:(lra)) as Rx.
      destruct (Qlt_le_dec 0 y) as [ Py | Ny ].
      * rewrite (fl_positive y Py).
        pose proof (round_positive_pos y Py). lra.
      * destruct (Qlt_le_dec y 0) as [ Sy | Zy ].
        -- rewrite (fl_negative y Sy).
           pose proof (round_positive_monotone (- y) (- x) ltac:(lra) ltac:(lra)).
           lra.
        -- rewrite (fl_null y) by lra. lra.
    + rewrite (fl_null x) by lra.
      destruct (Qlt_le_dec 0 y) as [ Py | Ny ].
      * rewrite (fl_positive y Py).
        pose proof (round_positive_pos y Py). lra.
      * rewrite (fl_null y) by lra. lra.
Qed.

Lemma fl_nonneg (x : Q) : (0 <= x)%Q -> (0 <= Binary64.fl x)%Q.
Proof. intros H. rewrite <- fl_zero. now apply fl_monotone. Qed.


(** ** Lists *)

Lemma Permutation_filter {A} (p : A -> bool) (l l' : list A) :
  Permutation l l' -> Permutation (filter p l) (filter p l').
Proof.
  induction 1 as [ | x l l' _ IH | x y l | l l' l'' _ IH1 _ IH2 ]; simpl.
  - constructor.
  - destruct (p x); [ now constructor | exact IH ].
  - destruct (p x), (p y); try apply Permutation_refl. apply perm_swap.
  - eapply perm_trans; eassumption.
Qed.

Lemma filter_everything {A} (p : A -> bool) (l : list A) :
  (forall x, In x l -> p x = true) -> filter p l = l.
Proof.
  induction l as [ | x l IH ]; intros H; [ reflexivity | ].
  simpl. rewrite (H x (or_introl eq_refl)). f_equal. apply IH.
  intros y Hy. apply H. right. exact Hy.
Qed.

Lemma filter_nothing {A} (p : A -> bool) (l : list A) :
  (forall x, In x l -> p x = false) -> filter p l = [].
Proof.
  induction l as [ | x l IH ]; intros H; [ reflexivity | ].
  simpl. rewrite (H x (or_introl eq_refl)). apply IH.
  intros y Hy. apply H. right. exact Hy.
Qed.

Lemma StronglySorted_weaken {A} (R S : A -> A -> Prop) (l : list A) :
  (forall a b, R a b -> S a b) -> StronglySorted R l -> StronglySorted S l.
Proof.
  intros H. induction 1 as [ | x l Hs IH Hhd ]; constructor; [ exact IH | ].
  rewrite Forall_forall in *. auto.
Qed.

(** ** The stable sort *)

Lemma Qltb_true (a b : Q) : JS.Qltb a b = true <-> (a < b)%Q.
Proof.
  unfold JS.Qltb. rewrite negb_true_iff. split.
  - intro H. apply Qnot_le_lt. intro Hle.
    apply Qle_bool_iff in Hle. congruence.
  - intro H. destruct (Qle_bool b a) eqn:E; [ | reflexivity ].
    apply Qle_bool_iff in E. lra.
Qed.

Lemma Qltb_false (a b : Q) : JS.Qltb a b = false <-> (b <= a)%Q.
Proof.
  unfold JS.Qltb. rewrite negb_false_iff. apply Qle_bool_iff.
Qed.

Section SortFacts.
Context {A : Type} (key : A -> Q) (cmp : A -> A -> Q).
Hypothesis cmp_key : forall a b, (cmp a b == key b - key a)%Q.

Lemma insert_perm (x : A) (l : list A) :
  Permutation (JS.insert cmp x l) (x :: l).
Proof.
  induction l as [ | y l IH ]; simpl.
  - apply Permutation_refl.
  - destruct (JS.Qltb 0 (cmp x y)).
    + eapply perm_trans; [ apply perm_skip, IH | apply perm_swap ].
    + apply Permutation_refl.
Qed.

Lemma sort_perm (l : list A) : Permutation (JS.sort cmp l) l.
Proof.
  induction l as [ | x l IH ]; simpl.
  - apply perm_nil.
  - eapply perm_trans; [ apply insert_perm | apply perm_skip, IH ].
Qed.

Lemma sort_length (l : list A) :
  List.length (JS.sort cmp l) = List.length l.
Proof. apply Permutation_length, sort_perm. Qed.

Lemma insert_sorted (x : A) (l : list A) :
  StronglySorted (descending key) l ->
  StronglySorted (descending key) (JS.insert cmp x l).
Proof.
  induction 1 as [ | y l Hs IH Hy ]; simpl.
  - constructor; [ constructor | constructor ].
  - destruct (JS.Qltb 0 (cmp x y)) eqn:E.
    + constructor; [ exact IH | ].
      apply Qltb_true in E. rewrite cmp_key in E.
      rewrite Forall_forall in *. intros z Hz.
      apply (Permutation_in _ (insert_perm x l)) in Hz.
      destruct Hz as [ <- | Hz ]; [ | auto ].
      unfold descending. lra.
    + apply Qltb_false in E. rewrite cmp_key in E.
      constructor; [ constructor; assumption | ].
      constructor; [ unfold descending; lra | ].
      rewrite Forall_forall in *. intros z Hz.
      specialize (Hy z Hz). unfold descending in *. lra.
Qed.

Lemma sort_sorted (l : list A) : StronglySorted (descending key) (JS.sort cmp l).
Proof.
  induction l as [ | x l IH ]; simpl.
  - constructor.
  - apply insert_sorted, IH.
Qed.

(** Elements that the sort cannot tell apart keep their relative order:
    the sub-list selected by a predicate whose members all have the same
    key is the same before and after. *)
Lemma insert_filter (p : A -> bool) (x : A) (l : list A) :
  (forall a b, p a = true -> p b = true -> (key a == key b)%Q) ->
  filter p (JS.insert cmp x l) = filter p (x :: l).
Proof.
  intros Hp. induction l as [ | y l IH ]; [ reflexivity | ].
  simpl. destruct (JS.Qltb 0 (cmp x y)) eqn:E; [ | reflexivity ].
  simpl. rewrite IH. simpl.
  destruct (p x) eqn:Px; [ | reflexivity ].
  destruct (p y) eqn:Py; [ | reflexivity ].
  apply Qltb_true in E. rewrite cmp_key in E.
  pose proof (Hp x y Px Py). lra.
Qed.

Lemma sort_stable (p : A -> bool) (l : list A) :
  (forall a b, p a = true -> p b = true -> (key a == key b)%Q) ->
  filter p (JS.sort cmp l) = filter p l.
Proof.
  intros Hp. induction l as [ | x l IH ]; [ reflexivity | ].
  simpl JS.sort. rewrite (insert_filter p x _ Hp). simpl. now rewrite IH.
Qed.

(** When no element has a larger key than the first, the first stays
    first. *)
Lemma insert_head (x : A) (l : list A) :
  Forall (fun y => (key y <= key x)%Q) l ->
  exists rest, JS.insert cmp x l = x :: rest.
Proof.
  intros H. destruct l as [ | y l ]; simpl; [ eauto | ].
  inversion H as [ | ? ? Hy _ ]; subst.
  destruct (JS.Qltb 0 (cmp x y)) eqn:E; [ | eauto ].
  apply Qltb_true in E. rewrite cmp_key in E. lra.
Qed.

Lemma sort_head (x : A) (l : list A) :
  Forall (fun y => (key y <= key x)%Q) l ->
  exists rest, JS.sort cmp (x :: l) = x :: rest.
Proof.
  intros H. simpl. apply insert_head.
  rewrite Forall_forall in *. intros y Hy.
  apply H. apply (Permutation_in _ (sort_perm l)). exact Hy.
Qed.

End SortFacts.

(** ** Indexed maps, lookups and sums *)

Lemma mapi_from_length {A B} (f : A -> Z -> B) (i : Z) (l : list A) :
  List.length (mapi_from f i l) = List.length l.
Proof.
  revert i. induction l as [ | x l IH ]; intros i; simpl; [ | rewrite IH ];
    reflexivity.
Qed.

Lemma mapi_from_entry (i : Z) (l : list CompetitorAnalysis) :
  map entry (mapi_from (fun c i => mkRanked c (i + 1)) i l) = l.
Proof.
  revert i. induction l as [ | x l IH ]; intros i; simpl; [ | rewrite IH ];
    reflexivity.
Qed.

Lemma mapi_from_rank (i : Z) (l : list CompetitorAnalysis) :
  map rank (mapi_from (fun c i => mkRanked c (i + 1)) i l)
  = map (fun k => i + Z.of_nat k) (seq 1 (List.length l)).
Proof.
  revert i. induction l as [ | x l IH ]; intros i; [ reflexivity | ].
  cbn [mapi_from map List.length seq rank]. f_equal.
  rewrite IH, <- (seq_shift _ 1), map_map.
  apply map_ext. intros k. lia.
Qed.

Lemma ranked_entries (profiles : list Creator.t) :
  map entry (ranked profiles) = JS.sort by_followers (analyses profiles).
Proof. apply mapi_from_entry. Qed.

Lemma ranked_length (profiles : list Creator.t) :
  List.length (ranked profiles) = List.length profiles.
Proof.
  unfold ranked, mapi. rewrite mapi_from_length, sort_length.
  unfold analyses. apply length_map.
Qed.

Lemma ranked_ranks (profiles : list Creator.t) :
  map rank (ranked profiles) = map Z.of_nat (seq 1 (List.length profiles)).
Proof.
  unfold ranked, mapi. rewrite mapi_from_rank, sort_length.
  unfold analyses. rewrite length_map. reflexivity.
Qed.

Lemma objects_some (profiles : list Creator.t) :
  objects (map Some profiles) = JS.ret profiles.
Proof.
  induction profiles as [ | p l IH ]; simpl; [ | rewrite IH ]; reflexivity.
Qed.

Lemma objects_none (creators : list (option Creator.t)) :
  In None creators -> exists what, objects creators = JS.throw (JS.TypeError what).
Proof.
  induction creators as [ | [ c | ] l IH ]; simpl; intros H.
  - contradiction.
  - destruct H as [ H | H ]; [ discriminate | ].
    destruct (IH H) as [ what E ]. rewrite E. eexists. reflexivity.
  - eexists. reflexivity.
Qed.

Lemma by_followers_key (a b : CompetitorAnalysis) :
  (by_followers a b
   == inject_Z (Metrics.followers (metrics b))
      - inject_Z (Metrics.followers (metrics a)))%Q.
Proof.
  unfold by_followers, Z.sub. rewrite inject_Z_plus, inject_Z_opp. ring.
Qed.

Lemma by_growth_key (a b : Ranked) :
  (by_growth a b
   == inject_Z (Growth.followersPerMonth (growth b))
      - inject_Z (Growth.followersPerMonth (growth a)))%Q.
Proof.
  unfold by_growth, Z.sub. rewrite inject_Z_plus, inject_Z_opp. ring.
Qed.

Lemma by_engagement_key (a b : Ranked) :
  (by_engagement a b
   == Metrics.engagementRate (metrics b)
      - Metrics.engagementRate (metrics a))%Q.
Proof. reflexivity. Qed.

(** With two profiles or more the analyzer returns the full landscape; its
    competitor list is [ranked], and its insights are those of the ranked
    list with its first two entries as leader and challenger and the heads
    of the two sorted copies as fastest growing and highest engagement. *)
Lemma analyze_returns (profiles : list Creator.t) :
  (2 <= List.length profiles)%nat ->
  exists L,
    analyzeCompetitiveLandscape (map Some profiles) = JS.ret (LandscapeOk L)
    /\ Landscape.competitors L = ranked profiles
    /\ Summary.totalFollowers (Landscape.summary L) = sum_followers profiles
    /\ Summary.totalLikes (Landscape.summary L) = sum_likes profiles
    /\ exists leader challenger rest fastest others highest others',
         ranked profiles = leader :: challenger :: rest
         /\ JS.sort by_growth (ranked profiles) = fastest :: others
         /\ JS.sort by_engagement (ranked profiles) = highest :: others'
         /\ Landscape.insights L
            = generateInsights (ranked profiles) leader (Some challenger)
                               fastest highest.
Proof.
  intros Hlen.
  unfold analyzeCompetitiveLandscape.
  rewrite length_map.
  destruct (Z.of_nat (List.length profiles) <? 2) eqn:E;
    [ apply Z.ltb_lt in E; lia | clear E ].
  rewrite objects_some. cbn [JS.bind JS.ret].
  fold (analyses profiles). fold (ranked profiles).
  pose proof (ranked_length profiles) as Hr.
  pose proof (sort_length by_growth (ranked profiles)) as Hg.
  pose proof (sort_length by_engagement (ranked profiles)) as He.
  destruct (ranked profiles) as [ | leader [ | challenger rest ] ] eqn:ER;
    simpl in Hr; try lia.
  destruct (JS.sort by_growth (leader :: challenger :: rest))
    as [ | fastest others ] eqn:EG; simpl in Hg; try lia.
  destruct (JS.sort by_engagement (leader :: challenger :: rest))
    as [ | highest others' ] eqn:EE; simpl in He; try lia.
  eexists. split; [ reflexivity | ].
  cbn [Landscape.competitors Landscape.summary Summary.totalFollowers
       Summary.totalLikes Landscape.insights].
  repeat (split; [ reflexivity | ]).
  exists leader, challenger, rest, fastest, others, highest, others'.
  repeat split.
Qed.

Lemma mapi_from_in (i : Z) (l : list CompetitorAnalysis) (b : Ranked) :
  In b (mapi_from (fun c i => mkRanked c (i + 1)) i l) ->
  i < rank b /\ In (entry b) l.
Proof.
  revert i. induction l as [ | x l IH ]; intros i; simpl; [ tauto | ].
  intros [ <- | H ]; simpl.
  - split; [ lia | auto ].
  - destruct (IH _ H). split; [ lia | auto ].
Qed.

Lemma mapi_from_sorted (i : Z) (l : list CompetitorAnalysis) :
  StronglySorted (descending (fun c => inject_Z (Metrics.followers (metrics c)))) l ->
  StronglySorted
    (fun a b : Ranked =>
       rank a < rank b
       /\ Metrics.followers (metrics b) <= Metrics.followers (metrics a))
    (mapi_from (fun c i => mkRanked c (i + 1)) i l).
Proof.
  intros Hs. revert i.
  induction Hs as [ | x l Hs IH Hx ]; intros i; simpl; constructor.
  - apply IH.
  - rewrite Forall_forall in *. intros b Hb.
    apply mapi_from_in in Hb. destruct Hb as [ Hr Hin ]. simpl.
    split; [ lia | ].
    specialize (Hx _ Hin). unfold descending in Hx.
    now rewrite <- Zle_Qle in Hx.
Qed.

Lemma ranked_sorted (profiles : list Creator.t) :
  StronglySorted
    (fun a b : Ranked =>
       rank a < rank b
       /\ Metrics.followers (metrics b) <= Metrics.followers (metrics a))
    (ranked profiles).
Proof.
  apply mapi_from_sorted.
  apply (sort_sorted _ by_followers by_followers_key).
Qed.

Lemma ranked_entry_of_profile (profiles : list Creator.t) (c : Ranked) :
  In c (ranked profiles) ->
  exists p, In p profiles
    /\ entry c = competitorAnalysis_of (sum_followers profiles)
                                       (sum_likes profiles) p.
Proof.
  intros Hc. apply (in_map entry) in Hc. rewrite ranked_entries in Hc.
  apply (Permutation_in _ (sort_perm by_followers _)) in Hc.
  unfold analyses in Hc. apply in_map_iff in Hc.
  destruct Hc as (p & Hp & Hin). eauto.
Qed.

(** ** Ranking (C4) *)

(** C4.  For an input of two profiles or more, analyzeCompetitiveLandscape
    returns a landscape whose competitor list carries the ranks 1, 2, ..., N
    in this order (so the ranks are a permutation of 1..N without
    duplicates); the entries are the analyses of the input profiles, in
    descending order of followers along increasing rank; and the analyses
    that share a follower count appear in the order of the input. *)
Theorem C4_rank_is_stable_descending_order (profiles : list Creator.t) :
  (2 <= List.length profiles)%nat ->
  exists L,
    analyzeCompetitiveLandscape (map Some profiles) = JS.ret (LandscapeOk L)
    /\ map rank (Landscape.competitors L)
       = map Z.of_nat (seq 1 (List.length profiles))
    /\ NoDup (map rank (Landscape.competitors L))
    /\ Permutation (map entry (Landscape.competitors L)) (analyses profiles)
    /\ StronglySorted
         (fun a b : Ranked =>
            rank a < rank b
            /\ Metrics.followers (metrics b) <= Metrics.followers (metrics a))
         (Landscape.competitors L)
    /\ forall n : Z,
         filter (fun c => Metrics.followers (metrics c) =? n)
                (map entry (Landscape.competitors L))
         = filter (fun c => Metrics.followers (metrics c) =? n)
                  (analyses profiles).
Proof.
  intros Hlen.
  destruct (analyze_returns profiles Hlen) as (L & HL & Hc & _).
  exists L. split; [ exact HL | ]. rewrite Hc.
  split; [ apply ranked_ranks | ].
  split.
  { rewrite ranked_ranks. apply Finite.Injective_map_NoDup.
    - intros a b. apply Nat2Z.inj.
    - apply seq_NoDup. }
  split.
  { rewrite ranked_entries.
    apply (sort_perm by_followers). }
  split.
  { apply mapi_from_sorted.
    apply (sort_sorted _ by_followers by_followers_key). }
  intros n. rewrite ranked_entries.
  apply (sort_stable (fun c => inject_Z (Metrics.followers (metrics c)))
                     by_followers by_followers_key).
  intros a b Ha Hb. apply Z.eqb_eq in Ha, Hb. now rewrite Ha, Hb.
Qed.

Lemma C4_rank_is_stable_descending_order_witness :
  exists L,
    analyzeCompetitiveLandscape
      (map Some [ profile "a" 10; profile "b" 30; profile "c" 10 ])
    = JS.ret (LandscapeOk L)
    /\ map rank (Landscape.competitors L) = [ 1; 2; 3 ]
    /\ map (fun c : Ranked => username c) (Landscape.competitors L)
       = [ "b"; "a"; "c" ].
Proof.
  destruct (C4_rank_is_stable_descending_order
              [ profile "a" 10; profile "b" 30; profile "c" 10 ])
    as (L & HL & Hr & _).
  - simpl. lia.
  - exists L. split; [ exact HL | ]. split; [ exact Hr | ].
    vm_compute in HL. injection HL as <-. reflexivity.
Defined.

(** ** Market share (C5) *)

Lemma fold_left_Zsum {A} (f : A -> Z) (l : list A) (a : Z) :
  fold_left (fun sum c => sum + f c) l a = a + Zsum (map f l).
Proof.
  revert a. induction l as [ | x l IH ]; intros a; simpl.
  - lia.
  - rewrite IH. lia.
Qed.

Lemma sum_followers_Zsum (profiles : list Creator.t) :
  sum_followers profiles
  = Zsum (map (fun c => JS.or_default (Creator.followers c) 0) profiles).
Proof. unfold sum_followers. now rewrite fold_left_Zsum. Qed.






(** ** Account age (C6) *)




(** ** Percentile labels (C10) *)

(** C10.  Every percentile gets exactly one label, fixed by the
    thresholds read from the top: 90 and above is "Top 10%", 75 to 89 is
    "Top 25%", 50 to 74 is "Above Average", 25 to 49 is "Below Average", and
    anything below 25 is "Bottom 25%". *)
Theorem C10_percentile_label_thresholds (p : Z) :
  (90 <= p /\ getPercentileLabel p = "Top 10%")
  \/ (75 <= p < 90 /\ getPercentileLabel p = "Top 25%")
  \/ (50 <= p < 75 /\ getPercentileLabel p = "Above Average")
  \/ (25 <= p < 50 /\ getPercentileLabel p = "Below Average")
  \/ (p < 25 /\ getPercentileLabel p = "Bottom 25%").
Proof.
  unfold getPercentileLabel.
  destruct (90 <=? p) eqn:E1; [ apply Z.leb_le in E1; auto | ].
  destruct (75 <=? p) eqn:E2;
    [ apply Z.leb_le in E2; apply Z.leb_gt in E1; right; left; auto | ].
  destruct (50 <=? p) eqn:E3;
    [ apply Z.leb_le in E3; apply Z.leb_gt in E2; right; right; left; auto | ].
  destruct (25 <=? p) eqn:E4;
    [ apply Z.leb_le in E4; apply Z.leb_gt in E3;
      right; right; right; left; auto | ].
  apply Z.leb_gt in E4. right; right; right; right; auto.
Qed.

(** ** Insights (C9) *)


Section SetOfFacts.
Context {A : Type} (eqb : A -> A -> bool).
Hypothesis eqb_eq : forall a b, eqb a b = true <-> a = b.






End SetOfFacts.





(** Turn the outcome of a test into the rule condition or its negation. *)
Ltac settle_test :=
  match goal with
  | H : true = true <-> ?P |- _ =>
      let X := fresh "Holds" in
      assert (X : P) by (apply H; reflexivity); clear H
  | H : false = true <-> ?P |- _ =>
      let X := fresh "Fails" in
      assert (X : ~ P) by (let Y := fresh in intros Y; apply H in Y; discriminate);
      clear H
  end.

Ltac emitted_iff_condition :=
  split;
  [ let Hin := fresh "Hin" in
    intros Hin; cbn [In] in Hin;
    repeat (destruct Hin as [ Hin | Hin ]); try discriminate;
    try contradiction; eauto
  | let Hc := fresh "Hc" in
    intros Hc;
    first
      [ solve [ cbn [In]; auto 10 ]
      | solve [ exfalso; auto ]
      | solve [ exfalso; destruct Hc as (? & Hc & ?);
                first [ discriminate Hc | injection Hc as <-; auto ] ] ] ].



(** ** The benchmark returns a result *)

Lemma find_exists {A} (p : A -> bool) (l : list A) (x : A) :
  In x l -> p x = true -> exists y, find p l = Some y.
Proof.
  intros Hin Hp. destruct (find p l) as [ y | ] eqn:E; [ eauto | ].
  pose proof (find_none p l E x Hin). congruence.
Qed.

Lemma findIndex_from_bounds {A} (p : A -> bool) (i : Z) (l : list A) :
  (exists x, In x l /\ p x = true) ->
  i <= JS.findIndex_from p i l < i + Z.of_nat (List.length l).
Proof.
  revert i. induction l as [ | y l IH ]; intros i (x & Hin & Hp).
  - contradiction.
  - cbn [JS.findIndex_from List.length]. destruct (p y) eqn:E; [ lia | ].
    destruct Hin as [ -> | Hin ]; [ congruence | ].
    specialize (IH (i + 1) (ex_intro _ x (conj Hin Hp))). lia.
Qed.

(** The target's own analysis is in the ranked list and carries the
    target's username. *)
Lemma target_is_ranked (target : Creator.t) (competitors : list Creator.t) :
  exists c : Ranked,
    In c (ranked (target :: competitors)) /\ same_username target c = true.
Proof.
  set (all := target :: competitors).
  assert (Hin : In (competitorAnalysis_of (sum_followers all) (sum_likes all)
                                          target)
                   (map entry (ranked all))).
  { rewrite ranked_entries.
    apply (Permutation_in _ (Permutation_sym (sort_perm by_followers _))).
    unfold analyses, all. left. reflexivity. }
  apply in_map_iff in Hin. destruct Hin as (c & Hc & Hin).
  exists c. split; [ exact Hin | ].
  unfold same_username. rewrite Hc. cbn. apply String.eqb_refl.
Qed.

Lemma rank_bounds (profiles : list Creator.t) (c : Ranked) :
  In c (ranked profiles) ->
  1 <= rank c <= Z.of_nat (List.length profiles).
Proof.
  intros Hin. apply (in_map rank) in Hin. rewrite ranked_ranks in Hin.
  apply in_map_iff in Hin. destruct Hin as (k & <- & Hk).
  apply in_seq in Hk. lia.
Qed.

(** With a target and at least one competitor, benchmarkCreator returns a
    result; its parts are those computed from the ranked list of the target
    together with the competitors. *)
Lemma benchmark_returns (target : Creator.t) (competitors : list Creator.t) :
  competitors <> [] ->
  exists (r : BenchmarkResult.t) (targetAnalysis leader : Ranked)
         (rest : list Ranked),
    let all := ranked (target :: competitors) in
    let total := Z.of_nat (S (List.length competitors)) in
    let engagementRank :=
      JS.findIndex (same_username target) (JS.sort by_engagement all) + 1 in
    let growthRank :=
      JS.findIndex (same_username target) (JS.sort by_growth all) + 1 in
    benchmarkCreator (Some target) competitors = JS.ret r
    /\ find (same_username target) all = Some targetAnalysis
    /\ all = leader :: rest
    /\ BenchmarkResult.target r = targetAnalysis
    /\ BenchmarkResult.benchmarks r
       = {| Benchmarks.followers :=
              Benchmark.mk (rank targetAnalysis)
                (percentile_of (rank targetAnalysis) total) total
                (getPercentileLabel
                   (percentile_of (rank targetAnalysis) total));
            Benchmarks.engagement :=
              Benchmark.mk engagementRank
                (percentile_of engagementRank total) total
                (getPercentileLabel (percentile_of engagementRank total));
            Benchmarks.growth :=
              Benchmark.mk growthRank (percentile_of growthRank total) total
                (getPercentileLabel (percentile_of growthRank total)) |}
    /\ BenchmarkResult.isLeader r
       = String.eqb (username leader) (Creator.username target)
    /\ BenchmarkResult.gapToLeader r
       = (if String.eqb (username leader) (Creator.username target) then None
          else
            Some {| Gap.followers :=
                      Metrics.followers (metrics leader)
                      - Metrics.followers (metrics targetAnalysis);
                    Gap.percentage :=
                      JS.round
                        (Binary64.mul
                           (Binary64.div
                              (inject_Z
                                 (Metrics.followers (metrics leader)
                                  - Metrics.followers (metrics targetAnalysis)))
                              (inject_Z (Metrics.followers (metrics leader))))
                           100);
                    Gap.disclaimer :=
                      "Gap based on current follower count - actual market reach differs based on engagement and algorithm" |})
    /\ BenchmarkResult.recommendations r
       = generateBenchmarkRecommendations targetAnalysis
           (filter (fun c => negb (same_username target c)) all) leader.
Proof.
  intros Hne.
  assert (Hlen : (2 <= List.length (target :: competitors))%nat).
  { destruct competitors; [ congruence | simpl; lia ]. }
  destruct (analyze_returns (target :: competitors) Hlen)
    as (L & HL & Hc & _).
  destruct (target_is_ranked target competitors) as (c & Hin & Hp).
  destruct (find_exists _ _ _ Hin Hp) as (ta & Hfind).
  destruct (ranked (target :: competitors)) as [ | leader rest ] eqn:ER;
    [ contradiction | ].
  unfold benchmarkCreator.
  change (Some target :: map Some competitors)
    with (map Some (target :: competitors)).
  rewrite HL. cbn [JS.bind JS.ret]. rewrite Hc, Hfind.
  eexists _, ta, leader, rest. cbn zeta.
  split; [ reflexivity | ].
  rewrite length_map.
  repeat split.
Qed.

(** ** Invalid benchmark input (C1) *)

(** C1 as worded fails: with a target and no competitor the
    call does not raise a condition of its own; the landscape comes back as
    the error object, and reading [competitors.find] on it raises a
    TypeError. *)
Lemma C1_empty_competitors_is_a_TypeError :
  benchmarkCreator (Some (profile "x" 100000)) []
  = JS.throw (JS.TypeError
      "Cannot read properties of undefined (reading 'find')")
  /\ ~ explicit_failure (benchmarkCreator (Some (profile "x" 100000)) []).
Proof.
  split; [ reflexivity | ].
  intros (message & H). vm_compute in H. discriminate H.
Qed.

(** C1, amended.  When the target is absent or the list of competitors is
    empty, benchmarkCreator returns no result: the call ends with a
    TypeError raised by the runtime. *)
Theorem C1_invalid_input_raises_TypeError (target : option Creator.t)
  (competitors : list Creator.t) :
  target = None \/ competitors = [] ->
  exists what,
    benchmarkCreator target competitors = JS.throw (JS.TypeError what).
Proof.
  intros H. unfold benchmarkCreator, analyzeCompetitiveLandscape.
  destruct competitors as [ | c cs ].
  - cbn. eexists. reflexivity.
  - destruct H as [ -> | H ]; [ | discriminate ].
    cbn [List.length map].
    destruct (Z.of_nat (S (S (List.length (map Some cs)))) <? 2) eqn:E;
      [ apply Z.ltb_lt in E; lia | ].
    cbn. eexists. reflexivity.
Qed.

Lemma C1_invalid_input_raises_TypeError_witness :
  exists what,
    benchmarkCreator None [ profile "a" 10 ] = JS.throw (JS.TypeError what).
Proof.
  apply (C1_invalid_input_raises_TypeError None [ profile "a" 10 ]).
  left. reflexivity.
Defined.

(** The callbacks of the entry script raise nothing but TypeErrors. *)
Section EntryScriptFacts.
Variable toLowerCase : string -> string.

Lemma matches_target_outcome (targetUsername : TargetUsername)
  (p : RawProfile) :
  (exists what,
     matches_target toLowerCase targetUsername p
     = JS.throw (JS.TypeError what))
  \/ exists m, matches_target toLowerCase targetUsername p = JS.ret m.
Proof. destruct p, targetUsername; cbn; eauto. Qed.

Lemma find_target_outcome (targetUsername : TargetUsername)
  (l : list RawProfile) :
  (exists what,
     find_target toLowerCase targetUsername l = JS.throw (JS.TypeError what))
  \/ exists m, find_target toLowerCase targetUsername l = JS.ret m.
Proof.
  induction l as [ | p l IH ]; cbn [find_target]; [ right; eauto | ].
  destruct (matches_target_outcome targetUsername p)
    as [ (what & ->) | ([ c | ] & ->) ]; cbn [JS.bind JS.throw JS.ret].
  - left. eauto.
  - right. eauto.
  - exact IH.
Qed.

Lemma filter_competitors_outcome (targetUsername : TargetUsername)
  (l : list RawProfile) :
  (exists what,
     filter_competitors toLowerCase targetUsername l
     = JS.throw (JS.TypeError what))
  \/ exists cs, filter_competitors toLowerCase targetUsername l = JS.ret cs.
Proof.
  induction l as [ | p l IH ]; cbn [filter_competitors]; [ right; eauto | ].
  destruct (matches_target_outcome targetUsername p)
    as [ (what & ->) | (m & ->) ]; cbn [JS.bind JS.throw JS.ret].
  - left. eauto.
  - destruct IH as [ (what & ->) | (cs & ->) ];
      cbn [JS.bind JS.throw JS.ret]; [ left | right ]; eauto.
Qed.

(** The conditions with a message of their own are raised by the entry
    script, which calls benchmarkCreator only with a target and at least
    one competitor. *)
Lemma benchmarkMode_checks_before_calling (targetUsername : TargetUsername)
  (competitorUsernames : list string) (allProfiles : list RawProfile) :
  let outcome :=
    benchmarkMode toLowerCase targetUsername competitorUsernames
      allProfiles in
  explicit_failure outcome
  \/ (exists what, outcome = JS.throw (JS.TypeError what))
  \/ exists target competitors,
       competitors <> [] /\ outcome = JS.ret (target, competitors).
Proof.
  cbv zeta. unfold benchmarkMode, explicit_failure.
  destruct (match targetUsername with
            | NoTarget => true
            | TargetName name => String.eqb name EmptyString
            | TargetOther _ => false
            end); [ left; eexists; reflexivity | ].
  destruct (Nat.eqb (List.length competitorUsernames) 0);
    [ left; eexists; reflexivity | ].
  unfold select_profiles.
  destruct (find_target_outcome targetUsername allProfiles)
    as [ (what & ->) | (m & ->) ]; cbn [JS.bind JS.throw JS.ret];
    [ right; left; eauto | ].
  destruct (filter_competitors_outcome targetUsername allProfiles)
    as [ (what & ->) | (cs & ->) ]; cbn [JS.bind JS.throw JS.ret];
    [ right; left; eauto | ].
  destruct m as [ t | ]; [ | left; eexists; reflexivity ].
  destruct cs as [ | c cs ]; cbn [List.length Nat.eqb];
    [ left; eexists; reflexivity | ].
  right. right. exists t, (c :: cs). split; [ discriminate | reflexivity ].
Qed.

End EntryScriptFacts.

(** ** Leader test and target lookup (C2) *)

(** C2 as worded fails: usernames are compared with strict
    equality.  The target "Bob" and the leader "bob" are equal when case is
    ignored, yet the target is not reported as the leader and the gap is
    not null. *)
Lemma C2_usernames_are_case_sensitive :
  exists r leader rest,
    benchmarkCreator (Some (profile "Bob" 1)) [ profile "bob" 10 ] = JS.ret r
    /\ ranked [ profile "Bob" 1; profile "bob" 10 ] = leader :: rest
    /\ JS.toLowerCase (Creator.username (profile "Bob" 1))
       = JS.toLowerCase (username leader)
    /\ BenchmarkResult.gapToLeader r <> None
    /\ BenchmarkResult.isLeader r = false.
Proof.
  eexists _, _, _.
  split; [ vm_compute; reflexivity | ].
  split; [ vm_compute; reflexivity | ].
  split; [ reflexivity | ].
  split; [ discriminate | reflexivity ].
Qed.

(** C2, amended.  For a target and at least one competitor, the target's
    analysis is the first entry of the ranked list whose username is
    identical (character for character) to the target's; gapToLeader is
    null exactly when the leader's username is identical to the target's,
    and isLeader is true exactly in that case. *)
Theorem C2_leader_test_is_exact_match (target : Creator.t)
  (competitors : list Creator.t) :
  competitors <> [] ->
  exists r leader rest,
    benchmarkCreator (Some target) competitors = JS.ret r
    /\ ranked (target :: competitors) = leader :: rest
    /\ (BenchmarkResult.gapToLeader r = None
        <-> username leader = Creator.username target)
    /\ (BenchmarkResult.isLeader r = true
        <-> username leader = Creator.username target)
    /\ find (fun c : Ranked =>
               String.eqb (username c) (Creator.username target))
            (ranked (target :: competitors))
       = Some (BenchmarkResult.target r)
    /\ username (BenchmarkResult.target r) = Creator.username target.
Proof.
  intros Hne.
  destruct (benchmark_returns target competitors Hne)
    as (r & ta & leader & rest & Hr & Hfind & Hall & Ht & _ & Hlead & Hgap & _).
  exists r, leader, rest.
  split; [ exact Hr | ]. split; [ exact Hall | ].
  rewrite Hgap, Hlead, Ht.
  split.
  { destruct (String.eqb (username leader) (Creator.username target)) eqn:E.
    - apply String.eqb_eq in E. tauto.
    - apply String.eqb_neq in E. split; [ discriminate | contradiction ]. }
  split; [ apply String.eqb_eq | ].
  split; [ exact Hfind | ].
  apply find_some in Hfind. destruct Hfind as [ _ Hp ].
  apply String.eqb_eq. exact Hp.
Qed.

Lemma C2_leader_test_is_exact_match_witness :
  exists r leader rest,
    benchmarkCreator (Some (profile "a" 10)) [ profile "b" 5 ] = JS.ret r
    /\ ranked [ profile "a" 10; profile "b" 5 ] = leader :: rest
    /\ (BenchmarkResult.gapToLeader r = None
        <-> username leader = "a").
Proof.
  destruct (C2_leader_test_is_exact_match (profile "a" 10) [ profile "b" 5 ])
    as (r & leader & rest & Hr & Hall & Hgap & _).
  - discriminate.
  - exists r, leader, rest. auto.
Defined.

(** ** Percentiles (C3) *)

Lemma fl_one : (Binary64.fl 1 == 1)%Q.
Proof. vm_compute. reflexivity. Qed.

Lemma fl_hundred : (Binary64.fl 100 == 100)%Q.
Proof. vm_compute. reflexivity. Qed.

Lemma rank_fraction_bounds (rank total : Z) :
  1 <= rank <= total ->
  (0 <= inject_Z (rank - 1) / inject_Z total)%Q
  /\ (inject_Z (rank - 1) / inject_Z total < 1)%Q.
Proof.
  intros H.
  assert (Ht : (0 < inject_Z total)%Q).
  { change 0%Q with (inject_Z 0). rewrite <- Zlt_Qlt. lia. }
  split.
  - apply Qle_shift_div_l; [ exact Ht | ].
    rewrite Qmult_0_l. change 0%Q with (inject_Z 0). rewrite <- Zle_Qle. lia.
  - apply Qlt_shift_div_r; [ exact Ht | ].
    rewrite Qmult_1_l. rewrite <- Zlt_Qlt. lia.
Qed.

(** Rounding keeps a value between two bounds that are binary64 numbers. *)
Lemma fl_between (lo hi x : Q) :
  (Binary64.fl lo == lo)%Q -> (Binary64.fl hi == hi)%Q ->
  (lo <= x <= hi)%Q -> (lo <= Binary64.fl x <= hi)%Q.
Proof.
  intros Hlo Hhi [ H1 H2 ].
  apply fl_monotone in H1, H2. rewrite Hlo in H1. rewrite Hhi in H2.
  split; assumption.
Qed.

Lemma fl_zero_eq : (Binary64.fl 0 == 0)%Q.
Proof. reflexivity. Qed.

Lemma percentile_of_range (rank total : Z) :
  1 <= rank <= total -> 0 <= percentile_of rank total <= 100.
Proof.
  intros H. destruct (rank_fraction_bounds rank total H) as [ H0 H1 ].
  unfold percentile_of.
  set (q := (inject_Z (rank - 1) / inject_Z total)%Q) in *. clearbody q.
  assert (Ha : (0 <= Binary64.fl q <= 1)%Q).
  { apply (fl_between 0 1); [ apply fl_zero_eq | apply fl_one | ].
    split; lra. }
  set (a := Binary64.fl q) in *. clearbody a.
  assert (Hb : (0 <= Binary64.fl (1 - a) <= 1)%Q).
  { apply (fl_between 0 1); [ apply fl_zero_eq | apply fl_one | ].
    split; lra. }
  set (b := Binary64.fl (1 - a)) in *. clearbody b.
  assert (Hc : (0 <= Binary64.fl (b * 100) <= 100)%Q).
  { apply (fl_between 0 100); [ apply fl_zero_eq | apply fl_hundred | ].
    split; lra. }
  set (c := Binary64.fl (b * 100)) in *. clearbody c.
  split.
  - change 0 with (JS.Math_round 0). apply Math_round_monotone. lra.
  - change 100 with (JS.Math_round 100). apply Math_round_monotone. lra.
Qed.

Lemma percentile_of_first (total : Z) : percentile_of 1 total = 100.
Proof.
  unfold percentile_of.
  rewrite (fl_null (inject_Z (1 - 1) / inject_Z total)).
  2:{ change (inject_Z (1 - 1)) with 0%Q. unfold Qdiv. ring. }
  change 100 with (JS.Math_round 100) at 2.
  apply Math_round_comp.
  rewrite <- fl_hundred at 2. apply fl_comp.
  assert (E : (Binary64.fl (1 - 0) == 1)%Q).
  { rewrite <- fl_one at 2. apply fl_comp. ring. }
  rewrite E. ring.
Qed.

(** At the last rank of N the percentile is round(100 / N): up to N = 200
    by evaluation, and beyond because both sides are 0. *)
Lemma percentile_of_last_small :
  forallb (fun n => percentile_of n n =? JS.Math_round (100 / inject_Z n))
          (map Z.of_nat (seq 1 200)) = true.
Proof. vm_compute. reflexivity. Qed.

Lemma percentile_of_last (total : Z) :
  0 < total ->
  percentile_of total total = JS.Math_round (100 / inject_Z total).
Proof.
  intros H. destruct (Z_le_gt_dec total 200) as [ Hsmall | Hlarge ].
  - pose proof percentile_of_last_small as Hall.
    rewrite forallb_forall in Hall. apply Z.eqb_eq. apply Hall.
    apply in_map_iff. exists (Z.to_nat total). split; [ lia | ].
    apply in_seq. lia.
  - assert (Ht : (0 < inject_Z total)%Q).
    { change 0%Q with (inject_Z 0). rewrite <- Zlt_Qlt. lia. }
    assert (Hrhs : JS.Math_round (100 / inject_Z total) = 0).
    { apply Math_round_unique.
      - assert (0 <= 100 / inject_Z total)%Q.
        { apply Qle_shift_div_l; [ exact Ht | ]. lra. }
        change (inject_Z 0) with 0%Q. lra.
      - assert (100 / inject_Z total < 1 # 2)%Q.
        { apply Qlt_shift_div_r; [ exact Ht | ].
          assert (E : (inject_Z 200 < inject_Z total)%Q)
            by (rewrite <- Zlt_Qlt; lia).
          change (inject_Z 200) with 200%Q in E. lra. }
        change (inject_Z 0) with 0%Q. lra. }
    rewrite Hrhs. unfold percentile_of.
    assert (Hq : (200 # 201 <= inject_Z (total - 1) / inject_Z total <= 1)%Q).
    { split.
      - apply Qle_shift_div_l; [ exact Ht | ].
        unfold Qle. cbn [Qnum Qden inject_Z Qmult]. lia.
      - apply Qle_shift_div_r; [ exact Ht | ].
        rewrite Qmult_1_l, <- Zle_Qle. lia. }
    set (q := (inject_Z (total - 1) / inject_Z total)%Q) in *. clearbody q.
    destruct Hq as [ Hq1 Hq2 ].
    apply fl_monotone in Hq1, Hq2. rewrite fl_one in Hq2.
    set (a0 := Binary64.fl (200 # 201)) in *.
    set (a := Binary64.fl q) in *. clearbody a.
    assert (Hb : (0 <= 1 - a <= 1 - a0)%Q) by (split; lra).
    destruct Hb as [ Hb1 Hb2 ].
    apply fl_monotone in Hb1, Hb2. rewrite fl_zero_eq in Hb1.
    set (b0 := Binary64.fl (1 - a0)) in *.
    set (b := Binary64.fl (1 - a)) in *. clearbody b.
    assert (Hc : (0 <= b * 100 <= b0 * 100)%Q) by (split; lra).
    destruct Hc as [ Hc1 Hc2 ].
    apply fl_monotone in Hc1, Hc2. rewrite fl_zero_eq in Hc1.
    set (c0 := Binary64.fl (b0 * 100)) in *.
    set (c := Binary64.fl (b * 100)) in *. clearbody c.
    assert (Hc0 : (c0 < 1 # 2)%Q) by (vm_compute; reflexivity).
    clearbody c0. apply Math_round_unique; change (inject_Z 0) with 0%Q; lra.
Qed.
(** ** The place of an element in a stable sort *)

Section StablePlaces.
Context {A : Type} (key : A -> Q) (cmp : A -> A -> Q) (pos : A -> Z).
Hypothesis cmp_key : forall a b, (cmp a b == key b - key a)%Q.

Lemma placed_before_spec (a b : A) :
  placed_before key pos a b = true
  <-> (key b < key a)%Q \/ ((key a == key b)%Q /\ pos a < pos b).
Proof.
  unfold placed_before.
  rewrite orb_true_iff, andb_true_iff, Qltb_true, Qeq_bool_iff, Z.ltb_lt.
  reflexivity.
Qed.

Lemma placed_before_irreflexive (a : A) : placed_before key pos a a = false.
Proof.
  destruct (placed_before key pos a a) eqn:E; [ | reflexivity ].
  apply placed_before_spec in E. destruct E as [ E | [ _ E ] ]; [ lra | lia ].
Qed.

Lemma placed_before_asymmetric (a b : A) :
  placed_before key pos a b = true -> placed_before key pos b a = false.
Proof.
  intros H. destruct (placed_before key pos b a) eqn:E; [ | reflexivity ].
  apply placed_before_spec in H, E.
  destruct H as [ H | [ H1 H2 ] ], E as [ E | [ E1 E2 ] ];
    first [ lra | lia ].
Qed.

Lemma insert_places (x : A) (l : list A) :
  StronglySorted (fun a b => placed_before key pos a b = true) l ->
  Forall (fun y => pos x < pos y) l ->
  StronglySorted (fun a b => placed_before key pos a b = true)
                 (JS.insert cmp x l).
Proof.
  induction 1 as [ | y l Hs IH Hy ]; intros Hpos; simpl.
  - constructor; constructor.
  - inversion Hpos as [ | ? ? Hxy Hpos' ]; subst.
    destruct (JS.Qltb 0 (cmp x y)) eqn:E.
    + apply Qltb_true in E. rewrite cmp_key in E.
      constructor; [ exact (IH Hpos') | ].
      rewrite Forall_forall in *. intros z Hz.
      apply (Permutation_in _ (insert_perm cmp x l)) in Hz.
      destruct Hz as [ <- | Hz ]; [ | auto ].
      apply placed_before_spec. left. lra.
    + apply Qltb_false in E. rewrite cmp_key in E.
      constructor; [ constructor; assumption | ].
      constructor.
      * apply placed_before_spec.
        destruct (Qlt_le_dec (key y) (key x)) as [ Hlt | Hle ];
          [ left; exact Hlt | right; split; [ lra | exact Hxy ] ].
      * rewrite Forall_forall in *. intros z Hz.
        specialize (Hy z Hz). apply placed_before_spec in Hy.
        apply placed_before_spec.
        specialize (Hpos' z Hz).
        destruct (Qlt_le_dec (key z) (key x)) as [ Hlt | Hle ];
          [ left; exact Hlt | right; split; [ | exact Hpos' ] ].
        destruct Hy as [ Hy | [ Hy _ ] ]; lra.
Qed.

(** Sorting a list that is in increasing order of [pos] places every
    element before those with a smaller key and before the later ones with
    the same key. *)
Lemma sort_places (l : list A) :
  StronglySorted (fun a b => pos a < pos b) l ->
  StronglySorted (fun a b => placed_before key pos a b = true)
                 (JS.sort cmp l).
Proof.
  induction 1 as [ | x l Hs IH Hx ]; simpl.
  - constructor.
  - apply insert_places; [ exact IH | ].
    rewrite Forall_forall in *. intros y Hy. apply Hx.
    apply (Permutation_in _ (sort_perm cmp l)). exact Hy.
Qed.

End StablePlaces.

Lemma findIndex_from_split {A} (p : A -> bool) (i : Z) (l : list A) :
  (exists x, In x l /\ p x = true) ->
  exists pre x post,
    l = pre ++ x :: post
    /\ p x = true
    /\ Forall (fun y => p y = false) pre
    /\ JS.findIndex_from p i l = i + Z.of_nat (List.length pre).
Proof.
  revert i. induction l as [ | y l IH ]; intros i (x & Hin & Hp).
  - contradiction.
  - cbn [JS.findIndex_from]. destruct (p y) eqn:E.
    + exists [], y, l. repeat split; [ exact E | constructor | simpl; lia ].
    + destruct Hin as [ -> | Hin ]; [ congruence | ].
      destruct (IH (i + 1) (ex_intro _ x (conj Hin Hp)))
        as (pre & z & post & -> & Hz & Hpre & Hi).
      exists (y :: pre), z, post.
      repeat split; [ exact Hz | constructor; assumption | ].
      rewrite Hi. cbn [List.length]. lia.
Qed.

Lemma StronglySorted_middle {A} (R : A -> A -> Prop) (pre post : list A)
  (x : A) :
  StronglySorted R (pre ++ x :: post) ->
  Forall (fun y => R y x) pre /\ Forall (fun y => R x y) post.
Proof.
  induction pre as [ | y pre IH ]; simpl; intros H;
    inversion H as [ | ? ? Hs Hhd ]; subst.
  - split; [ constructor | exact Hhd ].
  - destruct (IH Hs) as [ H1 H2 ]. split; [ | exact H2 ].
    constructor; [ | exact H1 ].
    rewrite Forall_forall in Hhd. apply Hhd.
    apply in_or_app. right. left. reflexivity.
Qed.

(** The position at which [findIndex] meets an element with property [p] in
    the stable descending sort of a list: the element found is the
    best-placed one with the property, and the index counts the elements
    placed before it. *)
Lemma findIndex_in_stable_sort {A} (key : A -> Q) (cmp : A -> A -> Q)
  (pos : A -> Z) (p : A -> bool) (l : list A) :
  (forall a b, (cmp a b == key b - key a)%Q) ->
  StronglySorted (fun a b => pos a < pos b) l ->
  (exists x, In x l /\ p x = true) ->
  exists x,
    In x l /\ p x = true
    /\ (forall y, In y l -> p y = true ->
        y = x \/ placed_before key pos x y = true)
    /\ JS.findIndex p (JS.sort cmp l) + 1
       = 1 + Z.of_nat
               (List.length (filter (fun c => placed_before key pos c x) l)).
Proof.
  intros cmp_key Hl (x0 & Hin0 & Hp0).
  pose proof (sort_places key cmp pos cmp_key l Hl) as Hs.
  pose proof (sort_perm cmp l) as Hperm.
  destruct (findIndex_from_split p 0 (JS.sort cmp l))
    as (pre & x & post & Esort & Hpx & Hpre & Hi).
  { exists x0. split; [ | exact Hp0 ].
    apply (Permutation_in _ (Permutation_sym Hperm)). exact Hin0. }
  rewrite Esort in Hs, Hperm.
  destruct (StronglySorted_middle _ _ _ _ Hs) as [ Hbefore Hafter ].
  rewrite Forall_forall in Hbefore, Hafter, Hpre.
  exists x. split.
  { apply (Permutation_in _ Hperm). apply in_or_app. right. left.
    reflexivity. }
  split; [ exact Hpx | ]. split.
  { intros y Hy Hpy.
    apply (Permutation_in _ (Permutation_sym Hperm)) in Hy.
    apply in_app_or in Hy. destruct Hy as [ Hy | [ <- | Hy ] ].
    - rewrite (Hpre y Hy) in Hpy. discriminate.
    - left. reflexivity.
    - right. apply Hafter, Hy. }
  unfold JS.findIndex. rewrite Esort at 1. rewrite <- Esort, Hi.
  rewrite <- (Permutation_length
                (Permutation_filter (fun c => placed_before key pos c x)
                   _ _ Hperm)).
  rewrite filter_app. cbn [filter].
  rewrite (placed_before_irreflexive key pos x).
  rewrite (filter_everything _ pre) by (intros c Hc; apply Hbefore, Hc).
  rewrite (filter_nothing _ post).
  2:{ intros c Hc. apply (placed_before_asymmetric key pos).
      apply Hafter, Hc. }
  rewrite length_app. cbn [List.length]. lia.
Qed.

(** ** The error of a rounding *)

Lemma rne_error (x : Q) :
  (- (1 # 2) <= inject_Z (Binary64.rne x) - x <= 1 # 2)%Q.
Proof.
  pose proof (Qfloor_le x) as Hlo. pose proof (Qlt_floor x) as Hhi.
  rewrite inject_Z_plus in Hhi. change (inject_Z 1) with 1%Q in Hhi.
  unfold Binary64.rne.
  destruct (Qcompare_spec (x - inject_Z (Qfloor x)) (1 # 2)) as [ E | E | E ].
  - destruct (Z.even (Qfloor x));
      rewrite ?inject_Z_plus; change (inject_Z 1) with 1%Q; split; lra.
  - split; lra.
  - rewrite inject_Z_plus. change (inject_Z 1) with 1%Q. split; lra.
Qed.

Lemma round_positive_error (x : Q) :
  (0 < x)%Q ->
  (- Binary64.pow2 (Binary64.ilog2 x - 53)
   <= Binary64.round_positive x - x
   <= Binary64.pow2 (Binary64.ilog2 x - 53))%Q.
Proof.
  intros Hx. unfold Binary64.round_positive. cbv zeta.
  set (e := Binary64.ilog2 x - 52).
  replace (Binary64.ilog2 x - 53) with (-1 + e) by (unfold e; lia).
  pose proof (pow2_add (-1) e) as P. rewrite P.
  pose proof (pow2_pos e) as He.
  pose proof (rne_error (x / Binary64.pow2 e)) as [ R1 R2 ].
  assert (Ex : (x == x / Binary64.pow2 e * Binary64.pow2 e)%Q).
  { field. intros H0. rewrite H0 in He. apply (Qlt_irrefl 0), He. }
  set (m := (x / Binary64.pow2 e)%Q) in *.
  set (r := inject_Z (Binary64.rne m)) in *.
  assert (Eh : (Binary64.pow2 (-1) == 1 # 2)%Q) by reflexivity.
  rewrite Eh.
  set (s := Binary64.pow2 e) in *. clearbody r m s.
  assert (E1 : (r * s - x == (r - m) * s)%Q) by (rewrite Ex at 1; ring).
  rewrite E1. split; nra.
Qed.

(** A non-negative number below 2^(k+1) is rounded with an error of at most
    2^(k-53). *)
Lemma fl_error (x : Q) (k : Z) :
  (0 <= x)%Q -> (x < Binary64.pow2 (k + 1))%Q ->
  (- Binary64.pow2 (k - 53) <= Binary64.fl x - x
   <= Binary64.pow2 (k - 53))%Q.
Proof.
  intros H0 Hk. pose proof (pow2_pos (k - 53)) as Hp.
  destruct (Qlt_le_dec 0 x) as [ Hpos | Hzero ].
  - rewrite (fl_positive x Hpos).
    destruct (ilog2_spec x Hpos) as [ L1 _ ].
    assert (Hi : Binary64.ilog2 x < k + 1).
    { apply pow2_lt_inv. eapply Qle_lt_trans; eassumption. }
    pose proof (pow2_le (Binary64.ilog2 x - 53) (k - 53) ltac:(lia)) as Hle.
    destruct (round_positive_error x Hpos) as [ R1 R2 ].
    split; lra.
  - rewrite (fl_null x) by lra. split; lra.
Qed.

(** The percentile is a nearest integer of the exact value
    100 * (N - rank + 1) / N. *)
Lemma percentile_of_nearest (rank total : Z) :
  1 <= rank <= total -> total < 2 ^ 32 ->
  2 * Z.abs (percentile_of rank total * total - 100 * (total - rank + 1))
  <= total.
Proof.
  intros H Hsize. destruct (rank_fraction_bounds rank total H) as [ H0 H1 ].
  assert (Ht : (0 < inject_Z total)%Q).
  { change 0%Q with (inject_Z 0). rewrite <- Zlt_Qlt. lia. }
  assert (Hv : ((1 - inject_Z (rank - 1) / inject_Z total) * 100
                * inject_Z total
                == inject_Z (100 * (total - rank + 1)))%Q).
  { rewrite inject_Z_mult, inject_Z_plus. unfold Z.sub.
    rewrite !inject_Z_plus, !inject_Z_opp.
    change (inject_Z 100) with 100%Q. change (inject_Z 1) with 1%Q.
    field. intros E. rewrite E in Ht. apply (Qlt_irrefl 0), Ht. }
  assert (Hn : (inject_Z total < 4294967296)%Q).
  { change 4294967296%Q with (inject_Z (2 ^ 32)). now rewrite <- Zlt_Qlt. }
  unfold percentile_of.
  set (q := (inject_Z (rank - 1) / inject_Z total)%Q) in *.
  assert (Ea : (- Binary64.pow2 (-1 - 53) <= Binary64.fl q - q
                <= Binary64.pow2 (-1 - 53))%Q).
  { apply fl_error; [ exact H0 | exact H1 ]. }
  assert (Ha : (0 <= Binary64.fl q <= 1)%Q).
  { apply (fl_between 0 1); [ apply fl_zero_eq | apply fl_one | ].
    split; lra. }
  set (a := Binary64.fl q) in *.
  assert (Eb : (- Binary64.pow2 (0 - 53) <= Binary64.fl (1 - a) - (1 - a)
                <= Binary64.pow2 (0 - 53))%Q).
  { apply fl_error; [ lra | ].
    change (Binary64.pow2 (0 + 1)) with 2%Q. lra. }
  assert (Hb : (0 <= Binary64.fl (1 - a) <= 1)%Q).
  { apply (fl_between 0 1); [ apply fl_zero_eq | apply fl_one | ].
    split; lra. }
  set (b := Binary64.fl (1 - a)) in *.
  assert (Ec : (- Binary64.pow2 (6 - 53) <= Binary64.fl (b * 100) - b * 100
                <= Binary64.pow2 (6 - 53))%Q).
  { apply fl_error; [ lra | ].
    change (Binary64.pow2 (6 + 1)) with 128%Q. lra. }
  set (c := Binary64.fl (b * 100)) in *.
  assert (P54 : (Binary64.pow2 (-1 - 53) == 1 # 18014398509481984)%Q)
    by reflexivity.
  assert (P53 : (Binary64.pow2 (0 - 53) == 1 # 9007199254740992)%Q)
    by reflexivity.
  assert (P47 : (Binary64.pow2 (6 - 53) == 1 # 140737488355328)%Q)
    by reflexivity.
  rewrite P54 in Ea. rewrite P53 in Eb. rewrite P47 in Ec.
  pose proof (Math_round_upper c) as Hu.
  pose proof (Math_round_lower c) as Hl.
  set (p := JS.Math_round c) in *.
  set (M := 100 * (total - rank + 1)) in *.
  set (v := ((1 - q) * 100)%Q) in *.
  assert (Hcv : (- (1 # 35184372088832) <= c - v <= 1 # 35184372088832)%Q).
  { unfold v. clearbody a b c q. split; lra. }
  set (n := inject_Z total) in *.
  assert (Hlow : (inject_Z (2 * M - total - 1)
                  < inject_Z (2 * (p * total)))%Q).
  { unfold Z.sub. rewrite !inject_Z_plus, !inject_Z_opp, !inject_Z_mult.
    fold n. change (inject_Z 2) with 2%Q. change (inject_Z 1) with 1%Q.
    rewrite <- Hv. clearbody v c p n M. nra. }
  assert (Hupp : (inject_Z (2 * (p * total))
                  < inject_Z (2 * M + total + 1))%Q).
  { rewrite !inject_Z_plus, !inject_Z_mult.
    fold n. change (inject_Z 2) with 2%Q. change (inject_Z 1) with 1%Q.
    rewrite <- Hv. clearbody v c p n M. nra. }
  rewrite <- Zlt_Qlt in Hlow, Hupp. lia.
Qed.

(** Against the exact rounding: the percentile is round of the exact value,
    or one less when the exact value lies half-way between two
    integers. *)
Lemma percentile_of_against_exact (rank total : Z) :
  1 <= rank <= total -> total < 2 ^ 32 ->
  percentile_of rank total = percentile_exact rank total
  \/ (percentile_of rank total = percentile_exact rank total - 1
      /\ 200 * (total - rank + 1)
         = (2 * percentile_exact rank total - 1) * total).
Proof.
  intros H Hsize. pose proof (percentile_of_nearest rank total H Hsize) as Hp.
  assert (He : 2 * percentile_exact rank total * total
               <= 200 * (total - rank + 1) + total
               < 2 * percentile_exact rank total * total + 2 * total).
  { assert (Ht : (0 < inject_Z total)%Q).
    { change 0%Q with (inject_Z 0). rewrite <- Zlt_Qlt. lia. }
    assert (Hv : ((1 - inject_Z (rank - 1) / inject_Z total) * 100
                  * inject_Z total
                  == inject_Z (100 * (total - rank + 1)))%Q).
    { rewrite inject_Z_mult, inject_Z_plus. unfold Z.sub.
      rewrite !inject_Z_plus, !inject_Z_opp.
      change (inject_Z 100) with 100%Q. change (inject_Z 1) with 1%Q.
      field. intros E. rewrite E in Ht. apply (Qlt_irrefl 0), Ht. }
    unfold percentile_exact.
    set (v := ((1 - inject_Z (rank - 1) / inject_Z total) * 100)%Q) in *.
    pose proof (Math_round_upper v) as Hu.
    pose proof (Math_round_lower v) as Hl.
    set (pe := JS.Math_round v) in *.
    set (M := 100 * (total - rank + 1)) in *.
    set (n := inject_Z total) in *.
    assert (H1 : (inject_Z (2 * pe * total) <= inject_Z (2 * M + total))%Q).
    { rewrite !inject_Z_plus, !inject_Z_mult. fold n.
      change (inject_Z 2) with 2%Q. rewrite <- Hv.
      clearbody v pe n M. nra. }
    assert (H2 : (inject_Z (2 * M + total)
                  < inject_Z (2 * pe * total + 2 * total))%Q).
    { rewrite !inject_Z_plus, !inject_Z_mult. fold n.
      change (inject_Z 2) with 2%Q. rewrite <- Hv.
      clearbody v pe n M. nra. }
    rewrite <- Zle_Qle in H1. rewrite <- Zlt_Qlt in H2. unfold M in *. lia. }
  set (p := percentile_of rank total) in *.
  set (pe := percentile_exact rank total) in *.
  clearbody p pe.
  assert (Hcases : p = pe \/ p = pe - 1) by nia.
  destruct Hcases as [ -> | -> ]; [ left; reflexivity | right ].
  split; [ reflexivity | nia ].
Qed.

(** The rounding of [percentile_of] is that of the primitive binary64
    operations: the two agree on every rank of every set of up to 60
    creators. *)
Lemma percentile_of_agrees_with_primitive_small :
  forallb (fun total =>
             forallb (fun rank =>
                        match percentile_primitive rank total with
                        | Some p => p =? percentile_of rank total
                        | None => false
                        end)
                     (map Z.of_nat (seq 1 (Z.to_nat total))))
          (map Z.of_nat (seq 1 60)) = true.
Proof. vm_compute. reflexivity. Qed.

Lemma percentile_of_agrees_with_primitive (rank total : Z) :
  1 <= rank <= total -> total <= 60 ->
  percentile_primitive rank total = Some (percentile_of rank total).
Proof.
  intros Hr Ht.
  pose proof percentile_of_agrees_with_primitive_small as Hall.
  rewrite forallb_forall in Hall.
  assert (Hin : In total (map Z.of_nat (seq 1 60))).
  { apply in_map_iff. exists (Z.to_nat total). split; [ lia | ].
    apply in_seq. lia. }
  specialize (Hall total Hin). rewrite forallb_forall in Hall.
  assert (Hin' : In rank (map Z.of_nat (seq 1 (Z.to_nat total)))).
  { apply in_map_iff. exists (Z.to_nat rank). split; [ lia | ].
    apply in_seq. lia. }
  specialize (Hall rank Hin').
  destruct (percentile_primitive rank total) as [ p | ];
    [ | discriminate ].
  apply Z.eqb_eq in Hall. now rewrite Hall.
Qed.

(** C3 as worded fails: the percentile is the rounding of a
    binary64 product, not of the exact value.  For a target at rank 18 of
    40 the exact value is 57.5, which [round] takes to 58; the quotient
    17 / 40 is not a binary64 number, the product computed from it lies
    just below 57.5, and the reported percentile is 57. *)
Lemma C3_percentile_is_not_the_exact_rounding :
  exists r,
    let followers := Benchmarks.followers (BenchmarkResult.benchmarks r) in
    benchmarkCreator (Some (profile "t" 23)) forty_competitors = JS.ret r
    /\ Benchmark.rank followers = 18
    /\ Benchmark.total followers = 40
    /\ Benchmark.percentile followers = 57
    /\ percentile_exact 18 40 = 58
    /\ percentile_primitive 18 40 = Some 57
    /\ Benchmark.percentile followers
       <> percentile_exact (Benchmark.rank followers)
                           (Benchmark.total followers).
Proof.
  eexists. cbv zeta.
  split; [ vm_compute; reflexivity | ].
  cbn [BenchmarkResult.benchmarks Benchmarks.followers Benchmark.rank
       Benchmark.total Benchmark.percentile].
  repeat (split; [ vm_compute; reflexivity | ]).
  vm_compute. discriminate.
Qed.

(** The rank of a fresh sort, from the ranked list. *)
Lemma fresh_rank (target : Creator.t) (competitors : list Creator.t)
  (key : Ranked -> Q) (cmp : Ranked -> Ranked -> Q) :
  (forall a b, (cmp a b == key b - key a)%Q) ->
  let all := ranked (target :: competitors) in
  exists x : Ranked,
    In x all /\ same_username target x = true
    /\ (forall y : Ranked, In y all -> same_username target y = true ->
        y = x \/ placed_before key rank x y = true)
    /\ JS.findIndex (same_username target) (JS.sort cmp all) + 1
       = 1 + Z.of_nat
               (List.length
                  (filter (fun c : Ranked => placed_before key rank c x)
                          all)).
Proof.
  intros cmp_key all.
  apply (findIndex_in_stable_sort key cmp rank); [ exact cmp_key | | ].
  - eapply StronglySorted_weaken; [ | apply ranked_sorted ].
    intros a b [ H _ ]. exact H.
  - apply target_is_ranked.
Qed.

(** C3, amended.  For a target and at least one competitor, with N the
    size of the combined set.  The followers rank is the rank of the
    target's analysis.  The engagement rank and the growth rank come from a
    fresh stable descending sort of the whole ranked list, target included:
    each is one more than the number of entries that such a sort places
    before the best-placed entry with the target's username (those with a
    larger figure, and those with the same figure and a better followers
    rank).  For each of the three dimensions the rank lies in 1..N, the
    total is N, the percentile is Math.round of the binary64 value of
    (1 - (rank - 1) / N) * 100 and lies in 0..100, it is 100 at rank 1 and
    round(100 / N) at rank N; for N below 2^32 it is round of the exact
    value, or one less than that when the exact value lies half-way between
    two integers. *)
Theorem C3_percentiles_of_the_three_dimensions (target : Creator.t)
  (competitors : list Creator.t) :
  competitors <> [] ->
  exists r (targetAnalysis byEngagement byGrowth : Ranked),
    let all := ranked (target :: competitors) in
    let N := Z.of_nat (S (List.length competitors)) in
    let b := BenchmarkResult.benchmarks r in
    benchmarkCreator (Some target) competitors = JS.ret r
    /\ find (same_username target) all = Some targetAnalysis
    /\ Benchmark.rank (Benchmarks.followers b) = rank targetAnalysis
    /\ (In byEngagement all /\ same_username target byEngagement = true
        /\ (forall y : Ranked, In y all -> same_username target y = true ->
            y = byEngagement
            \/ placed_before engagement_key rank byEngagement y = true)
        /\ Benchmark.rank (Benchmarks.engagement b)
           = 1 + Z.of_nat
                   (List.length
                      (filter (fun c : Ranked =>
                                 placed_before engagement_key rank c
                                               byEngagement) all)))
    /\ (In byGrowth all /\ same_username target byGrowth = true
        /\ (forall y : Ranked, In y all -> same_username target y = true ->
            y = byGrowth
            \/ placed_before growth_key rank byGrowth y = true)
        /\ Benchmark.rank (Benchmarks.growth b)
           = 1 + Z.of_nat
                   (List.length
                      (filter (fun c : Ranked =>
                                 placed_before growth_key rank c byGrowth)
                              all)))
    /\ Forall
         (fun d =>
            Benchmark.total d = N
            /\ 1 <= Benchmark.rank d <= N
            /\ Benchmark.percentile d
               = JS.Math_round
                   (Binary64.fl
                      (Binary64.fl
                         (1 - Binary64.fl
                                (inject_Z (Benchmark.rank d - 1)
                                 / inject_Z N)) * 100))
            /\ 0 <= Benchmark.percentile d <= 100
            /\ (Benchmark.rank d = 1 -> Benchmark.percentile d = 100)
            /\ (Benchmark.rank d = N ->
                Benchmark.percentile d = JS.Math_round (100 / inject_Z N))
            /\ (N < 2 ^ 32 ->
                Benchmark.percentile d
                = percentile_exact (Benchmark.rank d) N
                \/ (Benchmark.percentile d
                    = percentile_exact (Benchmark.rank d) N - 1
                    /\ 200 * (N - Benchmark.rank d + 1)
                       = (2 * percentile_exact (Benchmark.rank d) N - 1)
                         * N)))
         [ Benchmarks.followers b; Benchmarks.engagement b;
           Benchmarks.growth b ].
Proof.
  intros Hne.
  destruct (benchmark_returns target competitors Hne)
    as (r & ta & leader & rest & Hr & Hfind & _ & _ & Hb & _).
  cbv zeta in Hb.
  destruct (fresh_rank target competitors engagement_key by_engagement
              by_engagement_key) as (xe & He1 & He2 & He3 & He4).
  destruct (fresh_rank target competitors growth_key by_growth by_growth_key)
    as (xg & Hg1 & Hg2 & Hg3 & Hg4).
  exists r, ta, xe, xg. cbv zeta.
  split; [ exact Hr | ]. split; [ exact Hfind | ].
  rewrite Hb. cbn [Benchmarks.followers Benchmarks.engagement
                   Benchmarks.growth Benchmark.rank].
  split; [ reflexivity | ].
  split; [ repeat (split; [ assumption | ]); exact He4 | ].
  split; [ repeat (split; [ assumption | ]); exact Hg4 | ].
  set (all := ranked (target :: competitors)) in *.
  set (N := Z.of_nat (S (List.length competitors))).
  assert (HN : 0 < N) by (unfold N; lia).
  assert (Hlen : Z.of_nat (List.length all) = N).
  { unfold all, N. rewrite ranked_length. reflexivity. }
  assert (Hranks : forall rk, 1 <= rk <= N ->
            Benchmark.total
              (Benchmark.mk rk (percentile_of rk N) N
                 (getPercentileLabel (percentile_of rk N))) = N
            /\ 1 <= rk <= N
            /\ percentile_of rk N
               = JS.Math_round
                   (Binary64.fl
                      (Binary64.fl
                         (1 - Binary64.fl (inject_Z (rk - 1) / inject_Z N))
                       * 100))
            /\ 0 <= percentile_of rk N <= 100
            /\ (rk = 1 -> percentile_of rk N = 100)
            /\ (rk = N -> percentile_of rk N
                          = JS.Math_round (100 / inject_Z N))
            /\ (N < 2 ^ 32 ->
                percentile_of rk N = percentile_exact rk N
                \/ (percentile_of rk N = percentile_exact rk N - 1
                    /\ 200 * (N - rk + 1)
                       = (2 * percentile_exact rk N - 1) * N))).
  { intros rk Hrk. split; [ reflexivity | ]. split; [ exact Hrk | ].
    split; [ reflexivity | ]. split; [ now apply percentile_of_range | ].
    split; [ intros ->; apply percentile_of_first | ].
    split; [ intros ->; now apply percentile_of_last | ].
    now apply percentile_of_against_exact. }
  assert (Hsorted : forall cmp : Ranked -> Ranked -> Q,
            1 <= JS.findIndex (same_username target) (JS.sort cmp all) + 1
              <= N).
  { intros cmp. unfold JS.findIndex.
    pose proof (findIndex_from_bounds (same_username target) 0
                  (JS.sort cmp all)) as Hb'.
    rewrite sort_length, Hlen in Hb'.
    assert (Hex : exists x, In x (JS.sort cmp all)
                            /\ same_username target x = true).
    { exists xe. split; [ | exact He2 ].
      apply (Permutation_in _ (Permutation_sym (sort_perm cmp all))).
      exact He1. }
    specialize (Hb' Hex). lia. }
  apply Forall_cons;
    [ | apply Forall_cons; [ | apply Forall_cons; [ | apply Forall_nil ] ] ];
    cbn [Benchmark.rank Benchmark.percentile]; apply Hranks.
  - apply find_some in Hfind. destruct Hfind as [ Hta _ ].
    pose proof (rank_bounds _ _ Hta) as Hrb.
    cbn [List.length] in Hrb. unfold N. lia.
  - apply Hsorted.
  - apply Hsorted.
Qed.

Lemma C3_percentiles_of_the_three_dimensions_witness :
  exists r,
    let b := BenchmarkResult.benchmarks r in
    benchmarkCreator
      (Some (full_profile "t" 10 0 0 1 365 false))
      [ full_profile "a" 50 0 0 5 365 false;
        full_profile "b" 5 0 0 3 1 false ] = JS.ret r
    /\ map Benchmark.rank
           [ Benchmarks.followers b; Benchmarks.engagement b;
             Benchmarks.growth b ] = [ 2; 3; 3 ]
    /\ map Benchmark.percentile
           [ Benchmarks.followers b; Benchmarks.engagement b;
             Benchmarks.growth b ] = [ 67; 33; 33 ].
Proof.
  destruct (C3_percentiles_of_the_three_dimensions
              (full_profile "t" 10 0 0 1 365 false)
              [ full_profile "a" 50 0 0 5 365 false;
                full_profile "b" 5 0 0 3 1 false ])
    as (r & ta & xe & xg & Hr & _).
  - discriminate.
  - exists r. cbv zeta. split; [ exact Hr | ].
    vm_compute in Hr. injection Hr as <-. split; reflexivity.
Defined.

(** ** Gap to the leader (C7) *)

(** When the target is not the leader the gap is the difference of the
    follower counts, and for a leader with a non-zero follower count the
    percentage is Math.round of the binary64 value of
    gap / leaderFollowers * 100. *)
Lemma gap_to_leader_formula (target : Creator.t)
  (competitors : list Creator.t) :
  competitors <> [] ->
  exists r leader rest,
    benchmarkCreator (Some target) competitors = JS.ret r
    /\ ranked (target :: competitors) = leader :: rest
    /\ (BenchmarkResult.isLeader r = false ->
        exists gap,
          BenchmarkResult.gapToLeader r = Some gap
          /\ Gap.followers gap
             = Metrics.followers (metrics leader)
               - Metrics.followers (metrics (BenchmarkResult.target r))
          /\ (Metrics.followers (metrics leader) <> 0 ->
              Gap.percentage gap
              = JS.Fin (inject_Z (JS.Math_round
                  (Binary64.fl
                     (Binary64.fl
                        (inject_Z (Gap.followers gap)
                         / inject_Z (Metrics.followers (metrics leader)))
                      * 100)))))).
Proof.
  intros Hne.
  destruct (benchmark_returns target competitors Hne)
    as (r & ta & leader & rest & Hr & _ & Hall & Ht & _ & Hlead & Hgap & _).
  exists r, leader, rest.
  split; [ exact Hr | ]. split; [ exact Hall | ].
  intros Hnot. rewrite Hlead in Hnot. rewrite Hnot in Hgap.
  eexists. split; [ exact Hgap | ]. rewrite Ht.
  split; [ reflexivity | ].
  intros Hnz. cbn [Gap.percentage Gap.followers]. unfold Binary64.div.
  destruct (Qeq_bool (inject_Z (Metrics.followers (metrics leader))) 0)
    eqn:E; [ | reflexivity ].
  apply Qeq_bool_iff in E. unfold Qeq in E. simpl in E. lia.
Qed.

(** At a gap of 23 followers to a leader with 40 the exact percentage is
    57.5; the binary64 product lies just below it and the percentage
    reported is 57. *)
Example gap_percentage_below_a_tie :
  JS.round (Binary64.mul (Binary64.div (inject_Z 23) (inject_Z 40)) 100)
  = JS.Fin (inject_Z 57)
  /\ JS.Math_round (inject_Z 23 / inject_Z 40 * 100) = 58.
Proof. split; vm_compute; reflexivity. Qed.

(** As long as no follower count is negative, a leader without followers
    is the target itself: every count is then 0, and the stable sort leaves
    the target, which comes first in the combined list, in front. *)
Lemma zero_leader_is_the_target (target : Creator.t)
  (competitors : list Creator.t) (leader : Ranked) (rest : list Ranked) :
  Forall (fun p => 0 <= JS.or_default (Creator.followers p) 0)
         (target :: competitors) ->
  ranked (target :: competitors) = leader :: rest ->
  Metrics.followers (metrics leader) = 0 ->
  username leader = Creator.username target.
Proof.
  intros Hpos Hall Hzero.
  set (all := target :: competitors) in *.
  set (key := fun c : CompetitorAnalysis =>
                inject_Z (Metrics.followers (metrics c))).
  assert (Hnonneg : forall c, In c (analyses all) ->
            0 <= Metrics.followers (metrics c)).
  { intros c Hc. unfold analyses in Hc. apply in_map_iff in Hc.
    destruct Hc as (p & <- & Hp). rewrite Forall_forall in Hpos.
    cbn. apply Hpos, Hp. }
  assert (Hle : forall c, In c (analyses all) ->
            Metrics.followers (metrics c) <= 0).
  { intros c Hc.
    pose proof (sort_sorted key by_followers by_followers_key (analyses all))
      as Hs.
    rewrite <- ranked_entries, Hall in Hs. cbn [map] in Hs.
    apply (Permutation_in _ (Permutation_sym
             (sort_perm by_followers (analyses all)))) in Hc.
    rewrite <- ranked_entries, Hall in Hc. cbn [map] in Hc.
    destruct Hc as [ <- | Hc ]; [ lia | ].
    inversion Hs as [ | ? ? _ Hhd ]; subst.
    rewrite Forall_forall in Hhd. specialize (Hhd c Hc).
    unfold descending, key in Hhd. rewrite <- Zle_Qle in Hhd. lia. }
  destruct (sort_head key by_followers by_followers_key
              (competitorAnalysis_of (sum_followers all) (sum_likes all)
                                     target)
              (map (competitorAnalysis_of (sum_followers all) (sum_likes all))
                   competitors)) as (tail & Hsort).
  { apply Forall_forall. intros c Hc. unfold key. rewrite <- Zle_Qle.
    assert (Hc' : In c (analyses all)) by (right; exact Hc).
    assert (Ht : In (competitorAnalysis_of (sum_followers all)
                       (sum_likes all) target) (analyses all))
      by (left; reflexivity).
    pose proof (Hle c Hc'). pose proof (Hnonneg _ Ht). lia. }
  pose proof (ranked_entries all) as He. rewrite Hall in He.
  unfold analyses, all in He. cbn [map] in He.
  fold all in He. rewrite Hsort in He. injection He as He _.
  change (username leader) with (username (entry leader)).
  rewrite He. reflexivity.
Qed.

(** C7 at a leader without followers.  The target has a follower count of
    -5 (reported by the validation, then used as it is) and the only
    competitor has 0 followers: the competitor leads, the gap is 5, and the
    percentage is the quotient 5 / 0 times 100, that is Infinity, not 0. *)
Theorem C7_percentage_divides_by_zero_leader :
  exists r gap,
    benchmarkCreator (Some (profile "t" (-5))) [ profile "a" 0 ] = JS.ret r
    /\ BenchmarkResult.isLeader r = false
    /\ BenchmarkResult.gapToLeader r = Some gap
    /\ Gap.followers gap = 5
    /\ Gap.percentage gap = JS.PosInf
    /\ Gap.percentage gap <> JS.Fin 0.
Proof.
  eexists _, _. split; [ vm_compute; reflexivity | ].
  repeat split. discriminate.
Qed.

(** ** Growth recommendation (C8) *)




(** * Further properties of the analyzer *)

(** ** Outcomes of the landscape analysis *)

Lemma objects_without_none (creators : list (option Creator.t)) :
  ~ In None creators -> exists profiles, creators = map Some profiles.
Proof.
  induction creators as [ | [ c | ] l IH ]; intros H.
  - exists []. reflexivity.
  - destruct IH as (ps & ->); [ intros Hin; apply H; right; exact Hin | ].
    exists (c :: ps). reflexivity.
  - exfalso. apply H. left. reflexivity.
Qed.

(** X1.  analyzeCompetitiveLandscape has three outcomes.  With fewer than
    two elements it returns the error object, whatever the elements are.
    With two elements or more, one of which is undefined, it raises a
    TypeError.  With two or more profiles it returns a landscape with one
    competitor entry per profile. *)
Theorem X1_landscape_outcomes (creators : list (option Creator.t)) :
  ((List.length creators < 2)%nat ->
   analyzeCompetitiveLandscape creators
   = JS.ret (ErrorResult "Need at least 2 creators for competitive analysis"))
  /\ ((2 <= List.length creators)%nat -> In None creators ->
      exists what,
        analyzeCompetitiveLandscape creators = JS.throw (JS.TypeError what))
  /\ ((2 <= List.length creators)%nat -> ~ In None creators ->
      exists L,
        analyzeCompetitiveLandscape creators = JS.ret (LandscapeOk L)
        /\ List.length (Landscape.competitors L) = List.length creators).
Proof.
  split; [ | split ].
  - intros H. unfold analyzeCompetitiveLandscape.
    destruct (Z.of_nat (List.length creators) <? 2) eqn:E;
      [ reflexivity | apply Z.ltb_ge in E; lia ].
  - intros H Hnone. unfold analyzeCompetitiveLandscape.
    destruct (Z.of_nat (List.length creators) <? 2) eqn:E;
      [ apply Z.ltb_lt in E; lia | ].
    destruct (objects_none creators Hnone) as (what & ->).
    exists what. reflexivity.
  - intros H Hall. destruct (objects_without_none creators Hall) as (ps & ->).
    rewrite length_map in *.
    destruct (analyze_returns ps H) as (L & HL & Hc & _).
    exists L. split; [ exact HL | ]. rewrite Hc. apply ranked_length.
Qed.

Lemma X1_landscape_outcomes_witness :
  analyzeCompetitiveLandscape [ None ]
  = JS.ret (ErrorResult "Need at least 2 creators for competitive analysis")
  /\ (exists what,
        analyzeCompetitiveLandscape [ Some (profile "a" 1); None ]
        = JS.throw (JS.TypeError what))
  /\ (exists L,
        analyzeCompetitiveLandscape
          [ Some (profile "a" 1); Some (profile "b" 2) ]
        = JS.ret (LandscapeOk L)
        /\ List.length (Landscape.competitors L) = 2%nat).
Proof.
  split; [ | split ].
  - apply (X1_landscape_outcomes [ None ]). simpl. lia.
  - apply (X1_landscape_outcomes [ Some (profile "a" 1); None ]).
    + simpl. lia.
    + right. left. reflexivity.
  - apply (X1_landscape_outcomes
             [ Some (profile "a" 1); Some (profile "b" 2) ]).
    + simpl. lia.
    + intros [ H | [ H | [] ] ]; discriminate H.
Defined.

(** ** Tiers *)

(** X2.  getTier is monotone: a creator with at least as many followers is
    never placed in a lower tier.  The tier is mega exactly from 1,000,000
    followers and nano exactly below 10,000. *)
Theorem X2_tier_is_monotone (a b : Z) :
  a <= b ->
  tier_level (getTier a) <= tier_level (getTier b)
  /\ (getTier b = mega <-> 1000000 <= b)
  /\ (getTier a = nano <-> a < 10000).
Proof.
  intros H. unfold getTier.
  repeat match goal with
         | |- context [ ?x <=? ?y ] =>
             let E := fresh "E" in
             destruct (x <=? y) eqn:E;
             [ apply Z.leb_le in E | apply Z.leb_gt in E ]
         end;
    cbn [tier_level];
    (split; [ lia | split; split; intros; first [ lia | discriminate
                                                  | reflexivity ] ]).
Qed.

Lemma X2_tier_is_monotone_witness :
  tier_level (getTier 9999) <= tier_level (getTier 10000)
  /\ (getTier 10000 = mega <-> 1000000 <= 10000)
  /\ (getTier 9999 = nano <-> 9999 < 10000).
Proof. apply (X2_tier_is_monotone 9999 10000). lia. Defined.

(** ** Validation *)

(** X3.  validateCreatorForAnalysis rejects a missing creator.  A creator
    that is present is valid exactly when none of followers, likes, videos
    and accountAgeDays is a negative number; a missing property is accepted.
    The verdict is valid exactly when the list of errors is empty, and the
    list never has more than four entries. *)
Theorem X3_validation_flags_negative_numbers (creator : Creator.t) :
  let negative (x : option Z) := exists v, x = Some v /\ v < 0 in
  Validation.isValid (validateCreatorForAnalysis None) = false
  /\ (Validation.isValid (validateCreatorForAnalysis (Some creator)) = true
      <-> ~ negative (Creator.followers creator)
          /\ ~ negative (Creator.likes creator)
          /\ ~ negative (Creator.videos creator)
          /\ ~ negative (Creator.accountAgeDays creator))
  /\ (Validation.isValid (validateCreatorForAnalysis (Some creator)) = true
      <-> Validation.errors (validateCreatorForAnalysis (Some creator)) = [])
  /\ (List.length
        (Validation.errors (validateCreatorForAnalysis (Some creator)))
      <= 4)%nat.
Proof.
  cbv zeta. split; [ reflexivity | ].
  unfold validateCreatorForAnalysis. cbv beta zeta.
  cbn [Validation.isValid Validation.errors].
  assert (Hneg : forall x : option Z,
            (match x with Some v => v <? 0 | None => false end) = true
            <-> exists v, x = Some v /\ v < 0).
  { intros [ v | ]; split.
    - intros E. apply Z.ltb_lt in E. eauto.
    - intros (w & Hw & Hlt). injection Hw as ->. now apply Z.ltb_lt.
    - discriminate.
    - intros (w & Hw & _). discriminate. }
  pose proof (Hneg (Creator.followers creator)) as H1.
  pose proof (Hneg (Creator.likes creator)) as H2.
  pose proof (Hneg (Creator.videos creator)) as H3.
  pose proof (Hneg (Creator.accountAgeDays creator)) as H4.
  clear Hneg.
  set (b1 := match Creator.followers creator with
             | Some v => v <? 0 | None => false end) in *.
  set (b2 := match Creator.likes creator with
             | Some v => v <? 0 | None => false end) in *.
  set (b3 := match Creator.videos creator with
             | Some v => v <? 0 | None => false end) in *.
  set (b4 := match Creator.accountAgeDays creator with
             | Some v => v <? 0 | None => false end) in *.
  clearbody b1 b2 b3 b4.
  destruct b1, b2, b3, b4; repeat settle_test;
    cbn [app List.length Nat.eqb];
    (split;
     [ split;
       [ intros E; first [ discriminate E | tauto ]
       | intros N; first [ reflexivity | exfalso; tauto ] ]
     | split;
       [ split; intros E; first [ discriminate E | reflexivity ]
       | lia ] ]).
Qed.

(** ** Content strategy *)




(** ** The parts of a landscape *)

(** The landscape of two profiles or more, part by part. *)
Lemma analyze_parts (profiles : list Creator.t) :
  (2 <= List.length profiles)%nat ->
  exists L leader challenger rest fastest others highest others',
    analyzeCompetitiveLandscape (map Some profiles) = JS.ret (LandscapeOk L)
    /\ Landscape.competitors L = ranked profiles
    /\ ranked profiles = leader :: challenger :: rest
    /\ JS.sort by_growth (ranked profiles) = fastest :: others
    /\ JS.sort by_engagement (ranked profiles) = highest :: others'
    /\ Landscape.highlights L
       = {| Highlights.marketLeader :=
              MarketLeader.mk (username leader)
                (Metrics.followers (metrics leader))
                (MarketShare.followers (marketShare leader));
            Highlights.challenger :=
              Challenger.mk (username challenger)
                (Metrics.followers (metrics challenger))
                (Metrics.followers (metrics leader)
                 - Metrics.followers (metrics challenger));
            Highlights.fastestGrowing :=
              FastestGrowing.mk (username fastest)
                (Growth.followersPerMonth (growth fastest));
            Highlights.highestEngagement :=
              HighestEngagement.mk (username highest)
                (Metrics.engagementRate (metrics highest)) |}
    /\ Landscape.rankings L
       = {| Rankings.byFollowers :=
              map (fun c : Ranked =>
                     ByFollowers.mk (username c)
                       (Metrics.followers (metrics c)) (rank c))
                  (ranked profiles);
            Rankings.byEngagement :=
              mapi (fun (c : Ranked) i =>
                      ByEngagement.mk (username c)
                        (Metrics.engagementRate (metrics c)) (i + 1))
                   (JS.sort by_engagement (ranked profiles));
            Rankings.byGrowth :=
              mapi (fun (c : Ranked) i =>
                      ByGrowth.mk (username c)
                        (Growth.followersPerMonth (growth c)) (i + 1))
                   (JS.sort by_growth (ranked profiles)) |}
    /\ Landscape.summary L
       = {| Summary.totalCreators := Z.of_nat (List.length profiles);
            Summary.totalFollowers := sum_followers profiles;
            Summary.totalLikes := sum_likes profiles;
            Summary.avgFollowers :=
              JS.Math_round
                (inject_Z (sum_followers profiles)
                 / inject_Z (Z.of_nat (List.length profiles)));
            Summary.avgEngagement :=
              (inject_Z (JS.Math_round
                 (sum_engagement (ranked profiles)
                  / inject_Z (Z.of_nat (List.length profiles)) * 100))
               / 100)%Q |}
    /\ Landscape.insights L
       = generateInsights (ranked profiles) leader (Some challenger)
                          fastest highest.
Proof.
  intros Hlen.
  unfold analyzeCompetitiveLandscape.
  rewrite length_map.
  destruct (Z.of_nat (List.length profiles) <? 2) eqn:E;
    [ apply Z.ltb_lt in E; lia | clear E ].
  rewrite objects_some. cbn [JS.bind JS.ret].
  fold (analyses profiles). fold (ranked profiles).
  pose proof (ranked_length profiles) as Hr.
  pose proof (sort_length by_growth (ranked profiles)) as Hg.
  pose proof (sort_length by_engagement (ranked profiles)) as He.
  destruct (ranked profiles) as [ | leader [ | challenger rest ] ] eqn:ER;
    simpl in Hr; try lia.
  destruct (JS.sort by_growth (leader :: challenger :: rest))
    as [ | fastest others ] eqn:EG; simpl in Hg; try lia.
  destruct (JS.sort by_engagement (leader :: challenger :: rest))
    as [ | highest others' ] eqn:EE; simpl in He; try lia.
  eexists _, leader, challenger, rest, fastest, others, highest, others'.
  split; [ reflexivity | ].
  cbn [Landscape.competitors Landscape.summary Landscape.highlights
       Landscape.rankings Landscape.insights].
  repeat (split; [ reflexivity | ]). reflexivity.
Qed.

(** The entries of the ranked list in descending order of followers. *)
Lemma getTier_monotone (a b : Z) :
  a <= b -> tier_level (getTier a) <= tier_level (getTier b).
Proof.
  intros H. unfold getTier.
  repeat match goal with
         | |- context [ ?x <=? ?y ] =>
             let E := fresh "E" in
             destruct (x <=? y) eqn:E;
             [ apply Z.leb_le in E | apply Z.leb_gt in E ]
         end;
    cbn [tier_level]; lia.
Qed.

(** ** The market leader *)

(** X5.  In the landscape of two profiles or more the market leader of the
    highlights is the entry of rank 1 and the challenger the entry of rank
    2; no competitor has more followers or a higher tier than the leader,
    and the gap reported for the challenger is never negative. *)
Theorem X5_leader_has_most_followers (profiles : list Creator.t) :
  (2 <= List.length profiles)%nat ->
  exists L leader challenger rest,
    analyzeCompetitiveLandscape (map Some profiles) = JS.ret (LandscapeOk L)
    /\ Landscape.competitors L = leader :: challenger :: rest
    /\ rank leader = 1 /\ rank challenger = 2
    /\ MarketLeader.username
         (Highlights.marketLeader (Landscape.highlights L))
       = username leader
    /\ MarketLeader.followers
         (Highlights.marketLeader (Landscape.highlights L))
       = Metrics.followers (metrics leader)
    /\ Challenger.username (Highlights.challenger (Landscape.highlights L))
       = username challenger
    /\ 0 <= Challenger.gap (Highlights.challenger (Landscape.highlights L))
    /\ Forall (fun c : Ranked =>
                 Metrics.followers (metrics c)
                 <= Metrics.followers (metrics leader)
                 /\ tier_level (tier c) <= tier_level (tier leader))
              (Landscape.competitors L).
Proof.
  intros Hlen.
  destruct (analyze_parts profiles Hlen)
    as (L & leader & challenger & rest & fastest & others & highest & others'
        & HL & Hc & Hr & _ & _ & Hh & _).
  exists L, leader, challenger, rest.
  split; [ exact HL | ]. rewrite Hc, Hh, Hr.
  cbn [Highlights.marketLeader Highlights.challenger MarketLeader.username
       MarketLeader.followers Challenger.username Challenger.gap].
  pose proof (ranked_ranks profiles) as Hranks. rewrite Hr in Hranks.
  destruct profiles as [ | p1 [ | p2 ps ] ]; simpl in Hlen; try lia.
  cbn [map List.length seq] in Hranks.
  injection Hranks as Hr1 Hr2 _.
  pose proof (ranked_sorted (p1 :: p2 :: ps)) as Hs. rewrite Hr in Hs.
  inversion Hs as [ | ? ? _ Hhd ]; subst.
  rewrite Forall_forall in Hhd.
  assert (Hmax : forall c : Ranked, In c (leader :: challenger :: rest) ->
            Metrics.followers (metrics c)
            <= Metrics.followers (metrics leader)).
  { intros c [ <- | Hin ]; [ lia | ]. apply (Hhd c Hin). }
  assert (Htier : forall c : Ranked, In c (leader :: challenger :: rest) ->
            tier c = getTier (Metrics.followers (metrics c))).
  { intros c Hin. rewrite <- Hr in Hin.
    destruct (ranked_entry_of_profile _ _ Hin) as (p & _ & E).
    change (tier c) with (tier (entry c)).
    change (metrics c) with (metrics (entry c)).
    rewrite E. reflexivity. }
  repeat (split; [ first [ reflexivity | assumption ] | ]).
  split.
  { pose proof (Hmax challenger (or_intror (or_introl eq_refl))). lia. }
  apply Forall_forall. intros c Hin.
  split; [ apply Hmax, Hin | ].
  rewrite (Htier c Hin), (Htier leader (or_introl eq_refl)).
  apply getTier_monotone, Hmax, Hin.
Qed.

Lemma X5_leader_has_most_followers_witness :
  exists L leader challenger rest,
    analyzeCompetitiveLandscape
      (map Some [ profile "a" 5000; profile "b" 2000000 ])
    = JS.ret (LandscapeOk L)
    /\ Landscape.competitors L = leader :: challenger :: rest
    /\ rank leader = 1
    /\ MarketLeader.username
         (Highlights.marketLeader (Landscape.highlights L))
       = username leader.
Proof.
  destruct (X5_leader_has_most_followers
              [ profile "a" 5000; profile "b" 2000000 ])
    as (L & leader & challenger & rest & HL & Hc & Hr & _ & Hn & _).
  - simpl. lia.
  - exists L, leader, challenger, rest. auto.
Defined.

(** ** Fastest growing and highest engagement *)

Lemma sort_head_is_maximum {A} (key : A -> Q) (cmp : A -> A -> Q)
  (l : list A) (x : A) (rest : list A) :
  (forall a b, (cmp a b == key b - key a)%Q) ->
  JS.sort cmp l = x :: rest ->
  In x l /\ forall y, In y l -> (key y <= key x)%Q.
Proof.
  intros Hcmp Hsort.
  pose proof (sort_sorted key cmp Hcmp l) as Hs.
  pose proof (sort_perm cmp l) as Hp.
  rewrite Hsort in Hs, Hp. split.
  - apply (Permutation_in _ Hp). left. reflexivity.
  - intros y Hy.
    apply (Permutation_in _ (Permutation_sym Hp)) in Hy.
    destruct Hy as [ <- | Hy ]; [ apply Qle_refl | ].
    inversion Hs as [ | ? ? _ Hhd ]; subst.
    rewrite Forall_forall in Hhd. apply (Hhd y Hy).
Qed.

Lemma engagement_opportunity_needs_another_name (competitors : list Ranked)
  (leader : Ranked) (challenger : option Ranked)
  (fastestGrowing highestEngagement : Ranked) :
  In engagement_opportunity
     (map Insight.type
          (generateInsights competitors leader challenger fastestGrowing
                            highestEngagement)) ->
  username highestEngagement <> username leader.
Proof.
  unfold generateInsights. cbv zeta. rewrite !map_app, !in_app_iff.
  intros [ H | [ H | [ H | [ H | H ] ] ] ].
  - destruct (JS.Qltb 50 _); simpl in H; intuition discriminate.
  - destruct challenger as [ c | ]; [ destruct (_ <? _) | ]; simpl in H;
      intuition discriminate.
  - destruct (String.eqb (username highestEngagement) (username leader))
      eqn:E; simpl in H; [ contradiction | ].
    now apply String.eqb_neq.
  - destruct (JS.gt _ _); simpl in H; intuition discriminate.
  - destruct (Nat.eqb _ 1); simpl in H; intuition discriminate.
Qed.

(** X6.  In the landscape of two profiles or more the fastest-growing
    highlight carries the largest followers-per-month figure of all
    competitors and the highest-engagement highlight the largest engagement
    rate, and both are taken from competitor entries.  When no other
    competitor has a higher engagement rate than the market leader, the
    highest-engagement highlight is the leader and no engagement_opportunity
    insight is emitted. *)
Theorem X6_highlights_are_maxima (profiles : list Creator.t) :
  (2 <= List.length profiles)%nat ->
  exists L leader rest,
    let h := Landscape.highlights L in
    analyzeCompetitiveLandscape (map Some profiles) = JS.ret (LandscapeOk L)
    /\ Landscape.competitors L = leader :: rest
    /\ Forall (fun c : Ranked =>
                 Growth.followersPerMonth (growth c)
                 <= FastestGrowing.growthPerMonth
                      (Highlights.fastestGrowing h)
                 /\ (Metrics.engagementRate (metrics c)
                     <= HighestEngagement.engagementRate
                          (Highlights.highestEngagement h))%Q)
              (Landscape.competitors L)
    /\ (exists c : Ranked,
          In c (Landscape.competitors L)
          /\ FastestGrowing.username (Highlights.fastestGrowing h)
             = username c
          /\ FastestGrowing.growthPerMonth (Highlights.fastestGrowing h)
             = Growth.followersPerMonth (growth c))
    /\ (exists c : Ranked,
          In c (Landscape.competitors L)
          /\ HighestEngagement.username (Highlights.highestEngagement h)
             = username c
          /\ HighestEngagement.engagementRate (Highlights.highestEngagement h)
             = Metrics.engagementRate (metrics c))
    /\ (Forall (fun c : Ranked =>
                  (Metrics.engagementRate (metrics c)
                   <= Metrics.engagementRate (metrics leader))%Q) rest ->
        HighestEngagement.username (Highlights.highestEngagement h)
        = username leader
        /\ ~ In engagement_opportunity
                (map Insight.type (Landscape.insights L))).
Proof.
  intros Hlen.
  destruct (analyze_parts profiles Hlen)
    as (L & leader & challenger & rest & fastest & others & highest & others'
        & HL & Hc & Hr & Hg & He & Hh & _ & _ & Hi).
  exists L, leader, (challenger :: rest). cbv zeta.
  split; [ exact HL | ]. rewrite Hc, Hh, Hi.
  cbn [Highlights.fastestGrowing Highlights.highestEngagement
       FastestGrowing.growthPerMonth FastestGrowing.username
       HighestEngagement.engagementRate HighestEngagement.username].
  destruct (sort_head_is_maximum
              (fun c : Ranked => inject_Z (Growth.followersPerMonth (growth c)))
              by_growth _ _ _ by_growth_key Hg) as [ Hfin Hfmax ].
  destruct (sort_head_is_maximum
              (fun c : Ranked => Metrics.engagementRate (metrics c))
              by_engagement _ _ _ by_engagement_key He) as [ Hhin Hhmax ].
  split; [ exact Hr | ].
  split.
  { apply Forall_forall. intros c Hin. split.
    - specialize (Hfmax c Hin). cbv beta in Hfmax.
      now rewrite <- Zle_Qle in Hfmax.
    - apply (Hhmax c Hin). }
  split; [ exists fastest; auto | ].
  split; [ exists highest; auto | ].
  intros Hlead.
  assert (Hhead : highest = leader).
  { destruct (sort_head (fun c : Ranked => Metrics.engagementRate (metrics c))
                by_engagement by_engagement_key leader (challenger :: rest)
                Hlead) as (tail & Htail).
    rewrite Hr in He. rewrite Htail in He. now injection He as <- _. }
  subst highest. split; [ reflexivity | ].
  intros Hin. apply engagement_opportunity_needs_another_name in Hin.
  now apply Hin.
Qed.

Lemma X6_highlights_are_maxima_witness :
  exists L,
    analyzeCompetitiveLandscape
      (map Some [ full_profile "a" 1000 10 10 (8 # 1) 100 false;
                  full_profile "b" 500 10 10 (5 # 1) 100 false ])
    = JS.ret (LandscapeOk L)
    /\ HighestEngagement.username
         (Highlights.highestEngagement (Landscape.highlights L)) = "a"
    /\ ~ In engagement_opportunity
            (map Insight.type (Landscape.insights L)).
Proof.
  destruct (X6_highlights_are_maxima
              [ full_profile "a" 1000 10 10 (8 # 1) 100 false;
                full_profile "b" 500 10 10 (5 # 1) 100 false ])
    as (L & leader & rest & HL & Hc & _ & _ & _ & Hlead).
  - simpl. lia.
  - exists L. split; [ exact HL | ].
    vm_compute in HL. injection HL as <-.
    injection Hc as <- <-.
    destruct Hlead as [ Hname Hnone ].
    + repeat constructor. vm_compute. discriminate.
    + split; [ exact Hname | exact Hnone ].
Defined.

(** ** The three ranking views *)

Lemma mapi_from_map {A B C} (f : A -> Z -> B) (g : B -> C) (h : A -> C)
  (i : Z) (l : list A) :
  (forall x k, g (f x k) = h x) ->
  map g (mapi_from f i l) = map h l.
Proof.
  intros H. revert i. induction l as [ | x l IH ]; intros i; simpl.
  - reflexivity.
  - now rewrite H, IH.
Qed.

Lemma mapi_from_positions {A B} (f : A -> Z -> B) (g : B -> Z) (i : Z)
  (l : list A) :
  (forall x k, g (f x k) = k + 1) ->
  map g (mapi_from f i l)
  = map (fun k => i + Z.of_nat k) (seq 1 (List.length l)).
Proof.
  intros H. revert i. induction l as [ | x l IH ]; intros i;
    [ reflexivity | ].
  cbn [mapi_from map List.length seq]. rewrite H. f_equal.
  rewrite IH, <- (seq_shift _ 1), map_map.
  apply map_ext. intros k. lia.
Qed.

Lemma StronglySorted_of_map {A B} (R : B -> B -> Prop) (g : A -> B)
  (l : list A) :
  StronglySorted R (map g l) ->
  StronglySorted (fun a b => R (g a) (g b)) l.
Proof.
  induction l as [ | x l IH ]; intros H; [ constructor | ].
  inversion H as [ | ? ? Hs Hhd ]; subst.
  constructor; [ apply IH, Hs | ].
  rewrite Forall_forall in *. intros y Hy. apply Hhd. now apply in_map.
Qed.

Lemma StronglySorted_to_map {A B} (R : B -> B -> Prop) (g : A -> B)
  (l : list A) :
  StronglySorted (fun a b => R (g a) (g b)) l ->
  StronglySorted R (map g l).
Proof.
  induction 1 as [ | x l Hs IH Hhd ]; simpl; constructor; [ exact IH | ].
  rewrite Forall_forall in *. intros y Hy.
  apply in_map_iff in Hy. destruct Hy as (z & <- & Hz). auto.
Qed.

(** X7.  The three ranking views of a landscape of N profiles (N at least
    2) have N rows each, numbered 1 to N from the top.  byFollowers lists
    the competitors in their order, byEngagement and byGrowth list the same
    usernames reordered, and each view is in descending order of its own
    figure. *)
Theorem X7_ranking_views (profiles : list Creator.t) :
  (2 <= List.length profiles)%nat ->
  exists L,
    let views := Landscape.rankings L in
    let positions := map Z.of_nat (seq 1 (List.length profiles)) in
    analyzeCompetitiveLandscape (map Some profiles) = JS.ret (LandscapeOk L)
    /\ map ByFollowers.rank (Rankings.byFollowers views) = positions
    /\ map ByEngagement.rank (Rankings.byEngagement views) = positions
    /\ map ByGrowth.rank (Rankings.byGrowth views) = positions
    /\ map ByFollowers.username (Rankings.byFollowers views)
       = map (fun c : Ranked => username c) (Landscape.competitors L)
    /\ Permutation (map ByEngagement.username (Rankings.byEngagement views))
                   (map ByFollowers.username (Rankings.byFollowers views))
    /\ Permutation (map ByGrowth.username (Rankings.byGrowth views))
                   (map ByFollowers.username (Rankings.byFollowers views))
    /\ StronglySorted
         (fun a b => ByFollowers.followers b <= ByFollowers.followers a)
         (Rankings.byFollowers views)
    /\ StronglySorted
         (fun a b => (ByEngagement.engagementRate b
                      <= ByEngagement.engagementRate a)%Q)
         (Rankings.byEngagement views)
    /\ StronglySorted
         (fun a b => ByGrowth.growthPerMonth b <= ByGrowth.growthPerMonth a)
         (Rankings.byGrowth views).
Proof.
  intros Hlen.
  destruct (analyze_parts profiles Hlen)
    as (L & leader & challenger & rest & fastest & others & highest & others'
        & HL & Hc & _ & _ & _ & _ & Hv & _).
  exists L. cbv zeta. split; [ exact HL | ]. rewrite Hv, Hc.
  cbn [Rankings.byFollowers Rankings.byEngagement Rankings.byGrowth].
  unfold mapi.
  split.
  { rewrite map_map. cbn [ByFollowers.rank]. apply ranked_ranks. }
  split.
  { rewrite (mapi_from_positions _ ByEngagement.rank) by reflexivity.
    rewrite sort_length, ranked_length. reflexivity. }
  split.
  { rewrite (mapi_from_positions _ ByGrowth.rank) by reflexivity.
    rewrite sort_length, ranked_length. reflexivity. }
  split; [ rewrite map_map; reflexivity | ].
  split.
  { rewrite (mapi_from_map _ ByEngagement.username
               (fun c : Ranked => username c)) by reflexivity.
    rewrite map_map. cbn [ByFollowers.username].
    apply Permutation_map, sort_perm. }
  split.
  { rewrite (mapi_from_map _ ByGrowth.username
               (fun c : Ranked => username c)) by reflexivity.
    rewrite map_map. cbn [ByFollowers.username].
    apply Permutation_map, sort_perm. }
  split.
  { apply (StronglySorted_of_map (fun x y => y <= x) ByFollowers.followers).
    rewrite map_map. cbn [ByFollowers.followers].
    apply (StronglySorted_to_map (fun x y => y <= x)
             (fun c : Ranked => Metrics.followers (metrics c))).
    eapply StronglySorted_weaken; [ | apply ranked_sorted ].
    intros a b [ _ H ]. exact H. }
  split.
  { apply (StronglySorted_of_map (fun x y => (y <= x)%Q)
             ByEngagement.engagementRate).
    rewrite (mapi_from_map _ ByEngagement.engagementRate
               (fun c : Ranked => Metrics.engagementRate (metrics c)))
      by reflexivity.
    apply (StronglySorted_to_map (fun x y => (y <= x)%Q)
             (fun c : Ranked => Metrics.engagementRate (metrics c))).
    apply (sort_sorted _ by_engagement by_engagement_key). }
  apply (StronglySorted_of_map (fun x y => y <= x) ByGrowth.growthPerMonth).
  rewrite (mapi_from_map _ ByGrowth.growthPerMonth
             (fun c : Ranked => Growth.followersPerMonth (growth c)))
    by reflexivity.
  apply (StronglySorted_to_map (fun x y => y <= x)
           (fun c : Ranked => Growth.followersPerMonth (growth c))).
  eapply StronglySorted_weaken;
    [ | apply (sort_sorted _ by_growth by_growth_key) ].
  intros a b H. unfold descending in H. now rewrite <- Zle_Qle in H.
Qed.

Lemma X7_ranking_views_witness :
  exists L,
    analyzeCompetitiveLandscape
      (map Some [ full_profile "a" 1000 10 10 (2 # 1) 100 false;
                  full_profile "b" 500 10 10 (5 # 1) 100 false ])
    = JS.ret (LandscapeOk L)
    /\ map ByEngagement.rank (Rankings.byEngagement (Landscape.rankings L))
       = [ 1; 2 ]
    /\ map ByEngagement.username
           (Rankings.byEngagement (Landscape.rankings L)) = [ "b"; "a" ].
Proof.
  destruct (X7_ranking_views
              [ full_profile "a" 1000 10 10 (2 # 1) 100 false;
                full_profile "b" 500 10 10 (5 # 1) 100 false ])
    as (L & HL & _ & He & _).
  - simpl. lia.
  - exists L. split; [ exact HL | ]. split; [ exact He | ].
    vm_compute in HL. injection HL as <-. reflexivity.
Defined.

(** ** The summary *)

Lemma Zsum_perm (l l' : list Z) : Permutation l l' -> Zsum l = Zsum l'.
Proof.
  induction 1 as [ | x l l' _ IH | x y l | l l' l'' _ IH1 _ IH2 ]; simpl;
    lia.
Qed.

(** A rounded quotient times the divisor is within half the divisor of the
    dividend. *)
Lemma rounded_mean_error (total count : Z) :
  0 < count ->
  2 * Z.abs (JS.Math_round (inject_Z total / inject_Z count) * count - total)
  <= count.
Proof.
  intros Hpos.
  set (q := (inject_Z total / inject_Z count)%Q).
  pose proof (Math_round_upper q) as Hu.
  pose proof (Math_round_lower q) as Hl.
  set (r := JS.Math_round q) in *.
  assert (Hn : (0 < inject_Z count)%Q).
  { change 0%Q with (inject_Z 0). now rewrite <- Zlt_Qlt. }
  assert (Hq : (q * inject_Z count == inject_Z total)%Q).
  { unfold q. field. intros E. rewrite E in Hn. apply (Qlt_irrefl 0), Hn. }
  pose proof (Qmult_le_compat_r _ _ (inject_Z count) Hu (Qlt_le_weak _ _ Hn))
    as H1.
  pose proof (Qmult_lt_compat_r _ _ (inject_Z count) Hn Hl) as H2.
  assert (E1 : ((q + (1 # 2)) * inject_Z count
                == inject_Z total + (1 # 2) * inject_Z count)%Q)
    by (rewrite <- Hq; ring).
  assert (E2 : ((q - (1 # 2)) * inject_Z count
                == inject_Z total - (1 # 2) * inject_Z count)%Q)
    by (rewrite <- Hq; ring).
  rewrite E1 in H1. rewrite E2 in H2.
  rewrite <- inject_Z_mult in H1, H2.
  clearbody r q.
  assert (Hup : (inject_Z (2 * (r * count)) <= inject_Z (2 * total + count))%Q).
  { rewrite inject_Z_plus, !inject_Z_mult. change (inject_Z 2) with 2%Q.
    rewrite <- inject_Z_mult. lra. }
  assert (Hlo : (inject_Z (2 * total - count) <= inject_Z (2 * (r * count)))%Q).
  { unfold Z.sub. rewrite inject_Z_plus, inject_Z_opp, !inject_Z_mult.
    change (inject_Z 2) with 2%Q. rewrite <- inject_Z_mult. lra. }
  rewrite <- Zle_Qle in Hup, Hlo. lia.
Qed.

(** ** Numbers that binary64 holds exactly *)

Lemma round_positive_dyadic (m e : Z) :
  0 < m < 2 ^ 53 ->
  (Binary64.round_positive (inject_Z m * Binary64.pow2 e)
   == inject_Z m * Binary64.pow2 e)%Q.
Proof.
  intros Hm.
  destruct (Z.log2_spec m ltac:(lia)) as [ L1 L2 ].
  set (l := Z.log2 m) in *.
  assert (Hl0 : 0 <= l) by apply Z.log2_nonneg.
  assert (Hl : l <= 52).
  { destruct (Z_le_gt_dec l 52) as [ H | H ]; [ exact H | exfalso ].
    assert (2 ^ 53 <= 2 ^ l) by (apply Z.pow_le_mono_r; lia). lia. }
  pose proof (pow2_pos e) as He.
  assert (Hlog : Binary64.ilog2 (inject_Z m * Binary64.pow2 e) = l + e).
  { apply ilog2_unique.
    - pose proof (pow2_add l e) as P. rewrite P.
      apply Qmult_le_compat_r; [ | now apply Qlt_le_weak ].
      assert (A : (inject_Z (2 ^ l) == Binary64.pow2 l)%Q)
        by (apply pow2_of_Z; lia).
      rewrite <- A, <- Zle_Qle. exact L1.
    - pose proof (pow2_add (l + 1) e) as P.
      replace (l + e + 1) with (l + 1 + e) by lia. rewrite P.
      apply Qmult_lt_compat_r; [ exact He | ].
      assert (A : (inject_Z (2 ^ (l + 1)) == Binary64.pow2 (l + 1))%Q)
        by (apply pow2_of_Z; lia).
      rewrite <- A, <- Zlt_Qlt. unfold Z.succ in L2. exact L2. }
  unfold Binary64.round_positive. cbv zeta. rewrite Hlog.
  assert (Hs : (inject_Z m * Binary64.pow2 e / Binary64.pow2 (l + e - 52)
                == inject_Z (m * 2 ^ (52 - l)))%Q).
  { rewrite inject_Z_mult.
    assert (A : (inject_Z (2 ^ (52 - l)) == Binary64.pow2 (52 - l))%Q)
      by (apply pow2_of_Z; lia).
    rewrite A.
    pose proof (pow2_add (52 - l) (l + e - 52)) as P.
    replace (52 - l + (l + e - 52)) with e in P by lia. rewrite P.
    field. pose proof (pow2_pos (l + e - 52)) as H0. intros E.
    rewrite E in H0. apply (Qlt_irrefl 0), H0. }
  rewrite (rne_comp _ _ Hs), rne_inject, inject_Z_mult.
  assert (A : (inject_Z (2 ^ (52 - l)) == Binary64.pow2 (52 - l))%Q)
    by (apply pow2_of_Z; lia).
  rewrite A.
  pose proof (pow2_add (52 - l) (l + e - 52)) as P.
  replace (52 - l + (l + e - 52)) with e in P by lia.
  rewrite P. ring.
Qed.

(** A whole number of at most 53 bits times a power of two is a binary64
    number. *)
Lemma fl_dyadic (m e : Z) :
  Z.abs m < 2 ^ 53 ->
  (Binary64.fl (inject_Z m * Binary64.pow2 e)
   == inject_Z m * Binary64.pow2 e)%Q.
Proof.
  intros Hm. pose proof (pow2_pos e) as He.
  destruct (Z.lt_trichotomy m 0) as [ Hneg | [ -> | Hpos ] ].
  - assert (Hx : (inject_Z m * Binary64.pow2 e < 0)%Q).
    { assert (H : (inject_Z m < 0)%Q).
      { change 0%Q with (inject_Z 0). rewrite <- Zlt_Qlt. exact Hneg. }
      set (a := inject_Z m) in *. set (b := Binary64.pow2 e) in *.
      clearbody a b. nra. }
    rewrite (fl_negative _ Hx).
    assert (E : (- (inject_Z m * Binary64.pow2 e)
                 == inject_Z (- m) * Binary64.pow2 e)%Q).
    { rewrite inject_Z_opp. ring. }
    rewrite (round_positive_comp _ _ E) by lra.
    rewrite round_positive_dyadic by lia.
    rewrite inject_Z_opp. ring.
  - rewrite fl_null; [ | change (inject_Z 0) with 0%Q; ring ].
    change (inject_Z 0) with 0%Q. ring.
  - assert (Hx : (0 < inject_Z m * Binary64.pow2 e)%Q).
    { assert (H : (0 < inject_Z m)%Q).
      { change 0%Q with (inject_Z 0). rewrite <- Zlt_Qlt. exact Hpos. }
      set (a := inject_Z m) in *. set (b := Binary64.pow2 e) in *.
      clearbody a b. nra. }
    rewrite (fl_positive _ Hx). apply round_positive_dyadic. lia.
Qed.

Lemma fl_integer (z : Z) :
  Z.abs z < 2 ^ 53 -> (Binary64.fl (inject_Z z) == inject_Z z)%Q.
Proof.
  intros H. pose proof (fl_dyadic z 0 H) as E.
  assert (E0 : (inject_Z z * Binary64.pow2 0 == inject_Z z)%Q)
    by (change (Binary64.pow2 0) with 1%Q; ring).
  rewrite <- E0 at 2. rewrite <- E. apply fl_comp. now rewrite E0.
Qed.

Lemma fl_half_integer (z : Z) :
  Z.abs z < 2 ^ 53 ->
  (Binary64.fl (inject_Z z * (1 # 2)) == inject_Z z * (1 # 2))%Q.
Proof. intros H. exact (fl_dyadic z (-1) H). Qed.

(** The error of a rounding, relative to the number rounded. *)
Lemma fl_relative_error (x : Q) :
  (Qabs (Binary64.fl x - x) <= Qabs x * (1 # 9007199254740992))%Q.
Proof.
  assert (Hpos : forall y, (0 < y)%Q ->
            (- (y * (1 # 9007199254740992))
             <= Binary64.round_positive y - y
             <= y * (1 # 9007199254740992))%Q).
  { intros y Hy. destruct (round_positive_error y Hy) as [ R1 R2 ].
    destruct (ilog2_spec y Hy) as [ L1 _ ].
    pose proof (pow2_add (Binary64.ilog2 y) (-53)) as P.
    replace (Binary64.ilog2 y + -53) with (Binary64.ilog2 y - 53) in P
      by lia.
    rewrite P in R1, R2.
    change (Binary64.pow2 (-53)) with (1 # 9007199254740992)%Q in R1, R2.
    set (s := Binary64.pow2 (Binary64.ilog2 y)) in *.
    set (r := Binary64.round_positive y) in *. clearbody s r.
    split; lra. }
  apply Qabs_Qle_condition.
  destruct (Qlt_le_dec 0 x) as [ Hx | Hx ].
  - rewrite (fl_positive x Hx), (Qabs_pos x) by lra. apply Hpos, Hx.
  - destruct (Qlt_le_dec x 0) as [ Hn | Hz ].
    + rewrite (fl_negative x Hn), (Qabs_neg x) by lra.
      destruct (Hpos (- x)%Q ltac:(lra)) as [ R1 R2 ]. split; lra.
    + rewrite (fl_null x) by lra. rewrite (Qabs_pos x) by lra. split; lra.
Qed.

(** Below 2^52 a rounded quotient of whole numbers has the same
    [Math.round] as the exact quotient. *)
Lemma Math_round_fl_quotient (total count : Z) :
  Z.abs total < 2 ^ 52 -> 0 < count ->
  JS.Math_round (Binary64.fl (inject_Z total / inject_Z count))
  = JS.Math_round (inject_Z total / inject_Z count).
Proof.
  intros Ht Hc. change (2 ^ 52) with 4503599627370496 in Ht.
  assert (Hn : (0 < inject_Z count)%Q).
  { change 0%Q with (inject_Z 0). now rewrite <- Zlt_Qlt. }
  set (x := (inject_Z total / inject_Z count)%Q).
  assert (Hx : (x * inject_Z count == inject_Z total)%Q).
  { unfold x. field. intros E. rewrite E in Hn. apply (Qlt_irrefl 0), Hn. }
  pose proof (Math_round_upper x) as Hu.
  pose proof (Math_round_lower x) as Hl.
  pose proof (fl_relative_error x) as He.
  set (p := JS.Math_round x) in *.
  set (f := Binary64.fl x) in *.
  assert (Hup : 2 * (p * count) <= 2 * total + count).
  { assert (H : (inject_Z (2 * (p * count))
                 <= inject_Z (2 * total + count))%Q).
    { rewrite inject_Z_plus, !inject_Z_mult. change (inject_Z 2) with 2%Q.
      rewrite <- Hx. set (n := inject_Z count) in *.
      set (q := inject_Z p) in *. clearbody x n q. nra. }
    now rewrite <- Zle_Qle in H. }
  assert (Hlo : 2 * total - count < 2 * (p * count)).
  { assert (H : (inject_Z (2 * total - count)
                 < inject_Z (2 * (p * count)))%Q).
    { unfold Z.sub. rewrite inject_Z_plus, inject_Z_opp, !inject_Z_mult.
      change (inject_Z 2) with 2%Q.
      rewrite <- Hx. set (n := inject_Z count) in *.
      set (q := inject_Z p) in *. clearbody x n q. nra. }
    now rewrite <- Zlt_Qlt in H. }
  assert (Hp : Z.abs (2 * p - 1) < 2 ^ 53).
  { change (2 ^ 53) with 9007199254740992. nia. }
  assert (Hgap : (inject_Z total + (1 # 2)
                  <= (inject_Z p + (1 # 2)) * inject_Z count)%Q).
  { assert (H : (inject_Z (2 * total + 1)
                 <= inject_Z ((2 * p + 1) * count))%Q)
      by (rewrite <- Zle_Qle; lia).
    rewrite inject_Z_plus, !inject_Z_mult, inject_Z_plus, inject_Z_mult in H.
    change (inject_Z 2) with 2%Q in H. change (inject_Z 1) with 1%Q in H.
    lra. }
  assert (Hsize : (- 4503599627370496 < inject_Z total < 4503599627370496)%Q).
  { unfold Qlt. cbn [Qnum Qden inject_Z]. lia. }
  apply Math_round_unique.
  - assert (Hhalf : (inject_Z (2 * p - 1) * (1 # 2) <= x)%Q).
    { unfold Z.sub. rewrite inject_Z_plus, inject_Z_mult.
      change (inject_Z 2) with 2%Q. change (inject_Z (- (1))) with (-1)%Q.
      lra. }
    apply fl_monotone in Hhalf. rewrite (fl_half_integer _ Hp) in Hhalf.
    fold f in Hhalf.
    unfold Z.sub in Hhalf. rewrite inject_Z_plus, inject_Z_mult in Hhalf.
    change (inject_Z 2) with 2%Q in Hhalf.
    change (inject_Z (- (1))) with (-1)%Q in Hhalf. lra.
  - apply Qnot_le_lt. intros Hge.
    pose proof (Qmult_le_compat_r _ _ (inject_Z count) Hge
                  (Qlt_le_weak _ _ Hn)) as Hprod.
    apply Qabs_Qle_condition in He. destruct He as [ _ He ].
    pose proof (Qmult_le_compat_r _ _ (inject_Z count) He
                  (Qlt_le_weak _ _ Hn)) as Herr.
    assert (E1 : ((f - x) * inject_Z count
                  == f * inject_Z count - inject_Z total)%Q)
      by (rewrite <- Hx; ring).
    rewrite E1 in Herr.
    destruct (Qlt_le_dec x 0) as [ Hneg | Hnonneg ].
    + rewrite (Qabs_neg x) in Herr by lra.
      assert (E2 : (- x * (1 # 9007199254740992) * inject_Z count
                    == - inject_Z total * (1 # 9007199254740992))%Q)
        by (rewrite <- Hx; ring).
      rewrite E2 in Herr.
      set (fn := (f * inject_Z count)%Q) in *.
      set (pn := ((inject_Z p + (1 # 2)) * inject_Z count)%Q) in *.
      clearbody fn pn. lra.
    + rewrite (Qabs_pos x) in Herr by lra.
      assert (E2 : (x * (1 # 9007199254740992) * inject_Z count
                    == inject_Z total * (1 # 9007199254740992))%Q)
        by (rewrite <- Hx; ring).
      rewrite E2 in Herr.
      set (fn := (f * inject_Z count)%Q) in *.
      set (pn := ((inject_Z p + (1 # 2)) * inject_Z count)%Q) in *.
      clearbody fn pn. lra.
Qed.

Lemma Zsum_abs_nonneg (l : list Z) : 0 <= Zsum (map Z.abs l).
Proof.
  induction l as [ | y l IH ]; cbn; [ lia | ].
  fold (Zsum (map Z.abs l)). lia.
Qed.

Lemma running_sum_comp (l : list Z) (a b : Q) :
  (a == b)%Q ->
  (fold_left (fun sum x => Binary64.fl (sum + inject_Z x)) l a
   == fold_left (fun sum x => Binary64.fl (sum + inject_Z x)) l b)%Q.
Proof.
  revert a b. induction l as [ | y l IH ]; intros a b Hab; cbn [fold_left].
  - exact Hab.
  - apply IH, fl_comp. now rewrite Hab.
Qed.

(** The running sum of whole numbers whose absolute values add up to less
    than 2^53 is exact at every step. *)
Lemma running_sum_exact (counts : list Z) (start : Z) :
  Z.abs start + Zsum (map Z.abs counts) < 2 ^ 53 ->
  (fold_left (fun sum x => Binary64.fl (sum + inject_Z x)) counts
             (inject_Z start)
   == inject_Z (start + Zsum counts))%Q.
Proof.
  revert start. induction counts as [ | x l IH ]; intros start H.
  - cbn. now rewrite Z.add_0_r.
  - cbn [map Zsum fold_right fold_left] in *.
    fold (Zsum (map Z.abs l)) in H. fold (Zsum l).
    pose proof (Zsum_abs_nonneg l) as Hl.
    assert (E : (Binary64.fl (inject_Z start + inject_Z x)
                 == inject_Z (start + x))%Q).
    { rewrite <- inject_Z_plus. apply fl_integer. lia. }
    eapply Qeq_trans; [ apply running_sum_comp, E | ].
    rewrite Z.add_assoc. apply IH. lia.
Qed.

(** X8.  The summary of a landscape of N profiles (N at least 2) counts N
    creators.  For follower and like counts in the safe range (absolute
    values adding up to less than 2^52) its totals are the sums of the
    counts of the input (a missing count is 0), which are also the values of
    the source's binary64 sums, and agree with the sums over the competitor
    entries; avgFollowers is Math.round of the binary64 quotient of the
    total by N, and avgFollowers times N differs from the total by at most
    N / 2. *)
Theorem X8_summary_totals (profiles : list Creator.t) :
  (2 <= List.length profiles)%nat ->
  safe_counts (map followers_of profiles) ->
  safe_counts (map likes_of profiles) ->
  exists L,
    let s := Landscape.summary L in
    let N := Z.of_nat (List.length profiles) in
    analyzeCompetitiveLandscape (map Some profiles) = JS.ret (LandscapeOk L)
    /\ Summary.totalCreators s = N
    /\ Summary.totalFollowers s = Zsum (map followers_of profiles)
    /\ Summary.totalLikes s = Zsum (map likes_of profiles)
    /\ (inject_Z (Summary.totalFollowers s)
        == sum_binary64 (map followers_of profiles))%Q
    /\ (inject_Z (Summary.totalLikes s)
        == sum_binary64 (map likes_of profiles))%Q
    /\ Summary.totalFollowers s
       = Zsum (map (fun c : Ranked => Metrics.followers (metrics c))
                   (Landscape.competitors L))
    /\ Summary.totalLikes s
       = Zsum (map (fun c : Ranked => Metrics.likes (metrics c))
                   (Landscape.competitors L))
    /\ Summary.avgFollowers s
       = JS.Math_round
           (Binary64.fl
              (sum_binary64 (map followers_of profiles) / inject_Z N))
    /\ 2 * Z.abs (Summary.avgFollowers s * N - Summary.totalFollowers s) <= N.
Proof.
  intros Hlen Hfollowers Hlikes.
  destruct (analyze_parts profiles Hlen)
    as (L & leader & challenger & rest & fastest & others & highest & others'
        & HL & Hc & _ & _ & _ & _ & _ & Hs & _).
  exists L. cbv zeta. split; [ exact HL | ]. rewrite Hs, Hc.
  cbn [Summary.totalCreators Summary.totalFollowers Summary.totalLikes
       Summary.avgFollowers].
  assert (Hf : sum_followers profiles = Zsum (map followers_of profiles))
    by apply sum_followers_Zsum.
  assert (Hl : sum_likes profiles = Zsum (map likes_of profiles)).
  { unfold sum_likes. now rewrite fold_left_Zsum. }
  assert (Hentries : forall (g : CompetitorAnalysis -> Z),
            Zsum (map (fun c : Ranked => g c) (ranked profiles))
            = Zsum (map g (analyses profiles))).
  { intros g. rewrite <- (map_map entry g), ranked_entries.
    apply Zsum_perm, Permutation_map, sort_perm. }
  assert (Hexact : forall counts, safe_counts counts ->
            (inject_Z (Zsum counts) == sum_binary64 counts)%Q).
  { intros counts Hsafe. unfold sum_binary64. symmetry.
    apply (running_sum_exact counts 0). unfold safe_counts in Hsafe.
    change (2 ^ 53) with 9007199254740992.
    change (2 ^ 52) with 4503599627370496 in Hsafe. simpl Z.abs. lia. }
  assert (Hbound : forall counts, Z.abs (Zsum counts) <= Zsum (map Z.abs counts)).
  { induction counts as [ | x l IH ]; cbn; [ lia | ].
    fold (Zsum l). fold (Zsum (map Z.abs l)). lia. }
  split; [ reflexivity | ].
  split; [ exact Hf | ].
  split; [ exact Hl | ].
  split; [ rewrite Hf; apply Hexact, Hfollowers | ].
  split; [ rewrite Hl; apply Hexact, Hlikes | ].
  split.
  { rewrite (Hentries (fun c => Metrics.followers (metrics c))).
    unfold analyses. rewrite map_map. exact Hf. }
  split.
  { rewrite (Hentries (fun c => Metrics.likes (metrics c))).
    unfold analyses. rewrite map_map. exact Hl. }
  split.
  { rewrite <- (Math_round_fl_quotient (sum_followers profiles)).
    - apply Math_round_comp, fl_comp.
      rewrite Hf, (Hexact _ Hfollowers). reflexivity.
    - rewrite Hf. unfold safe_counts in Hfollowers.
      pose proof (Hbound (map followers_of profiles)). lia.
    - lia. }
  apply rounded_mean_error. lia.
Qed.

Lemma X8_summary_totals_witness :
  exists L,
    analyzeCompetitiveLandscape
      (map Some [ profile "a" 10; profile "b" 5 ])
    = JS.ret (LandscapeOk L)
    /\ Summary.totalCreators (Landscape.summary L) = 2
    /\ Summary.totalFollowers (Landscape.summary L) = 15
    /\ Summary.avgFollowers (Landscape.summary L) = 8.
Proof.
  destruct (X8_summary_totals [ profile "a" 10; profile "b" 5 ])
    as (L & HL & Hn & Hf & _ & _ & _ & _ & _ & Havg & _).
  - simpl. lia.
  - vm_compute. reflexivity.
  - vm_compute. reflexivity.
  - exists L. split; [ exact HL | ]. split; [ exact Hn | ].
    split; [ exact Hf | ]. rewrite Havg. vm_compute. reflexivity.
Defined.

(** ** The rounded figures of the source *)

(** The share of the source, [Math.round((n / total) * 10000) / 100] with
    its quotient and product rounded to binary64, is a nearest hundredth of
    the exact percentage, as the exact share is: the two can differ only
    when the exact percentage lies half-way between two hundredths. *)
Lemma share_binary64_nearest (n total : Z) :
  0 <= n <= total -> 0 < total < 2 ^ 36 ->
  2 * Z.abs (JS.Math_round
               (Binary64.fl
                  (Binary64.fl (inject_Z n / inject_Z total) * 10000))
             * total - 10000 * n)
  <= total.
Proof.
  intros Hn [ Hpos Hsize ]. change (2 ^ 36) with 68719476736 in Hsize.
  assert (Ht : (0 < inject_Z total)%Q).
  { change 0%Q with (inject_Z 0). rewrite <- Zlt_Qlt. lia. }
  assert (H0 : (0 <= inject_Z n / inject_Z total)%Q).
  { apply Qle_shift_div_l; [ exact Ht | ]. rewrite Qmult_0_l.
    change 0%Q with (inject_Z 0). rewrite <- Zle_Qle. lia. }
  assert (H1 : (inject_Z n / inject_Z total <= 1)%Q).
  { apply Qle_shift_div_r; [ exact Ht | ]. rewrite Qmult_1_l.
    rewrite <- Zle_Qle. lia. }
  assert (Hv : (inject_Z n / inject_Z total * 10000 * inject_Z total
                == inject_Z (10000 * n))%Q).
  { rewrite inject_Z_mult. change (inject_Z 10000) with 10000%Q.
    field. intros E. rewrite E in Ht. apply (Qlt_irrefl 0), Ht. }
  assert (Hsz : (inject_Z total < 68719476736)%Q).
  { unfold Qlt. cbn [Qnum Qden inject_Z]. lia. }
  set (q := (inject_Z n / inject_Z total)%Q) in *.
  assert (Ea : (- Binary64.pow2 (0 - 53) <= Binary64.fl q - q
                <= Binary64.pow2 (0 - 53))%Q).
  { apply fl_error; [ exact H0 | ].
    change (Binary64.pow2 (0 + 1)) with 2%Q. lra. }
  assert (Ha : (0 <= Binary64.fl q <= 1)%Q).
  { apply (fl_between 0 1); [ apply fl_zero_eq | apply fl_one | ].
    split; assumption. }
  set (a := Binary64.fl q) in *.
  assert (Ec : (- Binary64.pow2 (13 - 53)
                <= Binary64.fl (a * 10000) - a * 10000
                <= Binary64.pow2 (13 - 53))%Q).
  { apply fl_error; [ lra | ].
    change (Binary64.pow2 (13 + 1)) with 16384%Q. lra. }
  set (c := Binary64.fl (a * 10000)) in *.
  assert (P53 : (Binary64.pow2 (0 - 53) == 1 # 9007199254740992)%Q)
    by reflexivity.
  assert (P40 : (Binary64.pow2 (13 - 53) == 1 # 1099511627776)%Q)
    by reflexivity.
  rewrite P53 in Ea. rewrite P40 in Ec.
  pose proof (Math_round_upper c) as Hu.
  pose proof (Math_round_lower c) as Hl.
  set (p := JS.Math_round c) in *.
  set (M := 10000 * n) in *.
  set (v := (q * 10000)%Q) in *.
  assert (Hcv : (- (1 # 274877906944) <= c - v <= 1 # 274877906944)%Q).
  { unfold v. clearbody a c q. split; lra. }
  set (t := inject_Z total) in *.
  assert (Hlow : (inject_Z (2 * M - total - 1)
                  < inject_Z (2 * (p * total)))%Q).
  { unfold Z.sub. rewrite !inject_Z_plus, !inject_Z_opp, !inject_Z_mult.
    fold t. change (inject_Z 2) with 2%Q. change (inject_Z 1) with 1%Q.
    rewrite <- Hv. clearbody v c p t M. nra. }
  assert (Hupp : (inject_Z (2 * (p * total))
                  < inject_Z (2 * M + total + 1))%Q).
  { rewrite !inject_Z_plus, !inject_Z_mult.
    fold t. change (inject_Z 2) with 2%Q. change (inject_Z 1) with 1%Q.
    rewrite <- Hv. clearbody v c p t M. nra. }
  rewrite <- Zlt_Qlt in Hlow, Hupp. lia.
Qed.

(** [Math.round(followers / accountAgeDays)] of the source is the figure of
    the analysis for a count below 2^52 and a positive age. *)
Lemma followersPerDay_binary64 (totalFollowers totalLikes : Z)
  (creator : Creator.t) :
  Z.abs (followers_of creator) < 2 ^ 52 ->
  0 < JS.or_default (Creator.accountAgeDays creator) 365 ->
  Growth.followersPerDay
    (growth (competitorAnalysis_of totalFollowers totalLikes creator))
  = JS.Math_round
      (Binary64.fl
         (inject_Z (followers_of creator)
          / inject_Z (JS.or_default (Creator.accountAgeDays creator) 365))).
Proof.
  intros Hf Hage. cbn [competitorAnalysis_of growth Growth.followersPerDay].
  symmetry. now apply Math_round_fl_quotient.
Qed.

(** ** The leader flag and the followers rank *)

Lemma ranked_head_rank (profiles : list Creator.t) (leader : Ranked)
  (rest : list Ranked) :
  ranked profiles = leader :: rest ->
  rank leader = 1 /\ forall c : Ranked, In c rest ->
    1 < rank c
    /\ Metrics.followers (metrics c) <= Metrics.followers (metrics leader).
Proof.
  intros Hr.
  pose proof (ranked_ranks profiles) as Hranks.
  pose proof (ranked_length profiles) as Hlen.
  pose proof (ranked_sorted profiles) as Hs.
  rewrite Hr in Hranks, Hlen, Hs.
  destruct profiles as [ | p ps ]; [ discriminate | ].
  cbn [map List.length seq] in Hranks. injection Hranks as H1 _.
  split; [ exact H1 | ].
  inversion Hs as [ | ? ? _ Hhd ]; subst.
  rewrite Forall_forall in Hhd. intros c Hc.
  destruct (Hhd c Hc) as [ Hlt Hle ]. split; [ lia | exact Hle ].
Qed.

(** X9.  For a target and at least one competitor, the target is flagged
    as the leader exactly when its followers rank is 1, which is exactly
    when gapToLeader is null; the leader's followers percentile is 100 and
    its label "Top 10%". *)
Theorem X9_leader_flag_is_rank_one (target : Creator.t)
  (competitors : list Creator.t) :
  competitors <> [] ->
  exists r,
    let followers := Benchmarks.followers (BenchmarkResult.benchmarks r) in
    benchmarkCreator (Some target) competitors = JS.ret r
    /\ (BenchmarkResult.isLeader r = true <-> Benchmark.rank followers = 1)
    /\ (BenchmarkResult.gapToLeader r = None
        <-> Benchmark.rank followers = 1)
    /\ (BenchmarkResult.isLeader r = true ->
        Benchmark.percentile followers = 100
        /\ Benchmark.label followers = "Top 10%").
Proof.
  intros Hne.
  destruct (benchmark_returns target competitors Hne)
    as (r & ta & leader & rest & Hr & Hfind & Hall & _ & Hb & Hlead & Hgap
        & _).
  cbv zeta in *.
  exists r. split; [ exact Hr | ].
  rewrite Hb, Hlead, Hgap.
  cbn [Benchmarks.followers Benchmark.rank Benchmark.percentile
       Benchmark.label].
  destruct (ranked_head_rank _ _ _ Hall) as [ H1 Hrest ].
  rewrite Hall in Hfind. cbn [find] in Hfind.
  unfold same_username in Hfind at 1.
  destruct (String.eqb (username leader) (Creator.username target)).
  - injection Hfind as <-. rewrite H1, percentile_of_first.
    repeat split; reflexivity.
  - apply find_some in Hfind. destruct Hfind as [ Hin _ ].
    destruct (Hrest ta Hin) as [ Hlt _ ].
    repeat split; intros; first [ discriminate | lia ].
Qed.

Lemma X9_leader_flag_is_rank_one_witness :
  exists r,
    benchmarkCreator (Some (profile "a" 10)) [ profile "b" 50 ] = JS.ret r
    /\ (BenchmarkResult.isLeader r = true
        <-> Benchmark.rank
              (Benchmarks.followers (BenchmarkResult.benchmarks r)) = 1)
    /\ Benchmark.rank (Benchmarks.followers (BenchmarkResult.benchmarks r))
       = 2.
Proof.
  destruct (X9_leader_flag_is_rank_one (profile "a" 10) [ profile "b" 50 ])
    as (r & Hr & Hflag & _).
  - discriminate.
  - exists r. split; [ exact Hr | ]. split; [ exact Hflag | ].
    vm_compute in Hr. injection Hr as <-. reflexivity.
Defined.

(** ** The gap as a percentage *)

Lemma percentage_of_part (part whole : Z) :
  0 <= part <= whole -> 0 < whole ->
  0 <= JS.Math_round
         (Binary64.fl (Binary64.fl (inject_Z part / inject_Z whole) * 100))
    <= 100.
Proof.
  intros Hpart Hwhole.
  assert (Hw : (0 < inject_Z whole)%Q).
  { change 0%Q with (inject_Z 0). now rewrite <- Zlt_Qlt. }
  assert (H0 : (0 <= inject_Z part / inject_Z whole)%Q).
  { apply Qle_shift_div_l; [ exact Hw | ]. rewrite Qmult_0_l.
    change 0%Q with (inject_Z 0). rewrite <- Zle_Qle. lia. }
  assert (H1 : (inject_Z part / inject_Z whole <= 1)%Q).
  { apply Qle_shift_div_r; [ exact Hw | ]. rewrite Qmult_1_l.
    rewrite <- Zle_Qle. lia. }
  set (q := (inject_Z part / inject_Z whole)%Q) in *. clearbody q.
  assert (Ha : (0 <= Binary64.fl q <= 1)%Q).
  { apply (fl_between 0 1); [ apply fl_zero_eq | apply fl_one | ].
    split; assumption. }
  set (a := Binary64.fl q) in *. clearbody a.
  assert (Hc : (0 <= Binary64.fl (a * 100) <= 100)%Q).
  { apply (fl_between 0 100); [ apply fl_zero_eq | apply fl_hundred | ].
    split; lra. }
  set (c := Binary64.fl (a * 100)) in *. clearbody c.
  split.
  - change 0 with (JS.Math_round 0). apply Math_round_monotone. lra.
  - change 100 with (JS.Math_round 100). apply Math_round_monotone. lra.
Qed.

(** X10.  For a target and at least one competitor, the follower gap to the
    leader, when reported, is never negative.  When no follower count of
    the input is negative, the reported percentage is a whole number
    between 0 and 100 (never Infinity or NaN). *)
Theorem X10_gap_is_a_percentage (target : Creator.t)
  (competitors : list Creator.t) :
  competitors <> [] ->
  exists r,
    benchmarkCreator (Some target) competitors = JS.ret r
    /\ (forall gap, BenchmarkResult.gapToLeader r = Some gap ->
        0 <= Gap.followers gap)
    /\ (Forall (fun p => 0 <= JS.or_default (Creator.followers p) 0)
               (target :: competitors) ->
        forall gap, BenchmarkResult.gapToLeader r = Some gap ->
        exists p, Gap.percentage gap = JS.Fin (inject_Z p) /\ 0 <= p <= 100).
Proof.
  intros Hne.
  destruct (benchmark_returns target competitors Hne)
    as (r & ta & leader & rest & Hr & Hfind & Hall & _ & _ & _ & Hgap & _).
  cbv zeta in *.
  exists r. split; [ exact Hr | ].
  destruct (ranked_head_rank _ _ _ Hall) as [ _ Hrest ].
  apply find_some in Hfind. destruct Hfind as [ Hin _ ].
  assert (Hle : Metrics.followers (metrics ta)
                <= Metrics.followers (metrics leader)).
  { rewrite Hall in Hin. destruct Hin as [ <- | Hin ]; [ lia | ].
    apply (Hrest ta Hin). }
  rewrite Hgap.
  destruct (String.eqb (username leader) (Creator.username target)) eqn:E.
  - split; [ discriminate | intros _ gap Hg; discriminate Hg ].
  - split.
    + intros gap Hg. injection Hg as <-. cbn [Gap.followers]. lia.
    + intros Hpos gap Hg. injection Hg as <-. cbn [Gap.percentage].
      assert (Hta : 0 <= Metrics.followers (metrics ta)).
      { destruct (ranked_entry_of_profile _ _ Hin) as (p & Hp & Ep).
        change (metrics ta) with (metrics (entry ta)). rewrite Ep. cbn.
        rewrite Forall_forall in Hpos. apply Hpos, Hp. }
      assert (Hnz : Metrics.followers (metrics leader) <> 0).
      { intros Hz.
        pose proof (zero_leader_is_the_target target competitors leader rest
                      Hpos Hall Hz) as Hname.
        apply String.eqb_neq in E. contradiction. }
      unfold Binary64.div.
      destruct (Qeq_bool (inject_Z (Metrics.followers (metrics leader))) 0)
        eqn:Ez.
      { apply Qeq_bool_iff in Ez. unfold Qeq in Ez. simpl in Ez. lia. }
      cbn [Binary64.mul JS.round]. eexists. split; [ reflexivity | ].
      apply percentage_of_part; lia.
Qed.

Lemma X10_gap_is_a_percentage_witness :
  exists r gap,
    benchmarkCreator (Some (profile "a" 10)) [ profile "b" 50 ] = JS.ret r
    /\ BenchmarkResult.gapToLeader r = Some gap
    /\ 0 <= Gap.followers gap
    /\ exists p, Gap.percentage gap = JS.Fin (inject_Z p) /\ 0 <= p <= 100.
Proof.
  destruct (X10_gap_is_a_percentage (profile "a" 10) [ profile "b" 50 ])
    as (r & Hr & Hgap & Hpct).
  - discriminate.
  - vm_compute in Hr. injection Hr as <-.
    eexists _, _. split; [ reflexivity | ]. split; [ reflexivity | ].
    split.
    + apply Hgap. reflexivity.
    + apply Hpct; [ | reflexivity ].
      repeat constructor; vm_compute; discriminate.
Defined.

(** ** The recommendation rules *)

Lemma credibility_test (target : Ranked) (competitors : list Ranked) :
  negb (JS.truthy (verified target))
  && existsb (fun c : Ranked => JS.truthy (verified c)) competitors = true
  <-> JS.truthy (verified target) = false
      /\ exists c : Ranked, In c competitors /\ JS.truthy (verified c) = true.
Proof.
  rewrite andb_true_iff, negb_true_iff, existsb_exists. reflexivity.
Qed.

(** X11.  generateBenchmarkRecommendations always opens with the
    Engagement recommendation and emits between one and four
    recommendations, each category at most once, in the order Engagement,
    Content Volume, Growth, Credibility.  A Growth recommendation is present
    exactly when the target's username differs from the leader's, and a
    Credibility recommendation exactly when the target is not verified and
    some competitor is.  Content Volume and Credibility recommendations have
    priority medium; Engagement and Growth recommendations never do. *)
Theorem X11_recommendation_rules (target : Ranked)
  (competitors : list Ranked) (leader : Ranked) :
  let recs := generateBenchmarkRecommendations target competitors leader in
  let categories := map Recommendation.category recs in
  StronglySorted (fun a b => category_position a < category_position b)
                 categories
  /\ hd_error categories = Some Engagement
  /\ (1 <= List.length recs <= 4)%nat
  /\ (In GrowthRule categories <-> username target <> username leader)
  /\ (In Credibility categories
      <-> JS.truthy (verified target) = false
          /\ exists c : Ranked,
               In c competitors /\ JS.truthy (verified c) = true)
  /\ Forall (fun r =>
               match Recommendation.category r with
               | ContentVolume | Credibility =>
                   Recommendation.priority r = medium
               | Engagement | GrowthRule =>
                   Recommendation.priority r <> medium
               end) recs.
Proof.
  cbv zeta.
  pose proof (credibility_test target competitors) as Hcred.
  assert (Hname : negb (String.eqb (username target) (username leader)) = true
                  <-> username target <> username leader).
  { rewrite negb_true_iff. apply String.eqb_neq. }
  unfold generateBenchmarkRecommendations. cbv zeta.
  destruct (JS.lt (Metrics.engagementRate (metrics target)) _);
  destruct (JS.lt (Growth.videosPerMonth (growth target)) _);
  destruct (negb (JS.truthy (verified target)) && existsb _ competitors);
  destruct (negb (String.eqb (username target) (username leader)));
  try destruct (100 <? _);
  repeat settle_test;
  cbn [app map Recommendation.category Recommendation.priority List.length
       hd_error];
  (split;
   [ repeat (constructor; [ | repeat constructor; reflexivity ]); constructor
   | split;
     [ reflexivity
     | split;
       [ lia
       | split;
         [ emitted_iff_condition
         | split;
           [ emitted_iff_condition
           | repeat constructor; cbn; discriminate ] ] ] ] ]).
Qed.

(** ** Competitors that carry the target's username *)

(** X13.  When every competitor carries the same username as the target,
    the competitor-only list handed to the recommendations is empty: the
    target is reported as the leader, and the only recommendation is the
    low-priority Engagement one, whose competitor average is NaN. *)
Theorem X13_same_username_competitors (target : Creator.t)
  (competitors : list Creator.t) :
  competitors <> [] ->
  Forall (fun c => Creator.username c = Creator.username target) competitors ->
  exists r,
    benchmarkCreator (Some target) competitors = JS.ret r
    /\ BenchmarkResult.isLeader r = true
    /\ BenchmarkResult.gapToLeader r = None
    /\ BenchmarkResult.recommendations r
       = [ Recommendation.mk Engagement low
             (MaintainEngagement
                (Metrics.engagementRate
                   (metrics (BenchmarkResult.target r))) JS.NaN)
             (ImpactText "Key competitive advantage") None ].
Proof.
  intros Hne Hsame.
  destruct (benchmark_returns target competitors Hne)
    as (r & ta & leader & rest & Hr & Hfind & Hall & Ht & _ & Hlead & Hgap
        & Hrec).
  cbv zeta in *.
  exists r. split; [ exact Hr | ].
  assert (Hnames : forall c : Ranked, In c (ranked (target :: competitors)) ->
            username c = Creator.username target).
  { intros c Hc. destruct (ranked_entry_of_profile _ _ Hc) as (p & Hp & E).
    change (username c) with (username (entry c)). rewrite E. cbn.
    destruct Hp as [ <- | Hp ]; [ reflexivity | ].
    rewrite Forall_forall in Hsame. apply Hsame, Hp. }
  assert (Hleader : String.eqb (username leader) (Creator.username target)
                    = true).
  { apply String.eqb_eq, Hnames. rewrite Hall. left. reflexivity. }
  rewrite Hlead, Hgap, Hrec, Ht, Hleader.
  repeat (split; [ reflexivity | ]).
  rewrite filter_nothing.
  2:{ intros c Hc. unfold same_username.
      rewrite (Hnames c Hc), String.eqb_refl. reflexivity. }
  apply find_some in Hfind. destruct Hfind as [ Hin _ ].
  unfold generateBenchmarkRecommendations. cbv zeta.
  cbn [List.length Z.of_nat existsb]. rewrite andb_false_r.
  change (JS.div (sum_engagement []) (inject_Z 0)) with JS.NaN.
  change (JS.div (sum_videosPerMonth []) (inject_Z 0)) with JS.NaN.
  cbn [JS.mul JS.lt app].
  assert (E : String.eqb (username ta) (username leader) = true).
  { apply String.eqb_eq. rewrite (Hnames ta Hin).
    symmetry. apply Hnames. rewrite Hall. left. reflexivity. }
  rewrite E. reflexivity.
Qed.

Lemma X13_same_username_competitors_witness :
  exists r,
    benchmarkCreator (Some (profile "a" 10)) [ profile "a" 50 ] = JS.ret r
    /\ BenchmarkResult.isLeader r = true
    /\ List.length (BenchmarkResult.recommendations r) = 1%nat.
Proof.
  destruct (X13_same_username_competitors (profile "a" 10) [ profile "a" 50 ])
    as (r & Hr & Hl & _ & Hrec).
  - discriminate.
  - repeat constructor.
  - exists r. split; [ exact Hr | ]. split; [ exact Hl | ].
    rewrite Hrec. reflexivity.
Defined.

(** ** Percentile against rank *)

(** X14.  In a set of a given size a better (smaller) rank never gets a
    smaller percentile. *)
Theorem X14_percentile_follows_rank (rank1 rank2 total : Z) :
  0 < total -> rank1 <= rank2 ->
  percentile_of rank2 total <= percentile_of rank1 total.
Proof.
  intros Ht Hr. unfold percentile_of.
  apply Math_round_monotone, fl_monotone.
  assert (Hinv : (0 <= / inject_Z total)%Q).
  { apply Qinv_le_0_compat. change 0%Q with (inject_Z 0).
    rewrite <- Zle_Qle. lia. }
  assert (Hle : (inject_Z (rank1 - 1) / inject_Z total
                 <= inject_Z (rank2 - 1) / inject_Z total)%Q).
  { unfold Qdiv. apply Qmult_le_compat_r; [ | exact Hinv ].
    rewrite <- Zle_Qle. lia. }
  apply fl_monotone in Hle.
  set (a := Binary64.fl (inject_Z (rank1 - 1) / inject_Z total)) in *.
  set (b := Binary64.fl (inject_Z (rank2 - 1) / inject_Z total)) in *.
  clearbody a b.
  assert (Hsub : (1 - b <= 1 - a)%Q) by lra.
  apply fl_monotone in Hsub.
  set (c := Binary64.fl (1 - a)) in *.
  set (d := Binary64.fl (1 - b)) in *.
  clearbody c d. lra.
Qed.

Lemma X14_percentile_follows_rank_witness :
  percentile_of 3 4 <= percentile_of 2 4.
Proof. apply X14_percentile_follows_rank; lia. Defined.

(** ** The benchmark branch of the entry script *)

Section BenchmarkBranch.
Variable toLowerCase : string -> string.

Lemma find_target_readable (name : string) (l : list RawProfile) :
  forallb readable l = true ->
  find_target toLowerCase (TargetName name) l
  = JS.ret match find (carries toLowerCase name) l with
           | Some (Profile c) => Some c
           | _ => None
           end.
Proof.
  induction l as [ | p l IH ]; [ reflexivity | ].
  cbn [forallb]. rewrite andb_true_iff. intros [ Hp Hl ].
  specialize (IH Hl).
  destruct p as [ | | | c ]; try discriminate Hp;
    cbn [find_target matches_target lowered_target JS.bind JS.ret find
         carries].
  - exact IH.
  - destruct (String.eqb (toLowerCase (Creator.username c))
                         (toLowerCase name)); [ reflexivity | exact IH ].
Qed.

Lemma filter_competitors_readable (name : string) (l : list RawProfile) :
  forallb readable l = true ->
  filter_competitors toLowerCase (TargetName name) l
  = JS.ret (filter (fun p => negb (carries toLowerCase name p)) l).
Proof.
  induction l as [ | p l IH ]; [ reflexivity | ].
  cbn [forallb]. rewrite andb_true_iff. intros [ Hp Hl ].
  specialize (IH Hl).
  destruct p as [ | | | c ]; try discriminate Hp;
    cbn [filter_competitors matches_target lowered_target JS.bind JS.ret
         filter carries negb]; rewrite IH; cbn [JS.bind JS.ret].
  - reflexivity.
  - destruct (String.eqb (toLowerCase (Creator.username c))
                         (toLowerCase name)); reflexivity.
Qed.

Lemma find_carries_profile (name : string) (l : list RawProfile)
  (p : RawProfile) :
  find (carries toLowerCase name) l = Some p -> exists c, p = Profile c.
Proof.
  intros H. apply find_some in H. destruct H as [ _ H ].
  destruct p as [ | | | c ]; try discriminate H. eauto.
Qed.

(** An element that cannot be read makes the filter raise a TypeError,
    whatever the target username is. *)
Lemma filter_competitors_unreadable (targetUsername : TargetUsername)
  (l : list RawProfile) :
  existsb (fun p => negb (readable p)) l = true ->
  exists what,
    filter_competitors toLowerCase targetUsername l
    = JS.throw (JS.TypeError what).
Proof.
  induction l as [ | p l IH ]; [ discriminate | ].
  cbn [existsb]. rewrite orb_true_iff. intros H.
  cbn [filter_competitors].
  destruct (matches_target_outcome toLowerCase targetUsername p)
    as [ (what & ->) | (m & Em) ]; [ eexists; reflexivity | ].
  rewrite Em. cbn [JS.bind JS.ret].
  destruct H as [ H | H ].
  - destruct p; try discriminate H; destruct targetUsername; discriminate Em.
  - destruct (IH H) as (what & ->). eexists. reflexivity.
Qed.

(** A target username without [toLowerCase] makes the first callback
    raise. *)
Lemma find_target_other (shown : string) (l : list RawProfile) :
  l <> [] ->
  exists what,
    find_target toLowerCase (TargetOther shown) l
    = JS.throw (JS.TypeError what).
Proof.
  destruct l as [ | p l ]; [ congruence | intros _ ].
  destruct p; cbn; eexists; reflexivity.
Qed.

(** Past its two checks of the input the branch is the selection of the
    profiles. *)
Lemma benchmarkMode_past_checks (targetUsername : TargetUsername)
  (competitorUsernames : list string) (allProfiles : list RawProfile) :
  ~ (targetUsername = NoTarget \/ targetUsername = TargetName EmptyString) ->
  competitorUsernames <> [] ->
  benchmarkMode toLowerCase targetUsername competitorUsernames allProfiles
  = select_profiles toLowerCase targetUsername allProfiles.
Proof.
  intros Hno Hcu. unfold benchmarkMode.
  destruct competitorUsernames as [ | u us ]; [ congruence | ].
  cbn [List.length Nat.eqb].
  destruct targetUsername as [ | name | shown ];
    [ exfalso; apply Hno; left; reflexivity | | reflexivity ].
  destruct (String.eqb name EmptyString) eqn:E; [ | reflexivity ].
  apply String.eqb_eq in E. subst name.
  exfalso. apply Hno. right. reflexivity.
Qed.

(** The selection for a string target among elements that can be read. *)
Lemma select_profiles_named (name : string) (allProfiles : list RawProfile) :
  forallb readable allProfiles = true ->
  let outcome := select_profiles toLowerCase (TargetName name) allProfiles in
  let competitors :=
    filter (fun p => negb (carries toLowerCase name p)) allProfiles in
  match find (carries toLowerCase name) allProfiles with
  | None =>
      outcome
      = JS.throw (JS.Error
          (String.append "Could not find target profile: @" name))
  | Some p =>
      exists target,
        p = Profile target
        /\ (competitors = [] ->
            outcome = JS.throw (JS.Error "No competitor profiles found"))
        /\ (competitors <> [] ->
            outcome = JS.ret (target, competitors)
            /\ forall cs, competitors = map Profile cs ->
                 exists r, benchmarkCreator (Some target) cs = JS.ret r)
  end.
Proof.
  intros Hread. cbv zeta. unfold select_profiles.
  rewrite (find_target_readable name allProfiles Hread).
  rewrite (filter_competitors_readable name allProfiles Hread).
  cbn [JS.bind JS.ret shown_target].
  destruct (find (carries toLowerCase name) allProfiles) as [ p | ] eqn:Ef;
    [ | reflexivity ].
  destruct (find_carries_profile name _ _ Ef) as (c & ->).
  exists c. split; [ reflexivity | ].
  destruct (filter (fun p => negb (carries toLowerCase name p))
                   allProfiles) as [ | x xs ] eqn:Ec.
  - split; [ reflexivity | congruence ].
  - split; [ discriminate | ]. intros _. split; [ reflexivity | ].
    intros cs Ecs.
    destruct (benchmark_returns c cs) as (r & _ & _ & _ & Hr & _).
    + destruct cs; discriminate.
    + eauto.
Qed.

End BenchmarkBranch.

(** X15.  The benchmark branch of the entry script, up to its call of
    benchmarkCreator, for any lowering function.  Without a target
    username, or with an empty one, it fails with "Benchmark mode requires
    targetUsername"; with a target username and no competitor username it
    fails with "Benchmark mode requires at least one competitor".  Past
    these two checks it ends in a TypeError exactly when an element of the
    profile list is null or undefined or has a username that is neither a
    string nor missing, or when the target username is not a string and
    the list is not empty.  For a string target and a list without such
    elements: when no profile has the target's lowered username it fails
    with "Could not find target profile"; otherwise the target is the first
    profile with that lowered username and the competitors are the elements
    whose lowered username differs or is missing, in their order; without
    any it fails with "No competitor profiles found", and with competitors
    that are all profiles benchmarkCreator returns a result for them. *)
Theorem X15_benchmark_mode_outcomes (toLowerCase : string -> string)
  (targetUsername : TargetUsername) (competitorUsernames : list string)
  (allProfiles : list RawProfile) :
  let outcome :=
    benchmarkMode toLowerCase targetUsername competitorUsernames
      allProfiles in
  let no_target :=
    targetUsername = NoTarget \/ targetUsername = TargetName EmptyString in
  (no_target ->
   outcome = JS.throw (JS.Error "Benchmark mode requires targetUsername"))
  /\ (~ no_target -> competitorUsernames = [] ->
      outcome
      = JS.throw (JS.Error "Benchmark mode requires at least one competitor"))
  /\ (~ no_target -> competitorUsernames <> [] ->
      ((exists what, outcome = JS.throw (JS.TypeError what))
       <-> existsb (fun p => negb (readable p)) allProfiles = true
           \/ ((exists shown, targetUsername = TargetOther shown)
               /\ allProfiles <> []))
      /\ (forall shown, targetUsername = TargetOther shown ->
          allProfiles = [] ->
          outcome
          = JS.throw (JS.Error
              (String.append "Could not find target profile: @" shown)))
      /\ (forall name, targetUsername = TargetName name ->
          forallb readable allProfiles = true ->
          let competitors :=
            filter (fun p => negb (carries toLowerCase name p))
                   allProfiles in
          match find (carries toLowerCase name) allProfiles with
          | None =>
              outcome
              = JS.throw (JS.Error
                  (String.append "Could not find target profile: @" name))
          | Some p =>
              exists target,
                p = Profile target
                /\ (competitors = [] ->
                    outcome
                    = JS.throw (JS.Error "No competitor profiles found"))
                /\ (competitors <> [] ->
                    outcome = JS.ret (target, competitors)
                    /\ forall cs, competitors = map Profile cs ->
                         exists r,
                           benchmarkCreator (Some target) cs = JS.ret r)
          end)).
Proof.
  cbv zeta. split; [ | split ].
  - intros [ -> | -> ]; reflexivity.
  - intros Hno ->. unfold benchmarkMode.
    destruct targetUsername as [ | name | shown ];
      [ exfalso; apply Hno; left; reflexivity | | reflexivity ].
    destruct (String.eqb name EmptyString) eqn:E; [ | reflexivity ].
    apply String.eqb_eq in E. subst name.
    exfalso. apply Hno. right. reflexivity.
  - intros Hno Hcu.
    rewrite (benchmarkMode_past_checks toLowerCase _ _ _ Hno Hcu).
    split; [ | split ].
    + split.
      * intros (what & Hout).
        destruct (existsb (fun p => negb (readable p)) allProfiles) eqn:Eu;
          [ left; reflexivity | right ].
        assert (Hread : forallb readable allProfiles = true).
        { apply forallb_forall. intros p Hp.
          destruct (readable p) eqn:Er; [ reflexivity | ].
          assert (Hex : existsb (fun p => negb (readable p)) allProfiles
                        = true).
          { apply existsb_exists. exists p. rewrite Er. auto. }
          congruence. }
        destruct targetUsername as [ | name | shown ].
        -- exfalso. apply Hno. left. reflexivity.
        -- exfalso.
           pose proof (select_profiles_named toLowerCase name allProfiles
                         Hread) as Hnamed.
           cbv zeta in Hnamed.
           destruct (find (carries toLowerCase name) allProfiles) as [ p | ].
           ++ destruct Hnamed as (c & _ & H1 & H2).
              destruct (filter (fun p => negb (carries toLowerCase name p))
                               allProfiles) as [ | x xs ].
              ** rewrite (H1 eq_refl) in Hout. discriminate Hout.
              ** destruct H2 as [ H2 _ ]; [ discriminate | ].
                 rewrite H2 in Hout. discriminate Hout.
           ++ rewrite Hnamed in Hout. discriminate Hout.
        -- split; [ eauto | ]. intros ->. cbn in Hout. discriminate Hout.
      * unfold select_profiles.
        intros [ Hu | ((shown & ->) & Hne) ].
        -- destruct (filter_competitors_unreadable toLowerCase targetUsername
                       allProfiles Hu) as (what & Ef).
           destruct (find_target_outcome toLowerCase targetUsername
                       allProfiles) as [ (what' & ->) | (m & ->) ].
           ++ eexists. reflexivity.
           ++ rewrite Ef. eexists. reflexivity.
        -- destruct (find_target_other toLowerCase shown allProfiles Hne)
             as (what & ->).
           eexists. reflexivity.
    + intros shown -> ->. reflexivity.
    + intros name ->. apply select_profiles_named.
Qed.

Lemma X15_benchmark_mode_outcomes_witness :
  benchmarkMode JS.toLowerCase NoTarget [ "b" ]
    [ Profile (profile "a" 1); Profile (profile "b" 2) ]
  = JS.throw (JS.Error "Benchmark mode requires targetUsername")
  /\ (exists what,
        benchmarkMode JS.toLowerCase (TargetName "A") [ "b" ]
          [ Profile (profile "a" 1); NotAnObject ]
        = JS.throw (JS.TypeError what))
  /\ benchmarkMode JS.toLowerCase (TargetName "BOB") [ "al" ]
       [ Profile (profile "al" 1); Profile (profile "Bob" 2); NoUsername ]
     = JS.ret (profile "Bob" 2, [ Profile (profile "al" 1); NoUsername ]).
Proof.
  split; [ | split ].
  - apply (X15_benchmark_mode_outcomes JS.toLowerCase NoTarget [ "b" ]
             [ Profile (profile "a" 1); Profile (profile "b" 2) ]).
    left. reflexivity.
  - apply (X15_benchmark_mode_outcomes JS.toLowerCase (TargetName "A") [ "b" ]
             [ Profile (profile "a" 1); NotAnObject ]).
    + intros [ H | H ]; discriminate H.
    + discriminate.
    + left. reflexivity.
  - destruct (X15_benchmark_mode_outcomes JS.toLowerCase (TargetName "BOB")
                [ "al" ]
                [ Profile (profile "al" 1); Profile (profile "Bob" 2);
                  NoUsername ]) as (_ & _ & H).
    destruct H as (_ & _ & H).
    + intros [ H | H ]; discriminate H.
    + discriminate.
    + specialize (H "BOB" eq_refl eq_refl). cbn in H.
      destruct H as (target & Et & _ & H). injection Et as <-.
      apply H. discriminate.
Defined.

(** ** Competitors with other usernames *)

Lemma filter_of_entries (p : CompetitorAnalysis -> bool) (l : list Ranked) :
  map entry (filter (fun c : Ranked => p c) l) = filter p (map entry l).
Proof.
  induction l as [ | x l IH ]; [ reflexivity | ].
  simpl. destruct (p x); simpl; now rewrite IH.
Qed.

(** X16.  When no competitor carries the target's username, the target
    reported by benchmarkCreator is the analysis of the target profile
    itself, and the competitor-only list the recommendations are computed
    from holds exactly the analyses of the competitors, one for each. *)
Theorem X16_target_and_competitors_are_separated (target : Creator.t)
  (competitors : list Creator.t) :
  competitors <> [] ->
  Forall (fun c => Creator.username c <> Creator.username target)
         competitors ->
  exists r (leader : Ranked) (rest others : list Ranked),
    let all := target :: competitors in
    let analysis :=
      competitorAnalysis_of (sum_followers all) (sum_likes all) in
    benchmarkCreator (Some target) competitors = JS.ret r
    /\ ranked all = leader :: rest
    /\ entry (BenchmarkResult.target r) = analysis target
    /\ BenchmarkResult.recommendations r
       = generateBenchmarkRecommendations (BenchmarkResult.target r) others
                                          leader
    /\ Permutation (map entry others) (map analysis competitors)
    /\ List.length others = List.length competitors.
Proof.
  intros Hne Hdiff.
  destruct (benchmark_returns target competitors Hne)
    as (r & ta & leader & rest & Hr & Hfind & Hall & Ht & _ & _ & _ & Hrec).
  cbv zeta in *.
  set (all := target :: competitors) in *.
  set (analysis := competitorAnalysis_of (sum_followers all) (sum_likes all)).
  exists r, leader, rest,
    (filter (fun c => negb (same_username target c)) (ranked all)).
  split; [ exact Hr | ]. split; [ exact Hall | ].
  rewrite Ht.
  assert (Hperm : Permutation
            (map entry (filter (fun c => negb (same_username target c))
                               (ranked all)))
            (map analysis competitors)).
  { rewrite (filter_of_entries
               (fun c => negb (String.eqb (username c)
                                          (Creator.username target)))).
    rewrite ranked_entries.
    eapply perm_trans;
      [ apply Permutation_filter, (sort_perm by_followers) | ].
    unfold analyses, all. cbn [map filter competitorAnalysis_of username].
    rewrite String.eqb_refl. cbn [negb].
    rewrite filter_everything; [ apply Permutation_refl | ].
    intros a Ha. apply in_map_iff in Ha. destruct Ha as (c & <- & Hc).
    cbn. rewrite Forall_forall in Hdiff.
    apply negb_true_iff, String.eqb_neq, Hdiff, Hc. }
  split.
  { apply find_some in Hfind. destruct Hfind as [ Hin Hp ].
    destruct (ranked_entry_of_profile _ _ Hin) as (p & Hpin & E).
    unfold same_username in Hp. apply String.eqb_eq in Hp.
    change (username ta) with (username (entry ta)) in Hp.
    rewrite E in Hp. cbn in Hp.
    destruct Hpin as [ <- | Hpin ]; [ exact E | ].
    rewrite Forall_forall in Hdiff. exfalso. apply (Hdiff p Hpin Hp). }
  split; [ exact Hrec | ].
  split; [ exact Hperm | ].
  apply Permutation_length in Hperm. now rewrite !length_map in Hperm.
Qed.

Lemma X16_target_and_competitors_are_separated_witness :
  exists r,
    benchmarkCreator (Some (profile "a" 10)) [ profile "b" 50 ] = JS.ret r
    /\ username (BenchmarkResult.target r) = "a"
    /\ Metrics.followers (metrics (BenchmarkResult.target r)) = 10.
Proof.
  destruct (X16_target_and_competitors_are_separated
              (profile "a" 10) [ profile "b" 50 ])
    as (r & leader & rest & others & Hr & _ & Ht & _).
  - discriminate.
  - repeat constructor. discriminate.
  - exists r. split; [ exact Hr | ].
    change (username (BenchmarkResult.target r))
      with (username (entry (BenchmarkResult.target r))).
    change (metrics (BenchmarkResult.target r))
      with (metrics (entry (BenchmarkResult.target r))).
    rewrite Ht. split; reflexivity.
Defined.

(** ** The landscape branch of the entry script *)

(** X17.  The landscape branch of the entry script analyses the fetched
    profiles when fetching is enabled and at least one username is given,
    and the [profiles] input otherwise.  With fewer than two usernames and
    fewer than two profiles it fails with "Landscape mode requires at least
    2 creators"; otherwise, with fewer than two profiles left to analyse, it
    fails with "Need at least 2 valid profiles for landscape analysis".
    With two elements or more it ends in a TypeError when one of them is
    null or undefined, and returns the full landscape of the profiles when
    none is; it never meets the error object of the analyzer. *)
Theorem X17_landscape_mode_outcomes (tiktokUsernames : list string)
  (profiles : list (option Creator.t)) (fetchProfiles : bool)
  (fetched : list (option Creator.t)) :
  let allProfiles :=
    if fetchProfiles && Nat.ltb 0 (List.length tiktokUsernames)
    then fetched else profiles in
  let outcome := landscapeMode tiktokUsernames profiles fetchProfiles fetched in
  let too_few_given :=
    (List.length tiktokUsernames < 2 /\ List.length profiles < 2)%nat in
  (too_few_given ->
   outcome = JS.throw (JS.Error "Landscape mode requires at least 2 creators"))
  /\ (~ too_few_given -> (List.length allProfiles < 2)%nat ->
      outcome
      = JS.throw (JS.Error
          "Need at least 2 valid profiles for landscape analysis"))
  /\ (~ too_few_given -> (2 <= List.length allProfiles)%nat ->
      (In None allProfiles ->
       exists what, outcome = JS.throw (JS.TypeError what))
      /\ (forall ps, allProfiles = map Some ps ->
          exists L,
            outcome = JS.ret L
            /\ analyzeCompetitiveLandscape allProfiles
               = JS.ret (LandscapeOk L)
            /\ Landscape.competitors L = ranked ps)).
Proof.
  cbv zeta. unfold landscapeMode. cbv zeta.
  set (allProfiles := if fetchProfiles
                         && Nat.ltb 0 (List.length tiktokUsernames)
                      then fetched else profiles).
  destruct (Nat.ltb (List.length tiktokUsernames) 2) eqn:E1;
  destruct (Nat.ltb (List.length profiles) 2) eqn:E2;
  destruct (Nat.ltb (List.length allProfiles) 2) eqn:E3;
  cbn [andb];
  repeat match goal with
         | H : Nat.ltb _ _ = true |- _ => apply Nat.ltb_lt in H
         | H : Nat.ltb _ _ = false |- _ => apply Nat.ltb_ge in H
         end;
  (split; [ intros Hfew; first [ reflexivity | exfalso; lia ] | ]);
  (split; [ intros Hgiven Hleft;
            first [ reflexivity | exfalso; apply Hgiven; lia | exfalso; lia ]
          | ]);
  intros Hgiven Hleft;
  try (exfalso; apply Hgiven; lia); try (exfalso; lia).
  all: split.
  all: try (intros Hnone; unfold analyzeCompetitiveLandscape;
            destruct (Z.of_nat (List.length allProfiles) <? 2) eqn:Ez;
            [ apply Z.ltb_lt in Ez; lia | ];
            destruct (objects_none _ Hnone) as [ what Eo ]; rewrite Eo;
            cbn [JS.bind JS.throw]; eexists; reflexivity).
  all: intros ps Eps; rewrite Eps in Hleft |- *; rewrite length_map in Hleft;
    destruct (analyze_returns ps Hleft) as (L & HL & Hc & _);
    exists L; rewrite HL; repeat split; assumption.
Qed.

Lemma X17_landscape_mode_outcomes_witness :
  landscapeMode [ "a" ] [ Some (profile "x" 1) ] true [ Some (profile "a" 5) ]
  = JS.throw (JS.Error "Landscape mode requires at least 2 creators")
  /\ landscapeMode [ "a"; "b" ] [] true [ Some (profile "a" 5) ]
     = JS.throw (JS.Error
         "Need at least 2 valid profiles for landscape analysis")
  /\ (exists what,
        landscapeMode [] [ Some (profile "x" 1); None ] true []
        = JS.throw (JS.TypeError what))
  /\ exists L,
       landscapeMode [] [ Some (profile "x" 1); Some (profile "y" 2) ] true []
       = JS.ret L
       /\ Landscape.competitors L = ranked [ profile "x" 1; profile "y" 2 ].
Proof.
  split; [ | split; [ | split ] ].
  - apply (X17_landscape_mode_outcomes [ "a" ] [ Some (profile "x" 1) ] true
             [ Some (profile "a" 5) ]).
    simpl. lia.
  - apply (X17_landscape_mode_outcomes [ "a"; "b" ] [] true
             [ Some (profile "a" 5) ]); simpl; lia.
  - apply (X17_landscape_mode_outcomes [] [ Some (profile "x" 1); None ] true
             []); simpl; [ lia | lia | right; left; reflexivity ].
  - destruct (X17_landscape_mode_outcomes []
                [ Some (profile "x" 1); Some (profile "y" 2) ] true [])
      as (_ & _ & H).
    destruct H as [ _ H ]; [ simpl; lia | simpl; lia | ].
    destruct (H [ profile "x" 1; profile "y" 2 ] eq_refl)
      as (L & HL & _ & Hc).
    exists L. split; assumption.
Defined.

(** ** The two variants of the Growth rule *)

(** X18.  The guarded and the earlier variant of the recommendations
    produce the same categories with the same priorities unless the target
    is behind the leader with a growth difference between 1 and 100
    followers per month: there the earlier variant announces the overtaking
    (priority low) and the guarded one asks for more growth (priority high).
    From a growth difference of 1000 on, the months announced by the guarded
    variant are those of the earlier variant capped at 24. *)
Theorem X18_growth_rule_variants (target : Ranked)
  (competitors : list Ranked) (leader : Ranked) :
  let delta :=
    Growth.followersPerMonth (growth target)
    - Growth.followersPerMonth (growth leader) in
  let guarded := generateBenchmarkRecommendations target competitors leader in
  let earlier :=
    Legacy.generateBenchmarkRecommendations target competitors leader in
  let outline :=
    map (fun r => (Recommendation.category r, Recommendation.priority r))
        guarded in
  let outline' :=
    map (fun r => (Legacy.category r, Legacy.priority r)) earlier in
  (username target = username leader \/ delta <= 0 \/ 100 < delta ->
   outline = outline')
  /\ (username target <> username leader -> 0 < delta <= 100 ->
      In (GrowthRule, high) outline /\ ~ In (GrowthRule, low) outline
      /\ In (GrowthRule, low) outline' /\ ~ In (GrowthRule, high) outline')
  /\ (username target <> username leader -> 1000 <= delta ->
      exists months impact impact' disclaimer,
        In (Legacy.mk GrowthRule low (Legacy.MaintainGrowthVelocity months)
                      impact') earlier
        /\ In (Recommendation.mk GrowthRule low
                 (MaintainGrowthVelocity (Z.min months 24)) impact
                 disclaimer) guarded).
Proof.
  cbv zeta.
  unfold generateBenchmarkRecommendations,
    Legacy.generateBenchmarkRecommendations.
  cbv zeta.
  set (delta := Growth.followersPerMonth (growth target)
                - Growth.followersPerMonth (growth leader)).
  assert (Hname : String.eqb (username target) (username leader) = true
                  <-> username target = username leader)
    by apply String.eqb_eq.
  assert (Hlow : (Growth.followersPerMonth (growth leader)
                  <? Growth.followersPerMonth (growth target)) = true
                 <-> 0 < delta)
    by (rewrite Z.ltb_lt; unfold delta; lia).
  assert (Hthr : (100 <? delta) = true <-> 100 < delta) by apply Z.ltb_lt.
  assert (Hmax : 1000 <= delta -> Z.max delta 1000 = delta) by lia.
  destruct (JS.lt (Metrics.engagementRate (metrics target)) _);
  destruct (JS.lt (Growth.videosPerMonth (growth target)) _);
  destruct (negb (JS.truthy (verified target)) && existsb _ competitors);
  destruct (String.eqb (username target) (username leader));
  destruct (Growth.followersPerMonth (growth leader)
            <? Growth.followersPerMonth (growth target));
  destruct (100 <? delta);
  repeat settle_test;
  cbn [negb app map Recommendation.category Recommendation.priority
       Legacy.category Legacy.priority];
  (split;
   [ intros Hsame; first [ reflexivity | exfalso; intuition lia ]
   | split;
     [ intros Hn Hd; first [ contradiction | exfalso; lia | idtac ]
     | intros Hn Hd; first [ contradiction | exfalso; lia | idtac ] ] ]).
  all: try (repeat split; cbn [In];
            first [ tauto | intuition congruence ]).
  all: rewrite (Hmax Hd); eexists _, _, _, _; split; cbn [In]; auto 10.
Qed.

Lemma X18_growth_rule_variants_witness :
  let t :=
    mkRanked (competitorAnalysis_of 2000 0
                (with_age (profile "t" 500) (Some 30))) 2 in
  let l :=
    mkRanked (competitorAnalysis_of 2000 0
                (with_age (profile "l" 1500) (Some 100))) 1 in
  In (GrowthRule, high)
     (map (fun r => (Recommendation.category r, Recommendation.priority r))
          (generateBenchmarkRecommendations t [ l ] l))
  /\ In (GrowthRule, low)
        (map (fun r => (Legacy.category r, Legacy.priority r))
             (Legacy.generateBenchmarkRecommendations t [ l ] l)).
Proof.
  intros t l.
  destruct (X18_growth_rule_variants t [ l ] l) as (_ & H & _).
  destruct H as (H1 & _ & H2 & _).
  - cbv. intros E. discriminate E.
  - split; [ reflexivity | vm_compute; discriminate ].
  - split; assumption.
Defined.

(** ** Shares of the likes, and shares as percentages *)






(** ** Growth per day and per month *)


